(** * DutyAgent: schedule generation, fair assignment and CSV codec

    A shallow embedding of the duty-rotation scheduler in
    [src/vite.config.ts] (component [DutyRotationScheduler]).

    Modelling conventions.
    - Every [Date] the scheduler builds is a UTC midnight ([Date.UTC(...)]
      or a parse of ["YYYY-MM-DD" + "T00:00:00Z"]), so a date is its day
      number since 1970-01-01 (a [Z]).  The calendar fields
      ([getUTCFullYear], [getUTCMonth], [getUTCDate], [getUTCDay],
      [setUTCDate], [Date.UTC]) follow the ECMAScript definitions
      (DayFromYear, YearFromTime, MonthFromTime, DateFromTime, WeekDay,
      MakeDay).  The time-value range limit (TimeClip) is only modelled in
      the string parser; the years reachable from the year selector are far
      inside the range.
    - The local-time getters ([getFullYear], [getMonth], [getDate]) depend
      on the host time zone: [tz] is the host's offset from UTC in minutes
      (local = UTC + tz, e.g. -300 for US Eastern standard time).
    - JS strings are lists of ASCII characters; [trim] and [toLowerCase]
      are their ASCII restrictions.
    - A JS object used as a map from person id is a [gmap Z]. *)

From Stdlib Require Import ZArith Lia Bool Ascii String.
From stdpp Require Import base list gmap strings.

(* ------------------------------------------------------------------ *)
(** ** ECMAScript calendar arithmetic on day numbers *)

Module Cal.
Local Open Scope Z_scope.

(** DayFromYear(y) *)
Definition DayFromYear (y : Z) : Z :=
  365 * (y - 1970) + (y - 1969) / 4 - (y - 1901) / 100 + (y - 1601) / 400.

(** DaysInYear(y) *)
Definition DaysInYear (y : Z) : Z :=
  if negb (y mod 4 =? 0) then 365
  else if negb (y mod 100 =? 0) then 366
  else if negb (y mod 400 =? 0) then 365
  else 366.

(** YearFromTime: the largest [y] with [DayFromYear y <= d].  The
    estimate [y0] is within one year of it. *)
Definition YearFromDay (d : Z) : Z :=
  let y0 := 1970 + (400 * d) / 146097 in
  if DayFromYear (y0 + 1) <=? d then y0 + 1
  else if DayFromYear y0 <=? d then y0
  else y0 - 1.

Definition InLeapYear (d : Z) : Z :=
  if DaysInYear (YearFromDay d) =? 366 then 1 else 0.

Definition DayWithinYear (d : Z) : Z := d - DayFromYear (YearFromDay d).

(** Number of days of the year before month [m] (0-based). *)
Definition MonthStart (m leap : Z) : Z :=
  nth (Z.to_nat m) [0; 31; 59; 90; 120; 151; 181; 212; 243; 273; 304; 334] 0
  + (if 2 <=? m then leap else 0).

(** MonthFromTime *)
Definition MonthFromDay (d : Z) : Z :=
  let w := DayWithinYear d in
  let l := InLeapYear d in
  if w <? 31 then 0
  else if w <? 59 + l then 1
  else if w <? 90 + l then 2
  else if w <? 120 + l then 3
  else if w <? 151 + l then 4
  else if w <? 181 + l then 5
  else if w <? 212 + l then 6
  else if w <? 243 + l then 7
  else if w <? 273 + l then 8
  else if w <? 304 + l then 9
  else if w <? 334 + l then 10
  else 11.

(** DateFromTime *)
Definition DateFromDay (d : Z) : Z :=
  DayWithinYear d - MonthStart (MonthFromDay d) (InLeapYear d) + 1.

(** WeekDay: 0 = Sunday *)
Definition WeekDay (d : Z) : Z := (d + 4) mod 7.

Definition LeapOfYear (y : Z) : Z := if DaysInYear y =? 366 then 1 else 0.

(** MakeDay(year, month, date) *)
Definition MakeDay (y m dt : Z) : Z :=
  let ym := y + m / 12 in
  let mn := m mod 12 in
  DayFromYear ym + MonthStart mn (LeapOfYear ym) + dt - 1.

(** [Date.UTC(y, m, d)]: a year in 0..99 means 1900 + year. *)
Definition DateUTC (y m dt : Z) : Z :=
  let yr := if (0 <=? y) && (y <=? 99) then 1900 + y else y in
  MakeDay yr m dt.

(** [d.setUTCDate(n)] on a UTC date [d]. *)
Definition setUTCDate (d n : Z) : Z := MakeDay (YearFromDay d) (MonthFromDay d) n.

(** [d.setUTCDate(d.getUTCDate() + k)] *)
Definition addDays (d k : Z) : Z := setUTCDate d (DateFromDay d + k).

(** Local calendar date of the UTC midnight [d] re-read as a UTC midnight:
    [new Date(Date.UTC(d.getFullYear(), d.getMonth(), d.getDate()))]. *)
Definition localMidnightUTC (tz d : Z) : Z :=
  let ld := (d * 1440 + tz) / 1440 in
  DateUTC (YearFromDay ld) (MonthFromDay ld) (DateFromDay ld).

End Cal.
Import Cal.

(* ------------------------------------------------------------------ *)
(** ** JS string helpers *)

Abbreviation jstr := (list ascii).

Definition s2l (s : string) : jstr := list_ascii_of_string s.

Definition jeqb (a b : jstr) : bool := bool_decide (a = b).

(** WhiteSpace and LineTerminator code points of [String.prototype.trim]
    (ASCII part). *)
Definition is_ws (c : ascii) : bool :=
  let n := nat_of_ascii c in
  (n =? 9)%nat || (n =? 10)%nat || (n =? 11)%nat || (n =? 12)%nat
  || (n =? 13)%nat || (n =? 32)%nat.

Fixpoint trim_start (s : jstr) : jstr :=
  match s with
  | [] => []
  | c :: r => if is_ws c then trim_start r else s
  end.

Definition trim (s : jstr) : jstr := rev (trim_start (rev (trim_start s))).

Definition lower_char (c : ascii) : ascii :=
  let n := nat_of_ascii c in
  if (65 <=? n)%nat && (n <=? 90)%nat then ascii_of_nat (n + 32) else c.

Definition toLowerCase (s : jstr) : jstr := map lower_char s.

(** Decimal digits of a natural number ([Number.prototype.toString]). *)
Fixpoint digits_aux (fuel : nat) (n : Z) : jstr :=
  match fuel with
  | O => []
  | S f =>
      if (n <? 10)%Z then [ascii_of_nat (48 + Z.to_nat n)]
      else digits_aux f (n / 10)%Z ++ [ascii_of_nat (48 + Z.to_nat (n mod 10))]
  end.

(** The plain decimal form of an integer, with a minus sign when it is
    negative. It is [String(n)] for every safe integer, [|n| <= 2^53 - 1].
    Beyond that [String(n)] gives the shortest digits that read back as the
    same double (so [String(2^60)] ends in zeros), and from 10^21 on it uses
    the exponential form; this definition has neither. It is used for the
    date fields of [formatDateYYYYMMDD] and for the ids of the select. *)
Definition numToString (n : Z) : jstr :=
  if (n <? 0)%Z then "-"%char :: digits_aux 40 (- n) else digits_aux 40 n.

(** [s.padStart(2, '0')] *)
Definition padStart2 (s : jstr) : jstr := repeat "0"%char (2 - length s) ++ s.

Definition digit_val (c : ascii) : option Z :=
  let n := nat_of_ascii c in
  if (48 <=? n)%nat && (n <=? 57)%nat then Some (Z.of_nat (n - 48)) else None.

Fixpoint digits_val (acc : Z) (s : jstr) : option Z :=
  match s with
  | [] => Some acc
  | c :: r => match digit_val c with
              | Some v => digits_val (acc * 10 + v)%Z r
              | None => None
              end
  end.

(** Exactly [k] decimal digits at the head of [s]. *)
Definition take_digits (k : nat) (s : jstr) : option (Z * jstr) :=
  if (k <=? length s)%nat then
    match digits_val 0 (take k s) with
    | Some v => Some (v, drop k s)
    | None => None
    end
  else None.

(** [new Date(s + 'T00:00:00Z')] as a day number; [None] is an Invalid
    Date.  The ECMAScript date-time string format is modelled: a date-only
    form ([YYYY], [YYYY-MM], [YYYY-MM-DD], or a six-digit signed year) must
    make up all of [s], since the fixed suffix ["T00:00:00Z"] is the only
    time part the result may have.  Implementation-specific fallback
    formats that an engine may accept in addition are not modelled. *)
Definition suffixT : jstr := s2l "T00:00:00Z".

Definition TimeClipDay (d : Z) : option Z :=
  if (Z.abs d <=? 100000000)%Z then Some d else None.

Definition parse_year (s : jstr) : option (Z * jstr) :=
  match s with
  | c :: r =>
      if ascii_dec c "+"%char then take_digits 6 r
      else if ascii_dec c "-"%char then
        match take_digits 6 r with
        | Some (v, r') => if (v =? 0)%Z then None else Some ((- v)%Z, r')
        | None => None
        end
      else take_digits 4 s
  | [] => None
  end.

Definition finish_date (y m d : Z) (rest : jstr) : option Z :=
  if jeqb rest suffixT && (1 <=? m)%Z && (m <=? 12)%Z && (1 <=? d)%Z && (d <=? 31)%Z
  then TimeClipDay (MakeDay y (m - 1) d)
  else None.

Definition parseUTCMidnight (s : jstr) : option Z :=
  match parse_year (s ++ suffixT) with
  | None => None
  | Some (y, r) =>
      match r with
      | c :: r1 =>
          if ascii_dec c "-"%char then
            match take_digits 2 r1 with
            | None => None
            | Some (m, r2) =>
                match r2 with
                | c2 :: r3 =>
                    if ascii_dec c2 "-"%char then
                      match take_digits 2 r3 with
                      | None => None
                      | Some (d, r4) => finish_date y m d r4
                      end
                    else finish_date y m 1 r2
                | [] => finish_date y m 1 r2
                end
            end
          else finish_date y 1 1 r
      | [] => finish_date y 1 1 r
      end
  end.

(* ------------------------------------------------------------------ *)
(** ** Data model (interfaces [Leave], [Person], [Holiday], [Week]) *)

Record Leave := mkLeave { lstart : jstr; lend : jstr }.

Record Person := mkPerson { pid : Z; pname : jstr; leave : list Leave }.

Record Holiday := mkHoliday { hdate : jstr; hname : jstr }.

(** [assignedTo : number | string | null] *)
Inductive Assign := AId (id : Z) | AStr (s : jstr) | ANull.

Record Week := mkWeek {
  startDate : Z;
  endDate : Z;
  assignedTo : Assign;
  hasHoliday : bool;
  isHolidayPeriod : bool;
  notes : jstr
}.

Definition HOLIDAY_PERIOD : jstr := s2l "Holiday Period".
Definition NO_ONE_AVAILABLE : jstr := s2l "No one available".
Definition UNASSIGNED : jstr := s2l "Unassigned".

(* ------------------------------------------------------------------ *)
(** ** Holiday period and overlap checks *)

(** [getMondayBefore] *)
Definition getMondayBefore (d : Z) : Z :=
  let dayOfWeek := WeekDay d in
  let diff := if (dayOfWeek =? 0)%Z then (-6)%Z else (1 - dayOfWeek)%Z in
  addDays d diff.

(** [getFridayAfter] *)
Definition getFridayAfter (d : Z) : Z :=
  let dayOfWeek := WeekDay d in
  let diff := if (dayOfWeek =? 6)%Z then 6%Z else (5 - dayOfWeek)%Z in
  addDays d diff.

(** [getHolidayPeriod], for the years whose Dec 25 and next Jan 1 lie in
    the [Date] range of 10^8 days either side of the epoch, that is the
    years -271821 to 275759. TimeClip is not modelled: for any other year
    Dec 25 is out of that range, its [Date] is invalid, and the code takes
    the [isNaN] branch and returns [null] (see
    [getHolidayPeriod_christmas_out_of_range]). *)
Definition getHolidayPeriod (scheduleYear : Z) : Z * Z :=
  let christmas := DateUTC scheduleYear 11 25 in
  let newYear := DateUTC (scheduleYear + 1) 0 1 in
  (getMondayBefore christmas, getFridayAfter newYear).

(** [isWeekInHolidayPeriod] *)
Definition isWeekInHolidayPeriod (weekStartDate weekEndDate scheduleYear : Z) : bool :=
  let '(ps, pe) := getHolidayPeriod scheduleYear in
  (weekStartDate <=? pe)%Z && (ps <=? weekEndDate)%Z.

(** [weekContainsHoliday] *)
Definition weekContainsHoliday (tz startDate endDate : Z) (holidayList : list Holiday) : bool :=
  existsb (fun h =>
    match parseUTCMidnight (hdate h) with
    | Some holidayDate =>
        (localMidnightUTC tz startDate <=? holidayDate)%Z
        && (holidayDate <=? localMidnightUTC tz endDate)%Z
    | None => false
    end) holidayList.

(** [isPersonOnLeave] (local to [assignPeopleToWeeks]) *)
Definition isPersonOnLeave (tz : Z) (people : list Person) (personId startDate endDate : Z) : bool :=
  match find (fun p => (pid p =? personId)%Z) people with
  | None => false
  | Some person =>
      existsb (fun l =>
        match parseUTCMidnight (lstart l), parseUTCMidnight (lend l) with
        | Some leaveStart, Some leaveEnd =>
            (leaveStart <=? localMidnightUTC tz endDate)%Z
            && (localMidnightUTC tz startDate <=? leaveEnd)%Z
        | _, _ => false
        end) (leave person)
  end.

(* ------------------------------------------------------------------ *)
(** ** [generateSchedule] *)

(** The search for the first [startDayOfWeek] of [startMonth]; a month has
    at most 31 days, so 32 rounds always reach the [break]. *)
Fixpoint find_first (fuel : nat) (year startMonth startDayOfWeek date : Z) : Z :=
  match fuel with
  | O => date
  | S f =>
      if (WeekDay date =? startDayOfWeek)%Z then date
      else
        let date' := addDays date 1 in
        if (YearFromDay date' >? year)%Z
           || ((YearFromDay date' =? year)%Z && (MonthFromDay date' >? startMonth)%Z)
        then
          let first := DateUTC year startMonth 1 in
          let dayDiff := Z.rem (startDayOfWeek - WeekDay first + 7) 7 in
          addDays first dayDiff
        else find_first f year startMonth startDayOfWeek date'
  end.

Definition firstWeekStart (year startMonth startDayOfWeek : Z) : Z :=
  find_first 32 year startMonth startDayOfWeek (DateUTC year startMonth 1).

(** The loop over week starts within [year]; a year has fewer than 60
    weeks, so 60 rounds always reach the exit test. *)
Fixpoint week_loop (fuel : nat) (tz : Z) (holidayList : list Holiday) (year date : Z) : list Week :=
  match fuel with
  | O => []
  | S f =>
      if (YearFromDay date =? year)%Z then
        let startDate := date in
        let endDate := addDays date 6 in
        let isMarked := isWeekInHolidayPeriod startDate endDate year in
        mkWeek startDate endDate
          (if isMarked then AStr HOLIDAY_PERIOD else ANull)
          (weekContainsHoliday tz startDate endDate holidayList)
          isMarked []
        :: week_loop f tz holidayList year (addDays date 7)
      else []
  end.

(** The week list [generateSchedule] hands to [assignPeopleToWeeks]. *)
Definition generateWeeks (tz : Z) (holidayList : list Holiday) (year startMonth startDayOfWeek : Z) : list Week :=
  week_loop 60 tz holidayList year (firstWeekStart year startMonth startDayOfWeek).

(* ------------------------------------------------------------------ *)
(** ** [assignPeopleToWeeks] *)

(** A [HolidayCounts] entry during assignment; [lastAssigned = None] is
    [-Infinity]. *)
Record Cnt := mkCnt { total : nat; holiday : nat; lastAssigned : option nat }.

Definition cnt0 : Cnt := mkCnt 0 0 None.

(** [counts[id]]: every roster id is initialised before the loop, so the
    default is never used for a roster member. *)
Definition cnt_of (counts : gmap Z Cnt) (id : Z) : Cnt := default cnt0 (counts !! id).

(** Sign of [(a ?? -Infinity) - (b ?? -Infinity)]; [-Infinity - -Infinity]
    is NaN, which [Array.prototype.sort] reads as 0. *)
Definition cmp_last (a b : option nat) : comparison :=
  match a, b with
  | None, None => Eq
  | None, Some _ => Lt
  | Some _, None => Gt
  | Some x, Some y => Nat.compare x y
  end.

(** The comparator passed to [availablePeople.sort]. *)
Definition cmp_counts (ca cb : Cnt) : comparison :=
  if negb (total ca =? total cb)%nat then Nat.compare (total ca) (total cb)
  else if negb (holiday ca =? holiday cb)%nat then Nat.compare (holiday ca) (holiday cb)
  else cmp_last (lastAssigned ca) (lastAssigned cb).

(** [Array.prototype.sort] is stable (ES2019): for a consistent comparator
    every stable sort returns the list this insertion sort returns. *)
Fixpoint insert_by {A} (cmp : A -> A -> comparison) (x : A) (l : list A) : list A :=
  match l with
  | [] => [x]
  | y :: l' => match cmp x y with
               | Gt => y :: insert_by cmp x l'
               | _ => x :: l
               end
  end.

Fixpoint sort_by {A} (cmp : A -> A -> comparison) (l : list A) : list A :=
  match l with
  | [] => []
  | x :: l' => insert_by cmp x (sort_by cmp l')
  end.

Definition initCounts (people : list Person) : gmap Z Cnt :=
  foldl (fun m p => <[pid p := cnt0]> m) ∅ people.

Definition availablePeople (tz : Z) (people : list Person) (w : Week) : list Person :=
  filter (fun p => negb (isPersonOnLeave tz people (pid p) (startDate w) (endDate w))) people.

(** One round of [currentSchedule.map((week, index) => ...)], threading
    the mutable [counts]. *)
Definition assign_week (tz : Z) (people : list Person) (holidayList : list Holiday)
    (counts : gmap Z Cnt) (index : nat) (week : Week) : Week * gmap Z Cnt :=
  if isHolidayPeriod week then (week, counts)
  else
    let avail := availablePeople tz people week in
    match sort_by (fun a b => cmp_counts (cnt_of counts (pid a)) (cnt_of counts (pid b))) avail with
    | [] =>
        (mkWeek (startDate week) (endDate week) (AStr NO_ONE_AVAILABLE)
           (hasHoliday week) (isHolidayPeriod week) (notes week), counts)
    | assignedPerson :: _ =>
        let id := pid assignedPerson in
        let c := cnt_of counts id in
        let c1 := mkCnt (S (total c)) (holiday c) (Some index) in
        let currentWeekHasHoliday := weekContainsHoliday tz (startDate week) (endDate week) holidayList in
        let c2 := if currentWeekHasHoliday then mkCnt (total c1) (S (holiday c1)) (lastAssigned c1) else c1 in
        (mkWeek (startDate week) (endDate week) (AId id) currentWeekHasHoliday
           (isHolidayPeriod week) (notes week), <[id := c2]> counts)
  end.

Fixpoint assign_loop (tz : Z) (people : list Person) (holidayList : list Holiday)
    (counts : gmap Z Cnt) (index : nat) (ws : list Week) : list Week * gmap Z Cnt :=
  match ws with
  | [] => ([], counts)
  | w :: ws' =>
      let '(w', counts') := assign_week tz people holidayList counts index w in
      let '(ws'', counts'') := assign_loop tz people holidayList counts' (S index) ws' in
      (w' :: ws'', counts'')
  end.

(** [assignPeopleToWeeks]: the new schedule and [finalCounts]
    (each entry without [lastAssigned]). *)
Definition assignPeopleToWeeks (tz : Z) (people : list Person) (currentSchedule : list Week)
    (holidayList : list Holiday) : list Week * gmap Z (nat * nat) :=
  let '(ws, counts) := assign_loop tz people holidayList (initCounts people) 0 currentSchedule in
  (ws, (fun c => (total c, holiday c)) <$> counts).

(** [generateSchedule] followed by its call of [assignPeopleToWeeks]. *)
Definition generateSchedule (tz : Z) (people : list Person) (holidayList : list Holiday)
    (year startMonth startDayOfWeek : Z) : list Week * gmap Z (nat * nat) :=
  assignPeopleToWeeks tz people (generateWeeks tz holidayList year startMonth startDayOfWeek) holidayList.

(* ------------------------------------------------------------------ *)
(** ** [recalculateAssignments] *)

(** One round of [schedule.forEach]: a numeric assignment to an id that
    has an entry ([if (counts[personId])]) counts one duty, and one holiday
    duty when [week.hasHoliday]. *)
Definition recalc_week (counts : gmap Z (nat * nat)) (week : Week) : gmap Z (nat * nat) :=
  match assignedTo week with
  | AId personId =>
      match counts !! personId with
      | Some (t, h) => <[personId := (S t, if hasHoliday week then S h else h)]> counts
      | None => counts
      end
  | _ => counts
  end.

Definition zeroCounts (people : list Person) : gmap Z (nat * nat) :=
  foldl (fun m p => <[pid p := (0, 0)]> m) ∅ people.

Definition recalculateAssignments (people : list Person) (schedule : list Week) : gmap Z (nat * nat) :=
  foldl recalc_week (zeroCounts people) schedule.

(** The component state the recount reads and writes. *)
Record AppState := mkState {
  st_people : list Person;
  st_schedule : list Week;
  st_counts : gmap Z (nat * nat)
}.

(** [recalculateAssignments()] as a state transition: only
    [setHolidayCounts] is called. *)
Definition recalc_step (st : AppState) : AppState :=
  mkState (st_people st) (st_schedule st) (recalculateAssignments (st_people st) (st_schedule st)).

(** Weeks numerically assigned to [id], and those of them with a holiday. *)
Definition is_duty (id : Z) (w : Week) : bool :=
  match assignedTo w with AId j => (j =? id)%Z | _ => false end.

Definition duty_count (id : Z) (s : list Week) : nat :=
  length (List.filter (is_duty id) s).

Definition holiday_duty_count (id : Z) (s : list Week) : nat :=
  length (List.filter (fun w => is_duty id w && hasHoliday w) s).

(* ------------------------------------------------------------------ *)
(** ** CSV export and import *)

Definition CSV_HEADERS : list jstr :=
  [s2l "Week Start Date"; s2l "Week End Date"; s2l "Assigned To"; s2l "Holidays"; s2l "Notes"].

Definition QUOTE : ascii := "034"%char.
Definition COMMA : ascii := ","%char.
Definition NL : ascii := "010"%char.
Definition CR : ascii := "013"%char.

(** [Array.prototype.join] *)
Fixpoint join (sep : jstr) (l : list jstr) : jstr :=
  match l with
  | [] => []
  | [x] => x
  | x :: r => x ++ sep ++ join sep r
  end.

(** [str.includes(c)] for a one-character [c] *)
Definition includes (str : jstr) (c : ascii) : bool := existsb (fun x => Ascii.eqb x c) str.

(** [str.replace(/QUOTE/g, QUOTE QUOTE)]: every double quote doubled *)
Fixpoint double_quotes (str : jstr) : jstr :=
  match str with
  | [] => []
  | c :: r => if Ascii.eqb c QUOTE then QUOTE :: QUOTE :: double_quotes r else c :: double_quotes r
  end.

(** [escapeCSV] on a string field *)
Definition escapeCSV (str : jstr) : jstr :=
  if includes str COMMA || includes str NL || includes str QUOTE
  then QUOTE :: double_quotes str ++ [QUOTE]
  else str.

(** [str.replace(/QUOTE QUOTE/g, QUOTE)]: doubled double quotes undoubled *)
Fixpoint undouble_quotes (str : jstr) : jstr :=
  match str with
  | c :: ((c' :: r') as r) =>
      if Ascii.eqb c QUOTE && Ascii.eqb c' QUOTE then QUOTE :: undouble_quotes r'
      else c :: undouble_quotes r
  | _ => str
  end.

(** [unescapeCSV]; [field.slice(1, -1)] is [removelast (tl field)], also
    for a field made of one double quote, where it is empty. *)
Definition unescapeCSV (field : jstr) : jstr :=
  match field, rev field with
  | c :: _, c' :: _ =>
      if Ascii.eqb c QUOTE && Ascii.eqb c' QUOTE
      then undouble_quotes (removelast (tl field)) else field
  | _, _ => field
  end.

(** [formatDateYYYYMMDD] on a (valid) date *)
Definition formatDateYYYYMMDD (d : Z) : jstr :=
  numToString (YearFromDay d) ++ "-"%char :: padStart2 (numToString (MonthFromDay d + 1))
  ++ "-"%char :: padStart2 (numToString (DateFromDay d)).

(** [getPersonName] *)
Definition getPersonName (people : list Person) (id : Assign) : jstr :=
  match id with
  | AId n =>
      match find (fun p => (pid p =? n)%Z) people with
      | Some person => pname person
      | None => s2l "Unknown Person"
      end
  | AStr s => s
  | ANull => UNASSIGNED
  end.

(** [getPersonIdFromName]: a case-insensitive roster match first; the
    status strings come back as they are, and the empty name as [null]
    ([return name || null]); any other name is [null]. *)
Definition getPersonIdFromName (people : list Person) (name : jstr) : Assign :=
  match find (fun p => jeqb (toLowerCase (pname p)) (toLowerCase name)) people with
  | Some person => AId (pid person)
  | None =>
      if jeqb name HOLIDAY_PERIOD || jeqb name NO_ONE_AVAILABLE || jeqb name UNASSIGNED
      then AStr name
      else ANull
  end.

(** [getHolidaysInWeek] (the week's dates are [Date] objects) *)
Definition getHolidaysInWeek (tz : Z) (holidays : list Holiday) (startDate endDate : Z) : list Holiday :=
  List.filter (fun h =>
    match parseUTCMidnight (hdate h) with
    | Some holidayDate =>
        (localMidnightUTC tz startDate <=? holidayDate)%Z
        && (holidayDate <=? localMidnightUTC tz endDate)%Z
    | None => false
    end) holidays.

(** The text of the Holidays cell: [`${h.date}: ${h.name}`] joined by
    newlines. *)
Definition holidaysStr (tz : Z) (holidays : list Holiday) (week : Week) : jstr :=
  join [NL] (map (fun h => hdate h ++ s2l ": " ++ hname h)
                 (getHolidaysInWeek tz holidays (startDate week) (endDate week))).

(** One row of [exportScheduleCSV] *)
Definition csv_row (tz : Z) (people : list Person) (holidays : list Holiday) (week : Week) : jstr :=
  join [COMMA]
    [escapeCSV (formatDateYYYYMMDD (startDate week));
     escapeCSV (formatDateYYYYMMDD (endDate week));
     escapeCSV (getPersonName people (assignedTo week));
     escapeCSV (holidaysStr tz holidays week);
     escapeCSV (notes week)].

(** [exportScheduleCSV]: the file content, or [None] for the alert on an
    empty schedule. *)
Definition exportScheduleCSV (tz : Z) (people : list Person) (holidays : list Holiday)
    (schedule : list Week) : option jstr :=
  match schedule with
  | [] => None
  | _ => Some (join [NL] (join [COMMA] CSV_HEADERS :: map (csv_row tz people holidays) schedule))
  end.

(** [csvContent.split(/\r?\n/)]: split at each line feed, a carriage
    return just before it being part of the separator. *)
Definition strip_cr (s : jstr) : jstr :=
  match rev s with
  | c :: r => if Ascii.eqb c CR then rev r else s
  | [] => s
  end.

Fixpoint split_lines_aux (cur s : jstr) : list jstr :=
  match s with
  | [] => [cur]
  | c :: r =>
      if Ascii.eqb c NL then strip_cr cur :: split_lines_aux [] r
      else split_lines_aux (cur ++ [c]) r
  end.

Definition split_lines (s : jstr) : list jstr := split_lines_aux [] s.

(** [s.split(sep)] for a one-character separator *)
Fixpoint split_on_aux (sep : ascii) (cur s : jstr) : list jstr :=
  match s with
  | [] => [cur]
  | c :: r =>
      if Ascii.eqb c sep then cur :: split_on_aux sep [] r
      else split_on_aux sep (cur ++ [c]) r
  end.

Definition split_on (sep : ascii) (s : jstr) : list jstr := split_on_aux sep [] s.

(** [lines]: the non-blank lines of the file *)
Definition csv_lines (csvContent : jstr) : list jstr :=
  List.filter (fun line => negb (jeqb (trim line) [])) (split_lines csvContent).

(** [headerLine.split(',').map(h => h.trim())] *)
Definition header_fields (headerLine : jstr) : list jstr := map trim (split_on COMMA headerLine).

(** [headers.length === CSV_HEADERS.length && CSV_HEADERS.every((h, i) => headers[i] === h)] *)
Definition header_ok (headers : list jstr) : bool :=
  (length headers =? length CSV_HEADERS)%nat
  && forallb (fun ih => match headers !! fst ih with
                        | Some h => jeqb h (snd ih)
                        | None => false
                        end)
             (zip (seq 0 (length CSV_HEADERS)) CSV_HEADERS).

(** [headers.indexOf(header)] *)
Fixpoint indexOf (header : jstr) (headers : list jstr) : option nat :=
  match headers with
  | [] => None
  | h :: r => if jeqb h header then Some 0%nat else option_map S (indexOf header r)
  end.

(** [colIndices], in the order of [CSV_HEADERS]; [None] is the
    missing-header error. *)
Fixpoint colIndices_aux (hs headers : list jstr) : option (list nat) :=
  match hs with
  | [] => Some []
  | h :: r =>
      match indexOf h headers with
      | None => None
      | Some i => option_map (cons i) (colIndices_aux r headers)
      end
  end.

Definition colIndices (headers : list jstr) : option (list nat) := colIndices_aux CSV_HEADERS headers.

(** The character loop over one data line: a double quote toggles
    [inQuotes] and is dropped; a comma outside quotes ends a value. *)
Fixpoint scan_row (inQuotes : bool) (currentVal : jstr) (values : list jstr) (line : jstr) : list jstr :=
  match line with
  | [] => values ++ [unescapeCSV (trim currentVal)]
  | c :: r =>
      if Ascii.eqb c QUOTE then scan_row (negb inQuotes) currentVal values r
      else if Ascii.eqb c COMMA && negb inQuotes
      then scan_row inQuotes [] (values ++ [unescapeCSV (trim currentVal)]) r
      else scan_row inQuotes (currentVal ++ [c]) values r
  end.

Definition parse_row (line : jstr) : list jstr := scan_row false [] [] line.

(** One data line; [None] is a skipped row (wrong column count or an
    invalid date). *)
Definition decode_row (tz : Z) (people : list Person) (holidays : list Holiday)
    (cols : list nat) (line : jstr) : option Week :=
  let values := parse_row line in
  if negb (length values =? length CSV_HEADERS)%nat then None
  else
    let col k := default [] (values !! default 0%nat (cols !! k)) in
    let startDateStr := col 0%nat in
    let endDateStr := col 1%nat in
    let assignedName := col 2%nat in
    let notesStr := col 4%nat in
    match parseUTCMidnight startDateStr, parseUTCMidnight endDateStr with
    | Some sd, Some ed =>
        let assignedToValue := getPersonIdFromName people assignedName in
        let hp := isWeekInHolidayPeriod sd ed (YearFromDay sd) in
        let hh := weekContainsHoliday tz sd ed holidays in
        Some (mkWeek sd ed (if hp then AStr HOLIDAY_PERIOD else assignedToValue) hh hp notesStr)
    | _, _ => None
    end.

Fixpoint decode_rows (tz : Z) (people : list Person) (holidays : list Holiday)
    (cols : list nat) (dataLines : list jstr) : list Week :=
  match dataLines with
  | [] => []
  | line :: r =>
      match decode_row tz people holidays cols line with
      | Some w => w :: decode_rows tz people holidays cols r
      | None => decode_rows tz people holidays cols r
      end
  end.

Inductive ImportResult := ImportError (message : jstr) | ImportOk (importedSchedule : list Week).

Definition import_rows (tz : Z) (people : list Person) (holidays : list Holiday)
    (cols : list nat) (dataLines : list jstr) : ImportResult :=
  match decode_rows tz people holidays cols dataLines with
  | [] => ImportError (s2l "No valid schedule data could be imported from the CSV.")
  | importedSchedule => ImportOk importedSchedule
  end.

(** [reader.onload] of [importScheduleCSV]: the thrown errors are
    [ImportError]s. *)
Definition importScheduleCSV (tz : Z) (people : list Person) (holidays : list Holiday)
    (csvContent : jstr) : ImportResult :=
  if jeqb csvContent [] then ImportError (s2l "File is empty or could not be read.")
  else
    match csv_lines csvContent with
    | headerLine :: ((_ :: _) as dataLines) =>
        let headers := header_fields headerLine in
        if negb (header_ok headers)
        then ImportError (s2l "Invalid CSV headers. Expected: Week Start Date, Week End Date, Assigned To, Holidays, Notes")
        else
          match colIndices headers with
          | None => ImportError (s2l "Missing required header")
          | Some cols => import_rows tz people holidays cols dataLines
          end
    | _ => ImportError (s2l "CSV file must contain headers and at least one data row.")
    end.

(** The import as a state transition: on success [setSchedule] and the
    recount effect that runs on the new [schedule]; on error nothing is
    set. *)
Definition import_step (tz : Z) (holidays : list Holiday) (st : AppState) (csvContent : jstr) : AppState :=
  match importScheduleCSV tz (st_people st) holidays csvContent with
  | ImportError _ => st
  | ImportOk ws => mkState (st_people st) ws (recalculateAssignments (st_people st) ws)
  end.


(* ------------------------------------------------------------------ *)
(** ** Roster, leave, week and title handlers *)

Definition MAX_PEOPLE : nat := 20.

(** [Math.max(...ids)] of a non-empty list of ids *)
Definition list_max (x : Z) (r : list Z) : Z := fold_left Z.max r x.

(** [addPerson]: the new roster and the new value of [newPersonName]. *)
Definition addPerson (people : list Person) (newPersonName : jstr) : list Person * jstr :=
  let trimmedName := trim newPersonName in
  if negb (jeqb trimmedName []) && (length people <? MAX_PEOPLE)%nat then
    let newId := match map pid people with
                 | [] => 1%Z
                 | i :: r => (list_max i r + 1)%Z
                 end in
    (people ++ [mkPerson newId trimmedName []], [])
  else (people, newPersonName).

(** [removePerson]: the new schedule ([setSchedule]) and roster
    ([setPeople]). *)
Definition removePerson (schedule : list Week) (people : list Person) (idToRemove : Z)
    : list Week * list Person :=
  (map (fun week =>
          match assignedTo week with
          | AId n =>
              if (n =? idToRemove)%Z
              then mkWeek (startDate week) (endDate week) ANull (hasHoliday week)
                     (isHolidayPeriod week) (notes week)
              else week
          | _ => week
          end) schedule,
   List.filter (fun person => negb (pid person =? idToRemove)%Z) people).

(** [updatePersonName] *)
Definition updatePersonName (people : list Person) (idToUpdate : Z) (newName : jstr) : list Person :=
  map (fun p => if (pid p =? idToUpdate)%Z then mkPerson (pid p) (trim newName) (leave p) else p) people.

(** [addLeave]: the new roster.  [start > end] compares the two time
    values; an Invalid Date (NaN) makes it false.  The alerts and the
    reset of the form are not part of the result. *)
Definition addLeave (people : list Person) (selectedPersonIdForLeave : option Z)
    (leaveDate leaveEndDate : jstr) : list Person :=
  match selectedPersonIdForLeave with
  | None => people
  | Some sel =>
      if jeqb leaveDate [] || jeqb leaveEndDate [] then people
      else
        let startAfterEnd :=
          match parseUTCMidnight leaveDate, parseUTCMidnight leaveEndDate with
          | Some s, Some e => (e <? s)%Z
          | _, _ => false
          end in
        if startAfterEnd then people
        else
          map (fun person =>
                 if (pid person =? sel)%Z then
                   let currentLeave := leave person in
                   if existsb (fun l => jeqb (lstart l) leaveDate && jeqb (lend l) leaveEndDate) currentLeave
                   then person
                   else mkPerson (pid person) (pname person) (currentLeave ++ [mkLeave leaveDate leaveEndDate])
                 else person) people
  end.

(** [removeLeave]; [newLeave.splice(leaveIndex, 1)] inside the bounds. *)
Definition removeLeave (people : list Person) (personId leaveIndex : Z) : list Person :=
  map (fun person =>
         if (pid person =? personId)%Z then
           let newLeave := leave person in
           let newLeave :=
             if (0 <=? leaveIndex)%Z && (leaveIndex <? Z.of_nat (length newLeave))%Z
             then take (Z.to_nat leaveIndex) newLeave ++ drop (S (Z.to_nat leaveIndex)) newLeave
             else newLeave in
           mkPerson (pid person) (pname person) newLeave
         else person) people.

(** The longest prefix of decimal digits *)
Fixpoint digit_prefix (s : jstr) : jstr :=
  match s with
  | c :: r => match digit_val c with Some _ => c :: digit_prefix r | None => [] end
  | [] => []
  end.

(** [parseInt(s, 10)]; [None] is NaN. *)
Definition parseInt10 (s : jstr) : option Z :=
  let s := trim_start s in
  let '(sign, s) :=
    match s with
    | c :: r => if ascii_dec c "-"%char then ((-1)%Z, r)
                else if ascii_dec c "+"%char then (1%Z, r) else (1%Z, s)
    | [] => (1%Z, s)
    end in
  match digit_prefix s with
  | [] => None
  | ds => option_map (Z.mul sign) (digits_val 0 ds)
  end.

(** [handleWeekAssignmentChange]: the new schedule.  [None] stands for
    storing NaN (a non-empty value that [parseInt] cannot read), which the
    select, offering the empty value and the roster ids, never produces. *)
Definition handleWeekAssignmentChange (schedule : list Week) (index : Z) (personIdStr : jstr)
    : option (list Week) :=
  if (0 <=? index)%Z && (index <? Z.of_nat (length schedule))%Z then
    match schedule !! Z.to_nat index with
    | None => Some schedule
    | Some week =>
        let personId := if jeqb personIdStr [] then Some ANull
                        else option_map AId (parseInt10 personIdStr) in
        if isHolidayPeriod week then Some schedule
        else
          match personId with
          | None => None
          | Some a =>
              Some (<[Z.to_nat index := mkWeek (startDate week) (endDate week) a
                                          (hasHoliday week) (isHolidayPeriod week) (notes week)]> schedule)
          end
    end
  else Some schedule.

(** [saveNotes]: the new schedule. *)
Definition saveNotes (schedule : list Week) (currentWeekIndexForNotes : option Z) (currentNotes : jstr)
    : list Week :=
  match currentWeekIndexForNotes with
  | Some i =>
      if (0 <=? i)%Z && (i <? Z.of_nat (length schedule))%Z then
        match schedule !! Z.to_nat i with
        | Some week =>
            <[Z.to_nat i := mkWeek (startDate week) (endDate week) (assignedTo week)
                              (hasHoliday week) (isHolidayPeriod week) (trim currentNotes)]> schedule
        | None => schedule
        end
      else schedule
  | None => schedule
  end.

(** [handleTitleSave]: the new [appTitle]. *)
Definition handleTitleSave (appTitle tempTitle : jstr) : jstr :=
  let trimmedTitle := trim tempTitle in
  if jeqb trimmedTitle [] then appTitle else trimmedTitle.

(** The same text with every line feed preceded by a carriage return
    (Windows line ends). *)
Fixpoint crlf (s : jstr) : jstr :=
  match s with
  | [] => []
  | c :: r => if Ascii.eqb c NL then CR :: NL :: crlf r else c :: crlf r
  end.


(** Helpers of the handler properties. *)

Definition unassign_week (idToRemove : Z) (week : Week) : Week :=
  match assignedTo week with
  | AId n =>
      if (n =? idToRemove)%Z
      then mkWeek (startDate week) (endDate week) ANull (hasHoliday week) (isHolidayPeriod week) (notes week)
      else week
  | _ => week
  end.

Definition leave_present (l : list Leave) (ld le : jstr) : bool :=
  existsb (fun x => jeqb (lstart x) ld && jeqb (lend x) le) l.

Definition start_after_end (ld le : jstr) : Prop :=
  exists s e, parseUTCMidnight ld = Some s /\ parseUTCMidnight le = Some e /\ (e < s)%Z.

Definition add_leave_to (sel : Z) (ld le : jstr) (person : Person) : Person :=
  if (pid person =? sel)%Z then
    if leave_present (leave person) ld le then person
    else mkPerson (pid person) (pname person) (leave person ++ [mkLeave ld le])
  else person.

Definition cnt_proj (c : Cnt) : nat * nat := (total c, holiday c).


(** Helpers of the round-trip argument. [chr k] is the character
    [digits_aux] writes for the digit [k]. *)
Definition chr (k : Z) : ascii := ascii_of_nat (48 + Z.to_nat k).

(** A field with its double quotes dropped, as [parse_row] reads it. *)
Definition removeq (f : jstr) : jstr := List.filter (fun c => negb (Ascii.eqb c QUOTE)) f.

(** The week that [decode_row] rebuilds from the row [csv_row] wrote for [w]. *)
Definition round_trip_week tz people hol (w : Week) : Week :=
  mkWeek (startDate w) (endDate w)
    (if isWeekInHolidayPeriod (startDate w) (endDate w) (YearFromDay (startDate w))
     then AStr HOLIDAY_PERIOD
     else getPersonIdFromName people (getPersonName people (assignedTo w)))
    (weekContainsHoliday tz (startDate w) (endDate w) hol)
    (isWeekInHolidayPeriod (startDate w) (endDate w) (YearFromDay (startDate w)))
    (notes w).

(* ================================================================== *)
(** * Properties *)

(* ------------------------------------------------------------------ *)
(** ** Calendar facts *)

Section CalendarFacts.
Local Open Scope Z_scope.

Lemma MonthFromDay_range d : 0 <= MonthFromDay d <= 11.
Proof. unfold MonthFromDay. repeat destruct (_ <? _); lia. Qed.

Lemma MakeDay_parts d k :
  MakeDay (YearFromDay d) (MonthFromDay d) (DateFromDay d + k) = d + k.
Proof.
  pose proof (MonthFromDay_range d) as Hm.
  unfold MakeDay, DateFromDay, DayWithinYear, InLeapYear, LeapOfYear.
  rewrite (Z.div_small (MonthFromDay d) 12) by lia.
  rewrite (Z.mod_small (MonthFromDay d) 12) by lia.
  rewrite Z.add_0_r. lia.
Qed.

Lemma addDays_spec d k : addDays d k = d + k.
Proof. apply MakeDay_parts. Qed.

End CalendarFacts.

(* ------------------------------------------------------------------ *)
(** ** The generation loop *)

Lemma week_loop_spec fuel tz hol year date i w :
  week_loop fuel tz hol year date !! i = Some w ->
  startDate w = (date + 7 * Z.of_nat i)%Z
  /\ endDate w = (startDate w + 6)%Z
  /\ YearFromDay (startDate w) = year
  /\ isHolidayPeriod w = isWeekInHolidayPeriod (startDate w) (endDate w) year
  /\ assignedTo w = (if isHolidayPeriod w then AStr HOLIDAY_PERIOD else ANull).
Proof.
  revert date i. induction fuel as [|f IH]; intros date i H; simpl in H.
  - discriminate.
  - destruct (YearFromDay date =? year)%Z eqn:E; [|discriminate].
    apply Z.eqb_eq in E.
    destruct i as [|i]; simpl in H.
    + injection H as <-; simpl. rewrite addDays_spec.
      repeat split; try lia; reflexivity.
    + apply IH in H. rewrite addDays_spec in H.
      destruct H as (H1 & H2 & H3 & H4 & H5).
      repeat split; auto; lia.
Qed.

(* ------------------------------------------------------------------ *)
(** ** The assignment loop *)

Lemma assign_week_fields tz people hol c n w :
  startDate (fst (assign_week tz people hol c n w)) = startDate w
  /\ endDate (fst (assign_week tz people hol c n w)) = endDate w
  /\ isHolidayPeriod (fst (assign_week tz people hol c n w)) = isHolidayPeriod w
  /\ notes (fst (assign_week tz people hol c n w)) = notes w
  /\ (isHolidayPeriod w = true -> assign_week tz people hol c n w = (w, c)).
Proof.
  unfold assign_week. destruct (isHolidayPeriod w) eqn:E.
  - repeat split; auto.
  - destruct (sort_by _ _); simpl; repeat split; auto; congruence.
Qed.

Lemma assign_loop_lookup tz people hol ws : forall c n k w,
  ws !! k = Some w ->
  fst (assign_loop tz people hol c n ws) !! k =
  Some (fst (assign_week tz people hol (snd (assign_loop tz people hol c n (take k ws))) (n + k) w)).
Proof.
  induction ws as [|w0 ws IH]; intros c n k w H; [discriminate|].
  simpl. destruct (assign_week tz people hol c n w0) as [w0' c'] eqn:Ew.
  destruct (assign_loop tz people hol c' (S n) ws) as [ws'' c''] eqn:El.
  destruct k as [|k]; simpl in H |- *.
  - injection H as <-. rewrite Nat.add_0_r, Ew. reflexivity.
  - specialize (IH c' (S n) k w H). rewrite El in IH. simpl in IH. rewrite IH.
    rewrite Ew. destruct (assign_loop tz people hol c' (S n) (take k ws)).
    simpl. do 3 f_equal. lia.
Qed.

Lemma assign_loop_snd_app tz people hol l : forall c n w,
  snd (assign_loop tz people hol c n (l ++ [w])) =
  snd (assign_week tz people hol (snd (assign_loop tz people hol c n l)) (n + length l) w).
Proof.
  induction l as [|w0 l IH]; intros c n w; simpl.
  - destruct (assign_week tz people hol c n w) eqn:E. rewrite Nat.add_0_r, E. reflexivity.
  - destruct (assign_week tz people hol c n w0) as [w0' c'] eqn:Ew.
    specialize (IH c' (S n) w).
    destruct (assign_loop tz people hol c' (S n) (l ++ [w])) eqn:E1.
    destruct (assign_loop tz people hol c' (S n) l) eqn:E2. simpl in *.
    rewrite IH. do 2 f_equal. lia.
Qed.

Lemma assign_loop_length tz people hol ws : forall c n,
  length (fst (assign_loop tz people hol c n ws)) = length ws.
Proof.
  induction ws as [|w0 ws IH]; intros c n; simpl; [reflexivity|].
  destruct (assign_week tz people hol c n w0) as [w0' c'].
  specialize (IH c' (S n)). destruct (assign_loop tz people hol c' (S n) ws). simpl in *. lia.
Qed.

Lemma assign_loop_lookup_inv tz people hol ws c n k w' :
  fst (assign_loop tz people hol c n ws) !! k = Some w' ->
  exists w, ws !! k = Some w /\
    w' = fst (assign_week tz people hol (snd (assign_loop tz people hol c n (take k ws))) (n + k) w).
Proof.
  intros H.
  destruct (ws !! k) as [w|] eqn:Hw.
  - exists w. split; [reflexivity|].
    rewrite (assign_loop_lookup tz people hol ws c n k w Hw) in H. congruence.
  - apply lookup_ge_None in Hw. apply lookup_lt_Some in H.
    rewrite assign_loop_length in H. lia.
Qed.

Lemma generateSchedule_fst tz people hol year startMonth startDayOfWeek :
  fst (generateSchedule tz people hol year startMonth startDayOfWeek) =
  fst (assign_loop tz people hol (initCounts people) 0 (generateWeeks tz hol year startMonth startDayOfWeek)).
Proof.
  unfold generateSchedule, assignPeopleToWeeks.
  destruct (assign_loop _ _ _ _ _ _). reflexivity.
Qed.

(** Every week of the final schedule is the week the generation loop built
    at the same position, after its round of assignment. *)
Lemma generateSchedule_lookup tz people hol year startMonth startDayOfWeek i w :
  fst (generateSchedule tz people hol year startMonth startDayOfWeek) !! i = Some w ->
  exists g c, generateWeeks tz hol year startMonth startDayOfWeek !! i = Some g
    /\ w = fst (assign_week tz people hol c i g).
Proof.
  rewrite generateSchedule_fst. intros H.
  apply assign_loop_lookup_inv in H as (g & Hg & ->). eauto.
Qed.


Lemma generateWeeks_eq tz hol year startMonth startDayOfWeek :
  generateWeeks tz hol year startMonth startDayOfWeek =
  week_loop 60 tz hol year (firstWeekStart year startMonth startDayOfWeek).
Proof. reflexivity. Qed.
(* ------------------------------------------------------------------ *)
(** ** Schedule generator *)

(** Claim C3: in the schedule generated for [year] (any start month and
    start weekday), every week ends six days after it starts, its start
    date lies in [year], and the next week starts exactly seven days
    after it: start dates strictly increase, with neither gaps nor
    overlaps. *)
Theorem generateSchedule_contiguous_weeks tz people hol year startMonth startDayOfWeek i w :
  fst (generateSchedule tz people hol year startMonth startDayOfWeek) !! i = Some w ->
  endDate w = (startDate w + 6)%Z
  /\ YearFromDay (startDate w) = year
  /\ (forall w2, fst (generateSchedule tz people hol year startMonth startDayOfWeek) !! S i = Some w2 ->
        startDate w2 = (startDate w + 7)%Z).
Proof.
  intros H.
  destruct (generateSchedule_lookup _ _ _ _ _ _ _ _ H) as (g & c & Hg & ->).
  destruct (assign_week_fields tz people hol c i g) as (Hs & He & _).
  rewrite generateWeeks_eq in Hg. apply week_loop_spec in Hg as (Hg1 & Hg2 & Hg3 & _).
  rewrite Hs, He. split; [exact Hg2|]. split; [exact Hg3|].
  intros w2 H2.
  destruct (generateSchedule_lookup _ _ _ _ _ _ _ _ H2) as (g2 & c2 & Hg' & ->).
  destruct (assign_week_fields tz people hol c2 (S i) g2) as (Hs2 & _).
  rewrite generateWeeks_eq in Hg'. apply week_loop_spec in Hg' as (Hg1' & _).
  rewrite Hs2, Hg1', Hg1. lia.
Qed.

Lemma generateSchedule_contiguous_weeks_witness :
  fst (generateSchedule 0 [mkPerson 1 [] []] [] 2025 0 2) !! 0 = Some (mkWeek 20095 20101 (AId 1) false false [])
  /\ (endDate (mkWeek 20095 20101 (AId 1) false false []) = (startDate (mkWeek 20095 20101 (AId 1) false false []) + 6)%Z
     /\ YearFromDay (startDate (mkWeek 20095 20101 (AId 1) false false [])) = 2025%Z
     /\ (forall w2, fst (generateSchedule 0 [mkPerson 1 [] []] [] 2025 0 2) !! 1 = Some w2 ->
           startDate w2 = (startDate (mkWeek 20095 20101 (AId 1) false false []) + 7)%Z)).
Proof.
  assert (H : fst (generateSchedule 0 [mkPerson 1 [] []] [] 2025 0 2) !! 0 = Some (mkWeek 20095 20101 (AId 1) false false []))
    by (vm_compute; reflexivity).
  split; [exact H|].
  exact (generateSchedule_contiguous_weeks 0 [mkPerson 1 [] []] [] 2025 0 2 0 _ H).
Defined.

(* ------------------------------------------------------------------ *)
(** ** Holiday period (blackout) weeks *)

(** Claim C4: a week of the generated schedule is flagged
    [isHolidayPeriod] exactly when [weekStart <= blackoutEnd] and
    [weekEnd >= blackoutStart], where the blackout runs from the Monday
    before Dec 25 of [year] to the Friday after Jan 1 of [year + 1]; a
    flagged week carries the "Holiday Period" sentinel, never a person. *)
Theorem generateSchedule_blackout tz people hol year startMonth startDayOfWeek i w :
  fst (generateSchedule tz people hol year startMonth startDayOfWeek) !! i = Some w ->
  (isHolidayPeriod w = true <->
     (startDate w <= getFridayAfter (DateUTC (year + 1) 0 1)
      /\ endDate w >= getMondayBefore (DateUTC year 11 25))%Z)
  /\ (isHolidayPeriod w = true -> assignedTo w = AStr HOLIDAY_PERIOD).
Proof.
  intros H.
  destruct (generateSchedule_lookup _ _ _ _ _ _ _ _ H) as (g & c & Hg & ->).
  destruct (assign_week_fields tz people hol c i g) as (Hs & He & Hh & _ & Hfix).
  rewrite generateWeeks_eq in Hg. apply week_loop_spec in Hg as (_ & _ & _ & Hg4 & Hg5).
  rewrite Hs, He, Hh, Hg4. split.
  - unfold isWeekInHolidayPeriod, getHolidayPeriod.
    rewrite andb_true_iff, !Z.leb_le. lia.
  - intros Hp. rewrite <- Hg4 in Hp. rewrite (Hfix Hp). simpl. rewrite Hg5, Hp. reflexivity.
Qed.

Lemma generateSchedule_blackout_witness :
  fst (generateSchedule 0 [mkPerson 1 [] []] [] 2025 0 2) !! 49 = Some (mkWeek 20438 20444 (AStr HOLIDAY_PERIOD) false true [])
  /\ ((isHolidayPeriod (mkWeek 20438 20444 (AStr HOLIDAY_PERIOD) false true []) = true <->
       (startDate (mkWeek 20438 20444 (AStr HOLIDAY_PERIOD) false true []) <= getFridayAfter (DateUTC (2025 + 1) 0 1)
        /\ endDate (mkWeek 20438 20444 (AStr HOLIDAY_PERIOD) false true []) >= getMondayBefore (DateUTC 2025 11 25))%Z)
      /\ (isHolidayPeriod (mkWeek 20438 20444 (AStr HOLIDAY_PERIOD) false true []) = true ->
          assignedTo (mkWeek 20438 20444 (AStr HOLIDAY_PERIOD) false true []) = AStr HOLIDAY_PERIOD)).
Proof.
  assert (H : fst (generateSchedule 0 [mkPerson 1 [] []] [] 2025 0 2) !! 49 =
              Some (mkWeek 20438 20444 (AStr HOLIDAY_PERIOD) false true []))
    by (vm_compute; reflexivity).
  split; [exact H|].
  exact (generateSchedule_blackout 0 [mkPerson 1 [] []] [] 2025 0 2 49 _ H).
Defined.

(* ------------------------------------------------------------------ *)
(** ** The head of a stable sort is the first minimal element *)

Section SortHead.
Context {A : Type} (cmp : A -> A -> comparison).
Hypothesis cmp_gt_lt : forall a b, cmp a b = Gt <-> cmp b a = Lt.
Hypothesis cmp_le_trans : forall a b c, cmp a b <> Gt -> cmp b c <> Gt -> cmp a c <> Gt.

Lemma insert_by_not_nil x l : insert_by cmp x l <> [].
Proof. destruct l; simpl; [discriminate|]. destruct (cmp x a); discriminate. Qed.

Lemma sort_by_nil l : sort_by cmp l = [] -> l = [].
Proof. destruct l; simpl; [auto|]. intros H. exfalso. exact (insert_by_not_nil _ _ H). Qed.

Lemma sort_by_head l p r :
  sort_by cmp l = p :: r ->
  exists pre post, l = pre ++ p :: post
    /\ Forall (fun q => cmp p q = Lt) pre
    /\ Forall (fun q => cmp p q <> Gt) post.
Proof.
  revert p r. induction l as [|x l IH]; intros p r H; simpl in H; [discriminate|].
  destruct (sort_by cmp l) as [|h r'] eqn:Es.
  - simpl in H. injection H as <- <-. apply sort_by_nil in Es as ->.
    exists [], []. simpl. auto.
  - destruct (IH h r' eq_refl) as (pre & post & Hl & Hpre & Hpost).
    simpl in H. destruct (cmp x h) eqn:Cxh.
    + injection H as <- _. exists [], l. split; [reflexivity|]. split; [constructor|].
      rewrite Hl. apply Forall_app. split.
      * eapply Forall_impl; [exact Hpre|]. intros q Hq.
        apply (cmp_le_trans _ h); [congruence|congruence].
      * constructor; [congruence|].
        eapply Forall_impl; [exact Hpost|]. intros q Hq.
        apply (cmp_le_trans _ h); [congruence|exact Hq].
    + injection H as <- _. exists [], l. split; [reflexivity|]. split; [constructor|].
      rewrite Hl. apply Forall_app. split.
      * eapply Forall_impl; [exact Hpre|]. intros q Hq.
        apply (cmp_le_trans _ h); [congruence|congruence].
      * constructor; [congruence|].
        eapply Forall_impl; [exact Hpost|]. intros q Hq.
        apply (cmp_le_trans _ h); [congruence|exact Hq].
    + injection H as <- _. exists (x :: pre), post. rewrite Hl. split; [reflexivity|].
      split; [|exact Hpost]. constructor; [apply cmp_gt_lt; exact Cxh|exact Hpre].
Qed.

End SortHead.

(* ------------------------------------------------------------------ *)
(** ** The comparator is the lexicographic order on the load keys *)

(** The order the selection rule is stated in: fewer duties, then fewer
    holiday duties, then an older (or no) last assignment. *)
Definition last_lt (a b : option nat) : Prop :=
  match a, b with
  | None, Some _ => True
  | Some x, Some y => x < y
  | _, _ => False
  end.

Definition lex_lt (a b : Cnt) : Prop :=
  total a < total b
  \/ (total a = total b
      /\ (holiday a < holiday b
          \/ (holiday a = holiday b /\ last_lt (lastAssigned a) (lastAssigned b)))).

Lemma cmp_counts_lt a b : cmp_counts a b = Lt <-> lex_lt a b.
Proof.
  destruct a as [ta ha la], b as [tb hb lb]. unfold cmp_counts, lex_lt; simpl.
  destruct (Nat.eqb_spec ta tb) as [Et|Et]; simpl.
  - destruct (Nat.eqb_spec ha hb) as [Eh|Eh]; simpl.
    + destruct la as [x|], lb as [y|]; simpl;
        rewrite ?Nat.compare_lt_iff; split; intros; try lia; try discriminate; tauto.
    + rewrite Nat.compare_lt_iff. lia.
  - rewrite Nat.compare_lt_iff. lia.
Qed.

Lemma cmp_counts_gt a b : cmp_counts a b = Gt <-> lex_lt b a.
Proof.
  destruct a as [ta ha la], b as [tb hb lb]. unfold cmp_counts, lex_lt; simpl.
  destruct (Nat.eqb_spec ta tb) as [Et|Et]; simpl.
  - destruct (Nat.eqb_spec ha hb) as [Eh|Eh]; simpl.
    + destruct la as [x|], lb as [y|]; simpl;
        rewrite ?Nat.compare_gt_iff; split; intros; try lia; try discriminate; tauto.
    + rewrite Nat.compare_gt_iff. lia.
  - rewrite Nat.compare_gt_iff. lia.
Qed.

Lemma lex_lt_not_trans a b c : ~ lex_lt b a -> ~ lex_lt c b -> ~ lex_lt c a.
Proof.
  destruct a as [ta ha la], b as [tb hb lb], c as [tc hc lc]. unfold lex_lt; simpl.
  destruct la, lb, lc; simpl; lia.
Qed.

Lemma cmp_counts_on_gt_lt {B} (key : B -> Cnt) a b :
  cmp_counts (key a) (key b) = Gt <-> cmp_counts (key b) (key a) = Lt.
Proof. rewrite cmp_counts_gt, cmp_counts_lt. reflexivity. Qed.

Lemma cmp_counts_on_le_trans {B} (key : B -> Cnt) a b c :
  cmp_counts (key a) (key b) <> Gt -> cmp_counts (key b) (key c) <> Gt ->
  cmp_counts (key a) (key c) <> Gt.
Proof. rewrite !cmp_counts_gt. apply lex_lt_not_trans. Qed.

Lemma assignPeopleToWeeks_fst tz people ws hol :
  fst (assignPeopleToWeeks tz people ws hol) =
  fst (assign_loop tz people hol (initCounts people) 0 ws).
Proof. unfold assignPeopleToWeeks. destruct (assign_loop _ _ _ _ _ _). reflexivity. Qed.

(* ------------------------------------------------------------------ *)
(** ** Fair assignment *)

(** Claim C1: when the weeks are processed in order and week [k] is not a
    holiday-period week and has available (not on leave) people, it is
    given to the available person [p] that is least in the lexicographic
    order (total so far, holiday duties so far, last-assigned index with
    "never" least), the first such person in roster order: everyone
    before [p] is strictly greater, no one after [p] is smaller.  Then
    [p]'s total goes up by one, the holiday count goes up by one exactly
    when the week has a holiday, and the last-assigned index becomes [k]. *)
Theorem assignPeopleToWeeks_fair_choice tz people hol ws k w :
  ws !! k = Some w ->
  isHolidayPeriod w = false ->
  availablePeople tz people w <> [] ->
  let counts := snd (assign_loop tz people hol (initCounts people) 0 (take k ws)) in
  let h := weekContainsHoliday tz (startDate w) (endDate w) hol in
  exists pre p post,
    availablePeople tz people w = pre ++ p :: post
    /\ Forall (fun q => lex_lt (cnt_of counts (pid p)) (cnt_of counts (pid q))) pre
    /\ Forall (fun q => ~ lex_lt (cnt_of counts (pid q)) (cnt_of counts (pid p))) post
    /\ fst (assignPeopleToWeeks tz people ws hol) !! k =
         Some (mkWeek (startDate w) (endDate w) (AId (pid p)) h false (notes w))
    /\ snd (assign_loop tz people hol (initCounts people) 0 (take (S k) ws)) =
         <[pid p := mkCnt (S (total (cnt_of counts (pid p))))
                          (if h then S (holiday (cnt_of counts (pid p)))
                           else holiday (cnt_of counts (pid p)))
                          (Some k)]> counts.
Proof.
  intros Hk Hhp Hav counts h.
  rewrite assignPeopleToWeeks_fst, (assign_loop_lookup _ _ _ _ _ _ _ _ Hk).
  rewrite (take_S_r _ _ _ Hk), assign_loop_snd_app.
  rewrite length_take_le by (apply lookup_lt_Some in Hk; lia).
  fold counts. simpl.
  unfold assign_week. rewrite Hhp. fold (availablePeople tz people w).
  set (cmpf := fun a b => cmp_counts (cnt_of counts (pid a)) (cnt_of counts (pid b))).
  destruct (sort_by cmpf (availablePeople tz people w)) as [|p r] eqn:Es.
  - apply sort_by_nil in Es. contradiction.
  - apply sort_by_head in Es as (pre & post & Hl & Hpre & Hpost);
      [| intros; apply cmp_counts_on_gt_lt | intros a b c; apply cmp_counts_on_le_trans].
    exists pre, p, post. split; [exact Hl|]. split; [|split; [|split]].
    + eapply Forall_impl; [exact Hpre|]. intros q Hq. apply cmp_counts_lt. exact Hq.
    + eapply Forall_impl; [exact Hpost|]. intros q Hq. rewrite <- cmp_counts_gt. exact Hq.
    + reflexivity.
    + simpl. fold h. destruct h; reflexivity.
Qed.

Lemma assignPeopleToWeeks_fair_choice_witness :
  (generateWeeks 0 [] 2025 0 2) !! 3 = Some (mkWeek 20116 20122 ANull false false [])
  /\ isHolidayPeriod (mkWeek 20116 20122 ANull false false []) = false
  /\ availablePeople 0 [mkPerson 1 [] []; mkPerson 2 [] []; mkPerson 3 [] []] (mkWeek 20116 20122 ANull false false []) <> []
  /\ (let counts := snd (assign_loop 0 [mkPerson 1 [] []; mkPerson 2 [] []; mkPerson 3 [] []] [] (initCounts [mkPerson 1 [] []; mkPerson 2 [] []; mkPerson 3 [] []]) 0 (take 3 (generateWeeks 0 [] 2025 0 2))) in
  let h := weekContainsHoliday 0 (startDate (mkWeek 20116 20122 ANull false false [])) (endDate (mkWeek 20116 20122 ANull false false [])) [] in
  exists pre p post,
    availablePeople 0 [mkPerson 1 [] []; mkPerson 2 [] []; mkPerson 3 [] []] (mkWeek 20116 20122 ANull false false []) = pre ++ p :: post
    /\ Forall (fun q => lex_lt (cnt_of counts (pid p)) (cnt_of counts (pid q))) pre
    /\ Forall (fun q => ~ lex_lt (cnt_of counts (pid q)) (cnt_of counts (pid p))) post
    /\ fst (assignPeopleToWeeks 0 [mkPerson 1 [] []; mkPerson 2 [] []; mkPerson 3 [] []] (generateWeeks 0 [] 2025 0 2) []) !! 3 =
         Some (mkWeek (startDate (mkWeek 20116 20122 ANull false false [])) (endDate (mkWeek 20116 20122 ANull false false [])) (AId (pid p)) h false (notes (mkWeek 20116 20122 ANull false false [])))
    /\ snd (assign_loop 0 [mkPerson 1 [] []; mkPerson 2 [] []; mkPerson 3 [] []] [] (initCounts [mkPerson 1 [] []; mkPerson 2 [] []; mkPerson 3 [] []]) 0 (take (S 3) (generateWeeks 0 [] 2025 0 2))) =
         <[pid p := mkCnt (S (total (cnt_of counts (pid p))))
                          (if h then S (holiday (cnt_of counts (pid p)))
                           else holiday (cnt_of counts (pid p)))
                          (Some 3)]> counts).
Proof.
  assert (H1 : (generateWeeks 0 [] 2025 0 2) !! 3 = Some (mkWeek 20116 20122 ANull false false [])) by (vm_compute; reflexivity).
  assert (H3 : availablePeople 0 [mkPerson 1 [] []; mkPerson 2 [] []; mkPerson 3 [] []] (mkWeek 20116 20122 ANull false false []) <> []) by (vm_compute; discriminate).
  split; [exact H1|]. split; [reflexivity|]. split; [exact H3|].
  exact (assignPeopleToWeeks_fair_choice 0 [mkPerson 1 [] []; mkPerson 2 [] []; mkPerson 3 [] []] [] (generateWeeks 0 [] 2025 0 2) 3 (mkWeek 20116 20122 ANull false false []) H1 eq_refl H3).
Defined.

(* ------------------------------------------------------------------ *)
(** ** YearFromTime is the year of the day *)

Section YearFacts.
Local Open Scope Z_scope.

Lemma DayFromYear_bounds y : -506 <= 400 * DayFromYear y - 146097 * (y - 1970) <= 589.
Proof. unfold DayFromYear. Z.div_mod_to_equations. lia. Qed.

Lemma DayFromYear_mono a b : a <= b -> DayFromYear a <= DayFromYear b.
Proof. unfold DayFromYear. intros. Z.div_mod_to_equations. lia. Qed.

Lemma YearFromDay_spec d : DayFromYear (YearFromDay d) <= d < DayFromYear (YearFromDay d + 1).
Proof.
  unfold YearFromDay. cbv zeta.
  set (q := 400 * d / 146097).
  assert (Hq : 146097 * q <= 400 * d < 146097 * q + 146097)
    by (subst q; Z.div_mod_to_equations; lia).
  pose proof (DayFromYear_bounds (1970 + q - 1)).
  pose proof (DayFromYear_bounds (1970 + q)).
  pose proof (DayFromYear_bounds (1970 + q + 1)).
  pose proof (DayFromYear_bounds (1970 + q + 1 + 1)).
  destruct (DayFromYear (1970 + q + 1) <=? d) eqn:E1;
    [apply Z.leb_le in E1; lia | apply Z.leb_gt in E1].
  destruct (DayFromYear (1970 + q) <=? d) eqn:E2;
    [apply Z.leb_le in E2; lia | apply Z.leb_gt in E2].
  replace (1970 + q - 1 + 1) with (1970 + q) by lia. lia.
Qed.

Lemma YearFromDay_mono d1 d2 : d1 <= d2 -> YearFromDay d1 <= YearFromDay d2.
Proof.
  intros H. pose proof (YearFromDay_spec d1). pose proof (YearFromDay_spec d2).
  destruct (Z_le_gt_dec (YearFromDay d1) (YearFromDay d2)) as [|Hgt]; [assumption|].
  pose proof (DayFromYear_mono (YearFromDay d2 + 1) (YearFromDay d1) ltac:(lia)). lia.
Qed.

(** At or east of UTC, the local calendar date of a UTC midnight is that
    day (outside the years 0..99 that [Date.UTC] reinterprets). *)
Lemma localMidnightUTC_east tz d :
  0 <= tz < 1440 -> ~ (0 <= YearFromDay d <= 99) -> localMidnightUTC tz d = d.
Proof.
  intros Htz Hy. unfold localMidnightUTC.
  rewrite Z.div_add_l by lia. rewrite (Z.div_small tz 1440) by lia. rewrite Z.add_0_r.
  unfold DateUTC.
  destruct ((0 <=? YearFromDay d) && (YearFromDay d <=? 99)) eqn:E.
  - apply andb_true_iff in E as [E1 E2]. apply Z.leb_le in E1, E2. lia.
  - pose proof (MakeDay_parts d 0) as H. rewrite !Z.add_0_r in H. exact H.
Qed.

(** West of UTC, it is the day before. *)
Lemma localMidnightUTC_west tz d :
  -1440 <= tz < 0 -> ~ (0 <= YearFromDay (d - 1) <= 99) -> localMidnightUTC tz d = d - 1.
Proof.
  intros Htz Hy. unfold localMidnightUTC.
  replace ((d * 1440 + tz) / 1440) with (d - 1) by (Z.div_mod_to_equations; lia).
  unfold DateUTC.
  destruct ((0 <=? YearFromDay (d - 1)) && (YearFromDay (d - 1) <=? 99)) eqn:E.
  - apply andb_true_iff in E as [E1 E2]. apply Z.leb_le in E1, E2. lia.
  - pose proof (MakeDay_parts (d - 1) 0) as H. rewrite !Z.add_0_r in H. exact H.
Qed.

End YearFacts.

(* ------------------------------------------------------------------ *)
(** ** Leave *)

Lemma assign_week_assigned_available tz people hol c n g id :
  (isHolidayPeriod g = true -> assignedTo g <> AId id) ->
  assignedTo (fst (assign_week tz people hol c n g)) = AId id ->
  exists p, p ∈ availablePeople tz people g /\ pid p = id.
Proof.
  intros Hg H. unfold assign_week in H. destruct (isHolidayPeriod g) eqn:E.
  - simpl in H. exfalso. exact (Hg eq_refl H).
  - destruct (sort_by _ (availablePeople tz people g)) as [|p r] eqn:Es;
      simpl in H; [discriminate|].
    injection H as <-.
    apply sort_by_head in Es as (pre & post & Hl & _ & _);
      [| intros; apply cmp_counts_on_gt_lt | intros a b c'; apply cmp_counts_on_le_trans].
    exists p. split; [rewrite Hl; set_solver | reflexivity].
Qed.

(** At or east of UTC the leave check does what it says: a person the
    generated schedule assigns to a week has no leave interval overlapping
    any day of that week. *)
Lemma generateSchedule_respects_leave_east tz people hol year startMonth startDayOfWeek i w id person :
  (0 <= tz < 1440)%Z -> (100 <= year)%Z ->
  fst (generateSchedule tz people hol year startMonth startDayOfWeek) !! i = Some w ->
  assignedTo w = AId id ->
  find (fun p => (pid p =? id)%Z) people = Some person ->
  Forall (fun l => forall a b,
      parseUTCMidnight (lstart l) = Some a -> parseUTCMidnight (lend l) = Some b ->
      ~ (a <= endDate w /\ startDate w <= b)%Z) (leave person).
Proof.
  intros Htz Hy H Ha Hf.
  destruct (generateSchedule_lookup _ _ _ _ _ _ _ _ H) as (g & c & Hg & ->).
  destruct (assign_week_fields tz people hol c i g) as (Hs & He & _).
  rewrite generateWeeks_eq in Hg.
  apply week_loop_spec in Hg as (_ & Hg2 & Hg3 & _ & Hg5).
  destruct (assign_week_assigned_available tz people hol c i g id) as (p & Hp & <-);
    [ intros _; rewrite Hg5; destruct (isHolidayPeriod g); discriminate | exact Ha | ].
  apply list_elem_of_filter in Hp as [Hp _].
  unfold isPersonOnLeave in Hp. rewrite Hf in Hp.
  assert (Hys : YearFromDay (startDate g) = year) by exact Hg3.
  assert (Hye : (year <= YearFromDay (endDate g))%Z)
    by (rewrite <- Hys; apply YearFromDay_mono; lia).
  rewrite (localMidnightUTC_east tz (startDate g)), (localMidnightUTC_east tz (endDate g)) in Hp
    by lia.
  rewrite Hs, He. apply Forall_forall. intros l Hl a b Ha' Hb' [H1 H2].
  apply Is_true_true_1, negb_true_iff in Hp.
  assert (Hex : existsb (fun l0 =>
            match parseUTCMidnight (lstart l0), parseUTCMidnight (lend l0) with
            | Some leaveStart, Some leaveEnd =>
                (leaveStart <=? endDate g)%Z && (startDate g <=? leaveEnd)%Z
            | _, _ => false
            end) (leave person) = true).
  { apply existsb_exists. exists l. split; [apply list_elem_of_In; exact Hl|].
    rewrite Ha', Hb'. apply andb_true_iff. split; apply Z.leb_le; lia. }
  congruence.
Qed.

(** Claim C2 (failing input).  A host at UTC-5 (US Eastern standard time)
    runs the default settings (2025, January, Tuesday) with one person on
    leave on 2025-01-13, the last day of the first week
    [2025-01-07, 2025-01-13].  The person is still assigned that week,
    because the leave check compares the leave with the week's local
    dates [2025-01-06, 2025-01-12].  In a UTC host the same input leaves
    the week with "No one available". *)
Theorem generateSchedule_leave_overlap_west :
  parseUTCMidnight (s2l "2025-01-07") = Some 20095%Z
  /\ parseUTCMidnight (s2l "2025-01-13") = Some 20101%Z
  /\ fst (generateSchedule (-300)
            [mkPerson 1 (s2l "Person 1") [mkLeave (s2l "2025-01-13") (s2l "2025-01-13")]]
            [] 2025 0 2) !! 0
     = Some (mkWeek 20095 20101 (AId 1) false false [])
  /\ fst (generateSchedule 0
            [mkPerson 1 (s2l "Person 1") [mkLeave (s2l "2025-01-13") (s2l "2025-01-13")]]
            [] 2025 0 2) !! 0
     = Some (mkWeek 20095 20101 (AStr NO_ONE_AVAILABLE) false false []).
Proof. split; [|split; [|split]]; vm_compute; reflexivity. Qed.

(* ------------------------------------------------------------------ *)
(** ** Recount *)

Lemma recalc_week_lookup (m : gmap Z (nat * nat)) w id :
  recalc_week m w !! id =
  match m !! id with
  | Some (t, h) => Some ((t + (if is_duty id w then 1 else 0))%nat,
                         (h + (if is_duty id w && hasHoliday w then 1 else 0))%nat)
  | None => None
  end.
Proof.
  unfold recalc_week, is_duty. destruct (assignedTo w) as [j|s|]; simpl.
  - destruct (Z.eqb_spec j id) as [->|Hne].
    + destruct (m !! id) as [[t h]|] eqn:E.
      * rewrite lookup_insert_eq. destruct (hasHoliday w); simpl; do 2 f_equal; lia.
      * rewrite E. reflexivity.
    + destruct (m !! j) as [[t h]|] eqn:E.
      * rewrite lookup_insert_ne by congruence.
        destruct (m !! id) as [[t' h']|]; [simpl; do 2 f_equal; lia | reflexivity].
      * destruct (m !! id) as [[t' h']|]; [simpl; do 2 f_equal; lia | reflexivity].
  - destruct (m !! id) as [[t h]|]; [simpl; do 2 f_equal; lia | reflexivity].
  - destruct (m !! id) as [[t h]|]; [simpl; do 2 f_equal; lia | reflexivity].
Qed.

Lemma foldl_recalc_lookup s : forall (m : gmap Z (nat * nat)) id,
  foldl recalc_week m s !! id =
  match m !! id with
  | Some (t, h) => Some ((t + duty_count id s)%nat, (h + holiday_duty_count id s)%nat)
  | None => None
  end.
Proof.
  induction s as [|w s IH]; intros m id; simpl.
  - unfold duty_count, holiday_duty_count; simpl.
    destruct (m !! id) as [[t h]|]; [do 2 f_equal; lia | reflexivity].
  - rewrite IH, recalc_week_lookup. unfold duty_count, holiday_duty_count. simpl.
    destruct (m !! id) as [[t h]|]; [|reflexivity].
    destruct (is_duty id w), (hasHoliday w); simpl; do 2 f_equal; lia.
Qed.

Lemma zeroCounts_lookup_gen people : forall (m : gmap Z (nat * nat)) id,
  foldl (fun m p => <[pid p := (0, 0)]> m) m people !! id =
  if bool_decide (id ∈ map pid people) then Some (0, 0)%nat else m !! id.
Proof.
  induction people as [|p people IH]; intros m id; simpl.
  - first [reflexivity | case_bool_decide; [set_solver | reflexivity]].
  - rewrite IH. destruct (decide (id = pid p)) as [->|Hne].
    + rewrite (bool_decide_eq_true_2 (pid p ∈ pid p :: map pid people)) by set_solver.
      rewrite lookup_insert_eq. destruct (bool_decide _); reflexivity.
    + rewrite lookup_insert_ne by congruence.
      case_bool_decide as H1; case_bool_decide as H2; try reflexivity.
      * exfalso. apply H2. set_solver.
      * exfalso. apply H1. set_solver.
Qed.

Lemma recalculateAssignments_lookup people s id :
  recalculateAssignments people s !! id =
  if bool_decide (id ∈ map pid people)
  then Some (duty_count id s, holiday_duty_count id s)
  else None.
Proof.
  unfold recalculateAssignments. rewrite foldl_recalc_lookup.
  unfold zeroCounts. rewrite zeroCounts_lookup_gen, lookup_empty.
  destruct (bool_decide _); reflexivity.
Qed.

Lemma duty_counts_fields s1 : forall s2 id,
  map (fun w => (assignedTo w, hasHoliday w)) s1 = map (fun w => (assignedTo w, hasHoliday w)) s2 ->
  duty_count id s1 = duty_count id s2 /\ holiday_duty_count id s1 = holiday_duty_count id s2.
Proof.
  unfold duty_count, holiday_duty_count.
  induction s1 as [|w1 s1 IH]; intros [|w2 s2] id H; simpl in H; try discriminate; [auto|].
  injection H as Ha Hh Hs. destruct (IH s2 id Hs) as [E1 E2].
  simpl. unfold is_duty. rewrite Ha, Hh.
  destruct (assignedTo w2) as [j| |]; simpl; [destruct (j =? id)%Z|..];
    destruct (hasHoliday w2); simpl; auto.
Qed.

(** Claim C6: the recount pass leaves the roster and every week of the
    schedule as they are, sets each roster id's entry to the number of
    weeks assigned to it and the number of those with [hasHoliday] (and no
    entry for other ids), so it depends on nothing but the assignment and
    holiday fields; running it a second time changes nothing. *)
Theorem recalculateAssignments_idempotent (st : AppState) :
  st_schedule (recalc_step st) = st_schedule st
  /\ st_people (recalc_step st) = st_people st
  /\ (forall id, st_counts (recalc_step st) !! id =
        if bool_decide (id ∈ map pid (st_people st))
        then Some (duty_count id (st_schedule st), holiday_duty_count id (st_schedule st))
        else None)
  /\ (forall s2,
        map (fun w => (assignedTo w, hasHoliday w)) s2 =
        map (fun w => (assignedTo w, hasHoliday w)) (st_schedule st) ->
        recalculateAssignments (st_people st) s2 = st_counts (recalc_step st))
  /\ recalc_step (recalc_step st) = recalc_step st.
Proof.
  split; [reflexivity|]. split; [reflexivity|]. split.
  - intros id. apply recalculateAssignments_lookup.
  - split; [|reflexivity].
    intros s2 H. apply map_eq. intros id. simpl.
    rewrite !recalculateAssignments_lookup.
    destruct (duty_counts_fields s2 (st_schedule st) id H) as [-> ->]. reflexivity.
Qed.

(* ------------------------------------------------------------------ *)
(** ** The 2025 example *)

(** Claim C9: for year 2025, start month 0 and start weekday 2, the first
    week starts on Tuesday 2025-01-07 (for any time zone and holiday list),
    and the holiday period of 2025, [getMondayBefore] of 2025-12-25 to
    [getFridayAfter] of 2026-01-01, is Monday 2025-12-22 to Friday
    2026-01-02. *)
Theorem example_2025_first_week_and_blackout :
  firstWeekStart 2025 0 2 = DateUTC 2025 0 7
  /\ formatDateYYYYMMDD (firstWeekStart 2025 0 2) = s2l "2025-01-07"
  /\ WeekDay (firstWeekStart 2025 0 2) = 2%Z
  /\ (forall tz hol, map startDate (generateWeeks tz hol 2025 0 2) !! 0%nat = Some (DateUTC 2025 0 7))
  /\ getHolidayPeriod 2025 = (getMondayBefore (DateUTC 2025 11 25), getFridayAfter (DateUTC 2026 0 1))
  /\ getHolidayPeriod 2025 = (DateUTC 2025 11 22, DateUTC 2026 0 2)
  /\ formatDateYYYYMMDD (fst (getHolidayPeriod 2025)) = s2l "2025-12-22"
  /\ formatDateYYYYMMDD (snd (getHolidayPeriod 2025)) = s2l "2026-01-02"
  /\ WeekDay (fst (getHolidayPeriod 2025)) = 1%Z
  /\ WeekDay (snd (getHolidayPeriod 2025)) = 5%Z.
Proof.
  split; [vm_compute; reflexivity|]. split; [vm_compute; reflexivity|].
  split; [vm_compute; reflexivity|]. split.
  - intros tz hol. rewrite generateWeeks_eq.
    replace (firstWeekStart 2025 0 2) with 20095%Z by (vm_compute; reflexivity).
    replace (DateUTC 2025 0 7) with 20095%Z by (vm_compute; reflexivity).
    assert (Hy : (YearFromDay 20095 =? 2025)%Z = true) by (vm_compute; reflexivity).
    unfold week_loop. rewrite Hy. reflexivity.
  - repeat split; vm_compute; reflexivity.
Qed.

(* ------------------------------------------------------------------ *)
(** ** CSV import: structure *)

Lemma decode_rows_In tz people hol cols rows w :
  In w (decode_rows tz people hol cols rows) <->
  exists line, In line rows /\ decode_row tz people hol cols line = Some w.
Proof.
  induction rows as [|l r IH]; cbn [decode_rows In].
  { split; [intros []|intros (? & [] & _)]. }
  destruct (decode_row tz people hol cols l) as [w'|] eqn:E; cbn [In]; rewrite IH.
  - split.
    + intros [<-|(line & Hin & Hd)]; eauto.
    + intros (line & [<-|Hin] & Hd); [left; congruence | eauto].
  - split.
    + intros (line & Hin & Hd); eauto.
    + intros (line & [<-|Hin] & Hd); [congruence | eauto].
Qed.

Lemma decode_rows_app tz people hol cols l1 l2 :
  decode_rows tz people hol cols (l1 ++ l2) =
  decode_rows tz people hol cols l1 ++ decode_rows tz people hol cols l2.
Proof.
  induction l1 as [|l r IH]; cbn [decode_rows app]; [reflexivity|].
  destruct (decode_row tz people hol cols l); rewrite IH; reflexivity.
Qed.

Lemma import_rows_ok tz people hol cols rows ws :
  import_rows tz people hol cols rows = ImportOk ws -> ws = decode_rows tz people hol cols rows.
Proof. unfold import_rows. destruct (decode_rows _ _ _ _ _); congruence. Qed.

Lemma importScheduleCSV_ok tz people hol content ws :
  importScheduleCSV tz people hol content = ImportOk ws ->
  exists cols rows, ws = decode_rows tz people hol cols rows.
Proof.
  unfold importScheduleCSV. destruct (jeqb content []); [discriminate|].
  destruct (csv_lines content) as [|hdr [|r rows]]; try discriminate.
  destruct (negb _); [discriminate|].
  destruct (colIndices _) as [cols|]; [|discriminate].
  intros H. apply import_rows_ok in H. eauto.
Qed.

(** A decoded row: its holiday-period flag is computed from its dates and
    the year of its start date, and it decides the assignment. *)
Lemma decode_row_fields tz people hol cols line w :
  decode_row tz people hol cols line = Some w ->
  isHolidayPeriod w = isWeekInHolidayPeriod (startDate w) (endDate w) (YearFromDay (startDate w))
  /\ assignedTo w =
     (if isHolidayPeriod w then AStr HOLIDAY_PERIOD
      else getPersonIdFromName people (default [] (parse_row line !! default 0%nat (cols !! 2%nat)))).
Proof.
  unfold decode_row. destruct (negb _); [discriminate|].
  destruct (parseUTCMidnight _) as [sd|]; [|discriminate].
  destruct (parseUTCMidnight _) as [ed|]; [|discriminate].
  intros H. injection H as <-. simpl. split; reflexivity.
Qed.

Lemma header_ok_eq hs : header_ok hs = true -> hs = CSV_HEADERS.
Proof.
  unfold header_ok. intros H. apply andb_true_iff in H as [Hl Hf].
  apply Nat.eqb_eq in Hl.
  destruct hs as [|h0 [|h1 [|h2 [|h3 [|h4 [|h5 hs]]]]]]; simpl in Hl; try discriminate.
  simpl in Hf. unfold jeqb in Hf. rewrite !andb_true_iff in Hf.
  destruct Hf as (E0 & E1 & E2 & E3 & E4 & _).
  apply bool_decide_eq_true in E0, E1, E2, E3, E4. subst. reflexivity.
Qed.

Lemma csv_lines_nil : csv_lines [] = [].
Proof. reflexivity. Qed.

Lemma decode_row_skip tz people hol line :
  (length (parse_row line) <> length CSV_HEADERS
   \/ parseUTCMidnight (nth 0 (parse_row line) []) = None
   \/ parseUTCMidnight (nth 1 (parse_row line) []) = None) ->
  decode_row tz people hol [0; 1; 2; 3; 4]%nat line = None.
Proof.
  intros H. unfold decode_row.
  destruct (length (parse_row line) =? length CSV_HEADERS)%nat eqn:E; simpl; [|reflexivity].
  apply Nat.eqb_eq in E. rewrite <- !nth_lookup.
  destruct H as [H|[H|H]]; [contradiction| rewrite H; reflexivity |].
  rewrite H. destruct (parseUTCMidnight (nth 0 (parse_row line) [])); reflexivity.
Qed.

(** A header line that passes the check names the columns in order. *)
Lemma header_cols hdr :
  header_ok (header_fields hdr) = true ->
  header_fields hdr = CSV_HEADERS /\ colIndices (header_fields hdr) = Some [0; 1; 2; 3; 4]%nat.
Proof.
  intros H. apply header_ok_eq in H. rewrite H. split; [reflexivity|].
  vm_compute. reflexivity.
Qed.

Lemma importScheduleCSV_rows tz people hol content hdr rows :
  csv_lines content = hdr :: rows -> rows <> [] ->
  header_ok (header_fields hdr) = true ->
  importScheduleCSV tz people hol content = import_rows tz people hol [0; 1; 2; 3; 4]%nat rows.
Proof.
  intros Hl Hr Hh. destruct (header_cols hdr Hh) as [_ Hc].
  assert (Hne : content <> []) by (intros ->; rewrite csv_lines_nil in Hl; discriminate).
  unfold importScheduleCSV, jeqb. rewrite bool_decide_eq_false_2 by exact Hne.
  rewrite Hl. destruct rows as [|r rows]; [contradiction|].
  cbv beta iota zeta. rewrite Hh. cbn [negb]. rewrite Hc. reflexivity.
Qed.

(* ------------------------------------------------------------------ *)
(** ** CSV import: fatal errors, skipped rows, holiday period *)

(** Claim C7 (as amended): the import fails with an error message, and the
    state (roster, schedule, counts) is left as it was, when the file is
    empty, when it has fewer than two non-blank lines, when its first
    non-blank line, split at commas with each part trimmed of white space,
    is not the five expected column names in order, or when every data row
    is skipped. *)
Theorem importScheduleCSV_fatal_errors tz hol st content :
  (content = []
   \/ (length (csv_lines content) < 2)%nat
   \/ (exists hdr rows, csv_lines content = hdr :: rows /\ header_fields hdr <> CSV_HEADERS)
   \/ (exists hdr rows, csv_lines content = hdr :: rows
        /\ decode_rows tz (st_people st) hol [0; 1; 2; 3; 4]%nat rows = [])) ->
  (exists message, importScheduleCSV tz (st_people st) hol content = ImportError message)
  /\ import_step tz hol st content = st.
Proof.
  intros H.
  assert (Herr : exists message, importScheduleCSV tz (st_people st) hol content = ImportError message).
  { unfold importScheduleCSV.
    destruct (jeqb content []) eqn:Ej; [eexists; reflexivity|].
    destruct H as [->|[H|[(hdr & rows & Hl & Hh)|(hdr & rows & Hl & Hd)]]].
    - discriminate.
    - destruct (csv_lines content) as [|h [|r rows]]; try (eexists; reflexivity).
      simpl in H. lia.
    - rewrite Hl. destruct rows as [|r rows]; [eexists; reflexivity|].
      cbv beta iota zeta.
      destruct (header_ok (header_fields hdr)) eqn:Eh.
      + exfalso. apply Hh, header_ok_eq, Eh.
      + eexists; reflexivity.
    - rewrite Hl. destruct rows as [|r rows]; [eexists; reflexivity|].
      cbv beta iota zeta.
      destruct (header_ok (header_fields hdr)) eqn:Eh; [|eexists; reflexivity].
      cbn [negb]. rewrite (proj2 (header_cols hdr Eh)).
      unfold import_rows. rewrite Hd. eexists; reflexivity. }
  split; [exact Herr|].
  destruct Herr as [message Hm]. unfold import_step. rewrite Hm. reflexivity.
Qed.

Lemma importScheduleCSV_fatal_errors_witness :
  (exists message, importScheduleCSV 0 [] [] (s2l "Start,End,Assigned To,Holidays,Notes" ++ NL :: s2l "2025-01-07,2025-01-13,,,") = ImportError message)
  /\ import_step 0 [] (mkState [] [] ∅) (s2l "Start,End,Assigned To,Holidays,Notes" ++ NL :: s2l "2025-01-07,2025-01-13,,,") = mkState [] [] ∅.
Proof.
  apply (importScheduleCSV_fatal_errors 0 [] (mkState [] [] ∅)).
  right; right; left.
  exists (s2l "Start,End,Assigned To,Holidays,Notes"), [s2l "2025-01-07,2025-01-13,,,"].
  split; [vm_compute; reflexivity | vm_compute; discriminate].
Defined.

(** Counterexample to claim C7 as stated: a header line with white space
    around a column name is not the expected header line, yet it is
    accepted and the row imported. *)
Lemma importScheduleCSV_padded_header_accepted :
  csv_lines (s2l " Week Start Date ,Week End Date,Assigned To,Holidays,Notes" ++ NL :: s2l "2025-01-07,2025-01-13,Person 1,,")
    = [s2l " Week Start Date ,Week End Date,Assigned To,Holidays,Notes"; s2l "2025-01-07,2025-01-13,Person 1,,"]
  /\ s2l " Week Start Date ,Week End Date,Assigned To,Holidays,Notes" <> join [COMMA] CSV_HEADERS
  /\ importScheduleCSV 0 [mkPerson 1 (s2l "Person 1") []] []
       (s2l " Week Start Date ,Week End Date,Assigned To,Holidays,Notes" ++ NL :: s2l "2025-01-07,2025-01-13,Person 1,,")
     = ImportOk [mkWeek 20095 20101 (AId 1) false false []].
Proof.
  split; [vm_compute; reflexivity|]. split; [vm_compute; discriminate|].
  vm_compute. reflexivity.
Qed.

(** Claim C8: with a valid header line, a data row with a column count
    other than five, or whose start or end date does not parse, is
    skipped: the import gives what it gives for the same file without that
    row, and it succeeds as soon as one of the other rows is retained. *)
Theorem importScheduleCSV_skips_bad_rows tz people hol content hdr pre bad post :
  csv_lines content = hdr :: pre ++ bad :: post ->
  header_ok (header_fields hdr) = true ->
  (length (parse_row bad) <> length CSV_HEADERS
   \/ parseUTCMidnight (nth 0 (parse_row bad) []) = None
   \/ parseUTCMidnight (nth 1 (parse_row bad) []) = None) ->
  colIndices (header_fields hdr) = Some [0; 1; 2; 3; 4]%nat
  /\ importScheduleCSV tz people hol content = import_rows tz people hol [0; 1; 2; 3; 4]%nat (pre ++ post)
  /\ ((exists line w, In line (pre ++ post) /\ decode_row tz people hol [0; 1; 2; 3; 4]%nat line = Some w) ->
      exists ws, importScheduleCSV tz people hol content = ImportOk ws).
Proof.
  intros Hl Hh Hbad.
  assert (Himp : importScheduleCSV tz people hol content =
                 import_rows tz people hol [0; 1; 2; 3; 4]%nat (pre ++ post)).
  { rewrite (importScheduleCSV_rows tz people hol content hdr (pre ++ bad :: post) Hl)
      by (try exact Hh; destruct pre; discriminate).
    unfold import_rows. rewrite !decode_rows_app. cbn [decode_rows].
    rewrite (decode_row_skip tz people hol bad Hbad). reflexivity. }
  split; [exact (proj2 (header_cols hdr Hh))|]. split; [exact Himp|].
  intros (line & w & Hin & Hd). rewrite Himp. unfold import_rows.
  destruct (decode_rows tz people hol [0; 1; 2; 3; 4]%nat (pre ++ post)) as [|w0 ws] eqn:E.
  - exfalso. assert (Hw : In w (decode_rows tz people hol [0; 1; 2; 3; 4]%nat (pre ++ post)))
      by (apply decode_rows_In; eauto).
    rewrite E in Hw. exact Hw.
  - eexists; reflexivity.
Qed.

Lemma importScheduleCSV_skips_bad_rows_witness :
  colIndices (header_fields (s2l "Week Start Date,Week End Date,Assigned To,Holidays,Notes")) = Some [0; 1; 2; 3; 4]%nat
  /\ importScheduleCSV 0 [mkPerson 1 (s2l "Person 1") []] []
       (s2l "Week Start Date,Week End Date,Assigned To,Holidays,Notes" ++ NL ::
        s2l "2025-01-07,2025-01-13,Person 1," ++ NL :: s2l "2025-01-14,2025-01-20,Person 1,,")
     = import_rows 0 [mkPerson 1 (s2l "Person 1") []] [] [0; 1; 2; 3; 4]%nat
         ([] ++ [s2l "2025-01-14,2025-01-20,Person 1,,"])
  /\ ((exists line w, In line ([] ++ [s2l "2025-01-14,2025-01-20,Person 1,,"])
        /\ decode_row 0 [mkPerson 1 (s2l "Person 1") []] [] [0; 1; 2; 3; 4]%nat line = Some w) ->
      exists ws, importScheduleCSV 0 [mkPerson 1 (s2l "Person 1") []] []
       (s2l "Week Start Date,Week End Date,Assigned To,Holidays,Notes" ++ NL ::
        s2l "2025-01-07,2025-01-13,Person 1," ++ NL :: s2l "2025-01-14,2025-01-20,Person 1,,") = ImportOk ws).
Proof.
  assert (H1 : csv_lines (s2l "Week Start Date,Week End Date,Assigned To,Holidays,Notes" ++ NL ::
                 s2l "2025-01-07,2025-01-13,Person 1," ++ NL :: s2l "2025-01-14,2025-01-20,Person 1,,")
               = s2l "Week Start Date,Week End Date,Assigned To,Holidays,Notes"
                 :: [] ++ s2l "2025-01-07,2025-01-13,Person 1," :: [s2l "2025-01-14,2025-01-20,Person 1,,"])
    by (vm_compute; reflexivity).
  assert (H2 : header_ok (header_fields (s2l "Week Start Date,Week End Date,Assigned To,Holidays,Notes")) = true)
    by (vm_compute; reflexivity).
  assert (H3 : length (parse_row (s2l "2025-01-07,2025-01-13,Person 1,")) <> length CSV_HEADERS
               \/ parseUTCMidnight (nth 0 (parse_row (s2l "2025-01-07,2025-01-13,Person 1,")) []) = None
               \/ parseUTCMidnight (nth 1 (parse_row (s2l "2025-01-07,2025-01-13,Person 1,")) []) = None)
    by (left; vm_compute; discriminate).
  exact (importScheduleCSV_skips_bad_rows 0 [mkPerson 1 (s2l "Person 1") []] [] _ _ [] _ _ H1 H2 H3).
Defined.

(** Claim C10: every week of a successful import whose span overlaps the
    holiday period of its start date's year is marked as in the holiday
    period and assigned to the holiday-period status, whatever name its
    Assigned To column held. *)
Theorem importScheduleCSV_blackout_forced tz people hol content ws w :
  importScheduleCSV tz people hol content = ImportOk ws ->
  In w ws ->
  isWeekInHolidayPeriod (startDate w) (endDate w) (YearFromDay (startDate w)) = true ->
  assignedTo w = AStr HOLIDAY_PERIOD /\ isHolidayPeriod w = true.
Proof.
  intros Hok Hin Hhp.
  destruct (importScheduleCSV_ok tz people hol content ws Hok) as (cols & rows & ->).
  apply decode_rows_In in Hin as (line & _ & Hd).
  destruct (decode_row_fields tz people hol cols line w Hd) as [Ehp Ea].
  rewrite Hhp in Ehp. rewrite Ea, Ehp. split; reflexivity.
Qed.

Lemma importScheduleCSV_blackout_forced_witness :
  assignedTo (mkWeek 20444 20450 (AStr HOLIDAY_PERIOD) false true []) = AStr HOLIDAY_PERIOD
  /\ isHolidayPeriod (mkWeek 20444 20450 (AStr HOLIDAY_PERIOD) false true []) = true.
Proof.
  assert (H1 : importScheduleCSV 0 [mkPerson 1 (s2l "Person 1") []] []
                 (s2l "Week Start Date,Week End Date,Assigned To,Holidays,Notes" ++ NL ::
                  s2l "2025-12-22,2025-12-28,Person 1,,")
               = ImportOk [mkWeek 20444 20450 (AStr HOLIDAY_PERIOD) false true []])
    by (vm_compute; reflexivity).
  assert (H3 : isWeekInHolidayPeriod 20444 20450 (YearFromDay 20444) = true)
    by (vm_compute; reflexivity).
  exact (importScheduleCSV_blackout_forced 0 _ _ _ _ _ H1 (or_introl eq_refl) H3).
Defined.

(* ------------------------------------------------------------------ *)
(** ** CSV export then import *)

Section RoundTrip.
Local Open Scope Z_scope.

Lemma DayFromYear_succ y : DayFromYear (y + 1) = DayFromYear y + 365 + LeapOfYear y.
Proof.
  unfold DayFromYear, LeapOfYear, DaysInYear.
  destruct (Z.eqb_spec (y mod 4) 0); destruct (Z.eqb_spec (y mod 100) 0);
    destruct (Z.eqb_spec (y mod 400) 0); simpl; Z.div_mod_to_equations; lia.
Qed.
Lemma DayWithinYear_range d : 0 <= DayWithinYear d < 365 + InLeapYear d.
Proof.
  pose proof (YearFromDay_spec d). rewrite DayFromYear_succ in H.
  unfold DayWithinYear, InLeapYear. unfold LeapOfYear in H. lia.
Qed.
Lemma InLeapYear_range d : 0 <= InLeapYear d <= 1.
Proof. unfold InLeapYear. destruct (_ =? _); lia. Qed.
Lemma DateFromDay_range d : 1 <= DateFromDay d <= 31.
Proof.
  pose proof (DayWithinYear_range d). pose proof (InLeapYear_range d).
  unfold DateFromDay, MonthFromDay.
  set (w := DayWithinYear d) in *. set (l := InLeapYear d) in *.
  repeat match goal with |- context [if ?a <? ?b then _ else _] => destruct (Z.ltb_spec a b) end;
    unfold MonthStart; simpl; lia.
Qed.
Lemma digit_chr k : 0 <= k <= 9 -> digit_val (chr k) = Some k.
Proof.
  intros H. assert (k = 0 \/ k = 1 \/ k = 2 \/ k = 3 \/ k = 4 \/ k = 5 \/ k = 6 \/ k = 7 \/ k = 8 \/ k = 9)
    as Hk by lia.
  repeat destruct Hk as [->|Hk]; try reflexivity. subst. reflexivity.
Qed.
Lemma digits_aux_step f n : 10 <= n ->
  digits_aux (S f) n = digits_aux f (n / 10) ++ [chr (n mod 10)].
Proof. intros H. cbn [digits_aux]. destruct (Z.ltb_spec n 10); [lia|reflexivity]. Qed.
Lemma digits_aux_small f n : n < 10 -> digits_aux (S f) n = [chr n].
Proof. intros H. cbn [digits_aux]. destruct (Z.ltb_spec n 10); [reflexivity|lia]. Qed.
Lemma digits_val_app acc s t :
  digits_val acc (s ++ t) = match digits_val acc s with Some v => digits_val v t | None => None end.
Proof.
  revert acc. induction s as [|c s IH]; intros acc; simpl; [reflexivity|].
  destruct (digit_val c); [apply IH|reflexivity].
Qed.
Lemma numToString_year y : 1000 <= y <= 9999 ->
  numToString y = [chr (y / 1000); chr (y / 100 mod 10); chr (y / 10 mod 10); chr (y mod 10)].
Proof.
  intros H. unfold numToString. destruct (Z.ltb_spec y 0); [lia|].
  rewrite digits_aux_step by lia. rewrite digits_aux_step by (Z.div_mod_to_equations; lia).
  rewrite digits_aux_step by (Z.div_mod_to_equations; lia).
  rewrite digits_aux_small by (Z.div_mod_to_equations; lia).
  rewrite !Z.div_div by lia. reflexivity.
Qed.
Lemma numToString_year_val y : 1000 <= y <= 9999 -> digits_val 0 (numToString y) = Some y.
Proof.
  intros H. rewrite numToString_year by exact H. cbn [digits_val].
  rewrite !digit_chr by (Z.div_mod_to_equations; lia). f_equal.
  Z.div_mod_to_equations. lia.
Qed.
Lemma padStart2_num k : 1 <= k <= 99 -> padStart2 (numToString k) = [chr (k / 10); chr (k mod 10)].
Proof.
  intros H. unfold padStart2, numToString. destruct (Z.ltb_spec k 0); [lia|].
  destruct (Z.ltb_spec k 10).
  - rewrite digits_aux_small by lia. rewrite Z.div_small, Z.mod_small by lia. reflexivity.
  - rewrite digits_aux_step by lia. rewrite digits_aux_small by (Z.div_mod_to_equations; lia).
    reflexivity.
Qed.
Lemma padStart2_num_val k : 1 <= k <= 99 -> digits_val 0 (padStart2 (numToString k)) = Some k.
Proof.
  intros H. rewrite padStart2_num by exact H. cbn [digits_val].
  rewrite !digit_chr by (Z.div_mod_to_equations; lia). f_equal.
  Z.div_mod_to_equations. lia.
Qed.
Lemma take_digits_app k s rest v :
  length s = k -> digits_val 0 s = Some v -> take_digits k (s ++ rest) = Some (v, rest).
Proof.
  intros <- Hv. unfold take_digits. rewrite length_app.
  destruct (Nat.leb_spec (length s) (length s + length rest)); [|lia].
  rewrite take_app_length, drop_app_length, Hv. reflexivity.
Qed.
Lemma chr_not k c : 0 <= k <= 9 -> (nat_of_ascii c < 48)%nat -> chr k <> c.
Proof.
  intros Hk Hc E. apply (f_equal nat_of_ascii) in E. unfold chr in E.
  rewrite nat_ascii_embedding in E by lia. lia.
Qed.
Lemma YearFromDay_in d y : DayFromYear y <= d < DayFromYear (y + 1) -> YearFromDay d = y.
Proof.
  intros H. pose proof (YearFromDay_spec d).
  destruct (Z.lt_trichotomy (YearFromDay d) y) as [Hl|[E|Hg]]; [|exact E|].
  - pose proof (DayFromYear_mono (YearFromDay d + 1) y ltac:(lia)). lia.
  - pose proof (DayFromYear_mono (y + 1) (YearFromDay d) ltac:(lia)). lia.
Qed.
Lemma format_parse d : 1000 <= YearFromDay d <= 9999 ->
  parseUTCMidnight (formatDateYYYYMMDD d) = Some d.
Proof.
  intros Hy. pose proof (MonthFromDay_range d) as Hm. pose proof (DateFromDay_range d) as Hd.
  unfold parseUTCMidnight.
  replace (formatDateYYYYMMDD d ++ suffixT) with
    (numToString (YearFromDay d) ++ "-"%char :: padStart2 (numToString (MonthFromDay d + 1))
       ++ "-"%char :: padStart2 (numToString (DateFromDay d)) ++ suffixT)
    by (unfold formatDateYYYYMMDD; rewrite <- !app_assoc, <- !app_comm_cons, <- !app_assoc; reflexivity).
  assert (Hpy : parse_year (numToString (YearFromDay d) ++ "-"%char :: padStart2 (numToString (MonthFromDay d + 1))
       ++ "-"%char :: padStart2 (numToString (DateFromDay d)) ++ suffixT)
       = Some (YearFromDay d, "-"%char :: padStart2 (numToString (MonthFromDay d + 1))
       ++ "-"%char :: padStart2 (numToString (DateFromDay d)) ++ suffixT)).
  { rewrite <- (take_digits_app 4 (numToString (YearFromDay d)) _ (YearFromDay d))
      by (try (rewrite numToString_year by lia; reflexivity); apply numToString_year_val; lia).
    rewrite numToString_year at 1 by lia. cbn [app parse_year].
    destruct (ascii_dec _ "+"%char) as [E|_].
    { exfalso. revert E. apply chr_not; [Z.div_mod_to_equations; lia | vm_compute; lia]. }
    destruct (ascii_dec _ "-"%char) as [E|_].
    { exfalso. revert E. apply chr_not; [Z.div_mod_to_equations; lia | vm_compute; lia]. }
    try rewrite (numToString_year (YearFromDay d)) by lia; reflexivity. }
  rewrite Hpy. cbv beta iota.
  destruct (ascii_dec "-"%char "-"%char) as [_|n]; [|congruence].
  rewrite (take_digits_app 2 _ _ (MonthFromDay d + 1))
    by (try (rewrite padStart2_num by lia; reflexivity); apply padStart2_num_val; lia).
  cbv beta iota.
  destruct (ascii_dec "-"%char "-"%char) as [_|n]; [|congruence].
  rewrite (take_digits_app 2 _ _ (DateFromDay d))
    by (try (rewrite padStart2_num by lia; reflexivity); apply padStart2_num_val; lia).
  unfold finish_date, jeqb. rewrite bool_decide_eq_true_2 by reflexivity.
  repeat match goal with |- context [(?a <=? ?b)%Z] => destruct (Z.leb_spec a b); try lia end.
  cbn [andb]. replace (MonthFromDay d + 1 - 1) with (MonthFromDay d) by lia.
  pose proof (MakeDay_parts d 0) as E. rewrite !Z.add_0_r in E. rewrite E.
  unfold TimeClipDay. pose proof (YearFromDay_spec d).
  pose proof (DayFromYear_mono 1000 (YearFromDay d) ltac:(lia)).
  pose proof (DayFromYear_mono (YearFromDay d + 1) 10000 ltac:(lia)).
  assert (E1 : DayFromYear 1000 = -354285) by reflexivity.
  assert (E2 : DayFromYear 10000 = 2932897) by reflexivity.
  destruct (Z.leb_spec (Z.abs d) 100000000); [reflexivity | lia].
Qed.

Lemma includes_false s c : includes s c = false -> ~ In c s.
Proof.
  unfold includes. intros H Hin. apply not_true_iff_false in H. apply H.
  apply existsb_exists. exists c. split; [exact Hin | apply Ascii.eqb_refl].
Qed.

Lemma includes_true s c : ~ In c s -> includes s c = false.
Proof.
  unfold includes. intros H. apply not_true_iff_false. intros E.
  apply existsb_exists in E as (x & Hx & Ex). apply Ascii.eqb_eq in Ex. subst. contradiction.
Qed.

Lemma removeq_id f : ~ In QUOTE f -> removeq f = f.
Proof.
  induction f as [|c f IH]; intros H; [reflexivity|]. cbn [removeq List.filter].
  fold (removeq f). destruct (Ascii.eqb_spec c QUOTE) as [->|Hc].
  - exfalso. apply H. left. reflexivity.
  - cbn [negb]. rewrite IH; [reflexivity|]. intros Hin. apply H. right. exact Hin.
Qed.

Lemma removeq_noq f : ~ In QUOTE (removeq f).
Proof.
  unfold removeq. intros Hin. apply filter_In in Hin as [_ E].
  rewrite Ascii.eqb_refl in E. discriminate.
Qed.

Lemma scan_plain s : forall inQ cur vals r,
  ~ In QUOTE s -> ~ In COMMA s ->
  scan_row inQ cur vals (s ++ r) = scan_row inQ (cur ++ s) vals r.
Proof.
  induction s as [|c s IH]; intros inQ cur vals r Hq Hc; cbn [app].
  - rewrite app_nil_r. reflexivity.
  - cbn [scan_row].
    destruct (Ascii.eqb_spec c QUOTE) as [->|_]; [exfalso; apply Hq; left; reflexivity|].
    destruct (Ascii.eqb_spec c COMMA) as [->|_]; [exfalso; apply Hc; left; reflexivity|].
    cbn [andb]. rewrite IH.
    + rewrite <- app_assoc. reflexivity.
    + intros Hin. apply Hq. right. exact Hin.
    + intros Hin. apply Hc. right. exact Hin.
Qed.

Lemma scan_doubled f : forall cur vals r,
  scan_row true cur vals (double_quotes f ++ r) = scan_row true (cur ++ removeq f) vals r.
Proof.
  induction f as [|c f IH]; intros cur vals r; cbn [double_quotes app removeq List.filter].
  - rewrite app_nil_r. reflexivity.
  - fold (removeq f). destruct (Ascii.eqb_spec c QUOTE) as [->|Hc]; cbn [app scan_row negb].
    + rewrite Ascii.eqb_refl. cbn [negb]. apply IH.
    + destruct (Ascii.eqb_spec c QUOTE); [contradiction|].
      rewrite andb_false_r. rewrite IH. rewrite <- app_assoc. reflexivity.
Qed.

Lemma scan_escape f : forall cur vals r,
  scan_row false cur vals (escapeCSV f ++ r) = scan_row false (cur ++ removeq f) vals r.
Proof.
  intros cur vals r. unfold escapeCSV.
  destruct (includes f COMMA) eqn:E1; destruct (includes f NL) eqn:E2;
    destruct (includes f QUOTE) eqn:E3; cbn [orb];
    try (rewrite <- app_comm_cons, <- app_assoc; cbn [app scan_row];
         rewrite Ascii.eqb_refl; cbn [negb]; rewrite scan_doubled; cbn [scan_row];
         rewrite Ascii.eqb_refl; reflexivity).
  apply includes_false in E1, E3. rewrite removeq_id by exact E3.
  apply scan_plain; assumption.
Qed.

Lemma scan_comma cur vals r :
  scan_row false cur vals (COMMA :: r) = scan_row false [] (vals ++ [unescapeCSV (trim cur)]) r.
Proof. reflexivity. Qed.

Lemma parse_row_five f1 f2 f3 f4 f5 :
  parse_row (join [COMMA] [escapeCSV f1; escapeCSV f2; escapeCSV f3; escapeCSV f4; escapeCSV f5]) =
  map (fun f => unescapeCSV (trim (removeq f))) [f1; f2; f3; f4; f5].
Proof.
  unfold parse_row. cbn [join app].
  rewrite scan_escape, scan_comma, scan_escape, scan_comma, scan_escape, scan_comma,
    scan_escape, scan_comma.
  rewrite <- (app_nil_r (escapeCSV f5)), scan_escape. reflexivity.
Qed.
Lemma trim_start_hd t c r : trim_start t = c :: r -> is_ws c = false.
Proof.
  induction t as [|x t IH]; cbn [trim_start]; [discriminate|].
  destruct (is_ws x) eqn:E; [exact IH|]. intros H. injection H as -> _. exact E.
Qed.

Lemma trim_start_sub t c : In c (trim_start t) -> In c t.
Proof.
  induction t as [|x t IH]; cbn [trim_start]; [tauto|].
  destruct (is_ws x); [intros H; right; apply IH, H | tauto].
Qed.

Lemma trim_sub s c : In c (trim s) -> In c s.
Proof.
  unfold trim. intros H. apply in_rev in H. apply trim_start_sub in H.
  apply in_rev in H. apply trim_start_sub in H. exact H.
Qed.

Lemma trim_start_keep t c : In c t -> is_ws c = false -> trim_start t <> [].
Proof.
  induction t as [|x t IH]; cbn [trim_start]; [tauto|].
  intros [->|Hin] Hc; [rewrite Hc; discriminate|].
  destruct (is_ws x); [exact (IH Hin Hc) | discriminate].
Qed.

Lemma trim_start_id t : (forall c r, t = c :: r -> is_ws c = false) -> trim_start t = t.
Proof.
  destruct t as [|x t]; intros H; [reflexivity|]. cbn [trim_start].
  rewrite (H x t eq_refl). reflexivity.
Qed.

(** A trimmed string does not end in white space. *)
Lemma trim_last s c r : trim s = s -> rev s = c :: r -> is_ws c = false.
Proof.
  intros Ht Hr. rewrite <- Ht in Hr. unfold trim in Hr. rewrite rev_involutive in Hr.
  exact (trim_start_hd _ _ _ Hr).
Qed.

Lemma trim_id s :
  (forall c r, s = c :: r -> is_ws c = false) ->
  (forall c r, rev s = c :: r -> is_ws c = false) -> trim s = s.
Proof.
  intros H1 H2. unfold trim. rewrite (trim_start_id s H1), (trim_start_id (rev s) H2).
  apply rev_involutive.
Qed.

Lemma unescapeCSV_id s : ~ In QUOTE s -> unescapeCSV s = s.
Proof.
  intros H. unfold unescapeCSV. destruct s as [|c s]; [reflexivity|].
  destruct (rev (c :: s)); [reflexivity|].
  destruct (Ascii.eqb_spec c QUOTE) as [->|_]; [exfalso; apply H; left; reflexivity|].
  reflexivity.
Qed.

(** What a field that needs no repair reads back as. *)
Lemma field_read_back f :
  ~ In QUOTE f -> trim f = f -> unescapeCSV (trim (removeq f)) = f.
Proof.
  intros Hq Ht. rewrite removeq_id, Ht by exact Hq. apply unescapeCSV_id, Hq.
Qed.

Lemma strip_cr_id s : (forall c r, rev s = c :: r -> c <> CR) -> strip_cr s = s.
Proof.
  unfold strip_cr. intros H. destruct (rev s) as [|c r] eqn:E; [reflexivity|].
  destruct (Ascii.eqb_spec c CR) as [->|_]; [|reflexivity].
  exfalso. exact (H CR r eq_refl eq_refl).
Qed.

Lemma split_lines_aux_app l : forall cur r,
  ~ In NL l -> split_lines_aux cur (l ++ r) = split_lines_aux (cur ++ l) r.
Proof.
  induction l as [|c l IH]; intros cur r H; cbn [app].
  - rewrite app_nil_r. reflexivity.
  - cbn [split_lines_aux].
    destruct (Ascii.eqb_spec c NL) as [->|_]; [exfalso; apply H; left; reflexivity|].
    rewrite IH by (intros Hin; apply H; right; exact Hin). rewrite <- app_assoc. reflexivity.
Qed.

Lemma split_lines_join ls :
  ls <> [] -> Forall (fun l => ~ In NL l /\ strip_cr l = l) ls ->
  split_lines (join [NL] ls) = ls.
Proof.
  unfold split_lines. induction ls as [|x ls IH]; intros Hne Hf; [contradiction|].
  apply Forall_cons in Hf as [[Hx Hs] Hf].
  destruct ls as [|y ls].
  - cbn [join]. pose proof (split_lines_aux_app x [] [] Hx) as E.
    rewrite app_nil_r in E. rewrite E. reflexivity.
  - change (join [NL] (x :: y :: ls)) with (x ++ [NL] ++ join [NL] (y :: ls)).
    rewrite split_lines_aux_app by exact Hx. cbn [app split_lines_aux].
    rewrite Ascii.eqb_refl, Hs. f_equal. apply IH; [discriminate | exact Hf].
Qed.
Lemma chr_code k : 0 <= k <= 9 -> nat_of_ascii (chr k) = (48 + Z.to_nat k)%nat.
Proof. intros H. unfold chr. apply nat_ascii_embedding. lia. Qed.

Lemma format_chars d : 1000 <= YearFromDay d <= 9999 ->
  Forall (fun c => (44 < nat_of_ascii c)%nat) (formatDateYYYYMMDD d).
Proof.
  intros Hy. pose proof (MonthFromDay_range d) as Hm. pose proof (DateFromDay_range d) as Hd.
  unfold formatDateYYYYMMDD.
  rewrite numToString_year by exact Hy. rewrite !padStart2_num by lia. cbn [app].
  repeat (apply List.Forall_cons;
          [first [ rewrite chr_code by (Z.div_mod_to_equations; lia); lia
                 | vm_compute; lia ] |]).
  apply List.Forall_nil.
Qed.

Lemma high_not_ws c : (44 < nat_of_ascii c)%nat -> is_ws c = false.
Proof.
  unfold is_ws. intros H.
  repeat match goal with |- context [Nat.eqb ?a ?b] => destruct (Nat.eqb_spec a b); [lia|] end.
  reflexivity.
Qed.

Lemma high_props s : Forall (fun c => (44 < nat_of_ascii c)%nat) s ->
  ~ In QUOTE s /\ ~ In COMMA s /\ ~ In NL s /\ trim s = s.
Proof.
  intros H. rewrite List.Forall_forall in H.
  split; [intros Hin; specialize (H _ Hin); vm_compute in H; lia|].
  split; [intros Hin; specialize (H _ Hin); vm_compute in H; lia|].
  split; [intros Hin; specialize (H _ Hin); vm_compute in H; lia|].
  apply trim_id.
  - intros c r ->. apply high_not_ws, H. left. reflexivity.
  - intros c r E. apply high_not_ws, H. apply in_rev. rewrite E. left. reflexivity.
Qed.

Lemma escapeCSV_plain s : ~ In COMMA s -> ~ In NL s -> ~ In QUOTE s -> escapeCSV s = s.
Proof.
  intros H1 H2 H3. unfold escapeCSV. rewrite !includes_true by assumption. reflexivity.
Qed.

Lemma double_quotes_In c f : c <> QUOTE -> In c (double_quotes f) -> In c f.
Proof.
  intros Hc. induction f as [|x f IH]; cbn [double_quotes]; [tauto|].
  destruct (Ascii.eqb_spec x QUOTE) as [->|_].
  - intros [E|[E|H]]; [congruence|congruence|right; apply IH, H].
  - intros [E|H]; [left; exact E | right; apply IH, H].
Qed.

Lemma escapeCSV_no_nl f : ~ In NL f -> ~ In NL (escapeCSV f).
Proof.
  intros H. unfold escapeCSV. destruct (_ || _ || _); [|exact H].
  intros Hin. apply in_inv in Hin as [E|Hin]; [vm_compute in E; discriminate|].
  apply in_app_iff in Hin as [Hin|[E|[]]]; [|vm_compute in E; discriminate].
  apply double_quotes_In in Hin; [contradiction | vm_compute; discriminate].
Qed.
Lemma trim_start_In s c : In c s -> is_ws c = false -> In c (trim_start s).
Proof.
  induction s as [|x s IH]; cbn [trim_start]; [tauto|].
  intros [->|Hin] Hc; [rewrite Hc; left; reflexivity|].
  destruct (is_ws x); [exact (IH Hin Hc) | right; exact Hin].
Qed.

Lemma trim_nonempty s c : In c s -> is_ws c = false -> trim s <> [].
Proof.
  intros Hin Hc E. unfold trim in E.
  assert (H : In c (rev (trim_start (rev (trim_start s))))).
  { rewrite <- in_rev. apply trim_start_In; [|exact Hc].
    rewrite <- in_rev. apply trim_start_In; assumption. }
  rewrite E in H. exact H.
Qed.

Lemma join_no_nl sep ls :
  ~ In NL sep -> Forall (fun l => ~ In NL l) ls -> ~ In NL (join sep ls).
Proof.
  intros Hs. induction ls as [|x ls IH]; intros Hf; [intros []|].
  apply Forall_cons in Hf as [Hx Hf]. destruct ls as [|y ls]; [exact Hx|].
  change (join sep (x :: y :: ls)) with (x ++ sep ++ join sep (y :: ls)).
  rewrite !in_app_iff. intros [H|[H|H]]; [exact (Hx H)|exact (Hs H)|exact (IH Hf H)].
Qed.

Lemma escape_last f c r : trim f = f -> rev (escapeCSV f) = c :: r -> c <> CR.
Proof.
  intros Ht. unfold escapeCSV. destruct (_ || _ || _).
  - rewrite app_comm_cons, rev_app_distr. cbn [rev app]. intros E. injection E as <- _.
    vm_compute. discriminate.
  - intros E ->. apply (trim_last f CR r Ht) in E. vm_compute in E. discriminate.
Qed.

Lemma decode_row_five tz people hol line a b c d e :
  parse_row line = [a; b; c; d; e] ->
  decode_row tz people hol [0; 1; 2; 3; 4]%nat line =
  match parseUTCMidnight a, parseUTCMidnight b with
  | Some sd, Some ed =>
      Some (mkWeek sd ed
              (if isWeekInHolidayPeriod sd ed (YearFromDay sd) then AStr HOLIDAY_PERIOD
               else getPersonIdFromName people c)
              (weekContainsHoliday tz sd ed hol) (isWeekInHolidayPeriod sd ed (YearFromDay sd)) e)
  | _, _ => None
  end.
Proof. intros H. unfold decode_row. rewrite H. reflexivity. Qed.

Lemma holidaysStr_no_nl tz hol w :
  Forall (fun h => ~ In NL (hdate h) /\ ~ In NL (hname h)) hol ->
  (length (getHolidaysInWeek tz hol (startDate w) (endDate w)) <= 1)%nat ->
  ~ In NL (holidaysStr tz hol w).
Proof.
  intros Hh Hl. unfold holidaysStr.
  destruct (getHolidaysInWeek tz hol (startDate w) (endDate w)) as [|h [|h' l]] eqn:E;
    cbn [length] in Hl; [intros []| |lia].
  assert (Hin : In h hol).
  { assert (H : In h (getHolidaysInWeek tz hol (startDate w) (endDate w))) by (rewrite E; left; reflexivity).
    unfold getHolidaysInWeek in H. apply filter_In in H as [H _]. exact H. }
  rewrite List.Forall_forall in Hh. destruct (Hh h Hin) as [H1 H2].
  cbn [map join]. rewrite !in_app_iff. intros [H|[H|H]]; [exact (H1 H)| |exact (H2 H)].
  vm_compute in H. intuition discriminate.
Qed.

(** One exported row, read back. *)
Lemma csv_row_read tz people hol w :
  (1000 <= YearFromDay (startDate w) <= 9999) ->
  (1000 <= YearFromDay (endDate w) <= 9999) ->
  ~ In QUOTE (getPersonName people (assignedTo w)) ->
  trim (getPersonName people (assignedTo w)) = getPersonName people (assignedTo w) ->
  ~ In QUOTE (notes w) -> trim (notes w) = notes w ->
  decode_row tz people hol [0; 1; 2; 3; 4]%nat (csv_row tz people hol w) =
  Some (mkWeek (startDate w) (endDate w)
          (if isWeekInHolidayPeriod (startDate w) (endDate w) (YearFromDay (startDate w))
           then AStr HOLIDAY_PERIOD
           else getPersonIdFromName people (getPersonName people (assignedTo w)))
          (weekContainsHoliday tz (startDate w) (endDate w) hol)
          (isWeekInHolidayPeriod (startDate w) (endDate w) (YearFromDay (startDate w)))
          (notes w)).
Proof.
  intros Hs He Hq1 Ht1 Hq2 Ht2.
  destruct (high_props _ (format_chars _ Hs)) as (Hsq & _ & _ & Hst).
  destruct (high_props _ (format_chars _ He)) as (Heq & _ & _ & Het).
  erewrite decode_row_five.
  2:{ unfold csv_row. rewrite parse_row_five. cbn [map].
      rewrite (field_read_back (formatDateYYYYMMDD (startDate w))), (field_read_back (formatDateYYYYMMDD (endDate w))), (field_read_back (getPersonName people (assignedTo w))), (field_read_back (notes w)) by assumption.
      reflexivity. }
  rewrite !format_parse by assumption. reflexivity.
Qed.

(** The line-level shape of an exported row. *)
Lemma csv_row_line tz people hol w :
  (1000 <= YearFromDay (startDate w) <= 9999) ->
  (1000 <= YearFromDay (endDate w) <= 9999) ->
  Forall (fun h => ~ In NL (hdate h) /\ ~ In NL (hname h)) hol ->
  (length (getHolidaysInWeek tz hol (startDate w) (endDate w)) <= 1)%nat ->
  ~ In NL (getPersonName people (assignedTo w)) ->
  ~ In NL (notes w) -> trim (notes w) = notes w ->
  ~ In NL (csv_row tz people hol w) /\ strip_cr (csv_row tz people hol w) = csv_row tz people hol w
  /\ trim (csv_row tz people hol w) <> [].
Proof.
  intros Hs He Hh Hl Hn1 Hn2 Ht2.
  destruct (high_props _ (format_chars _ Hs)) as (Hsq & Hsc & Hsn & _).
  destruct (high_props _ (format_chars _ He)) as (Heq & Hec & Hen & _).
  split; [|split].
  - unfold csv_row. apply join_no_nl; [vm_compute; intuition discriminate|].
    repeat apply List.Forall_cons; try apply List.Forall_nil; apply escapeCSV_no_nl;
      try assumption. apply holidaysStr_no_nl; assumption.
  - apply strip_cr_id. intros c r.
    assert (E : csv_row tz people hol w =
      (escapeCSV (formatDateYYYYMMDD (startDate w)) ++ COMMA ::
       escapeCSV (formatDateYYYYMMDD (endDate w)) ++ COMMA ::
       escapeCSV (getPersonName people (assignedTo w)) ++ COMMA ::
       escapeCSV (holidaysStr tz hol w)) ++ COMMA :: escapeCSV (notes w)).
    { unfold csv_row. cbn [join app].
      repeat (rewrite <- app_assoc || rewrite <- app_comm_cons). reflexivity. }
    rewrite E, rev_app_distr. cbn [rev]. rewrite <- app_assoc. cbn [app].
    destruct (rev (escapeCSV (notes w))) as [|c' r'] eqn:Er; cbn [app].
    + intros H. injection H as <- _. vm_compute. discriminate.
    + intros H. injection H as <- _. exact (escape_last _ _ _ Ht2 Er).
  - apply (trim_nonempty _ "-"%char); [|reflexivity].
    unfold csv_row. cbn [join]. apply in_app_iff. left.
    rewrite escapeCSV_plain by assumption. unfold formatDateYYYYMMDD.
    apply in_app_iff. right. left. reflexivity.
Qed.
Lemma NoDup_map_inj {A B} (f : A -> B) l x y :
  NoDup (map f l) -> In x l -> In y l -> f x = f y -> x = y.
Proof.
  induction l as [|a l IH]; [intros _ []|].
  cbn [map]. intros Hnd Hx Hy E. apply NoDup_cons in Hnd as [Hn Hnd].
  destruct Hx as [<-|Hx]; destruct Hy as [<-|Hy]; try reflexivity.
  - exfalso. apply Hn. apply list_elem_of_In. rewrite E. apply in_map, Hy.
  - exfalso. apply Hn. apply list_elem_of_In. rewrite <- E. apply in_map, Hx.
  - exact (IH Hnd Hx Hy E).
Qed.

Lemma name_lookup_none people nm :
  Forall (fun p => toLowerCase (pname p) <> toLowerCase nm) people ->
  find (fun p => jeqb (toLowerCase (pname p)) (toLowerCase nm)) people = None.
Proof.
  intros H. destruct (find _ people) as [p|] eqn:E; [|reflexivity].
  apply find_some in E as [Hin Ep]. unfold jeqb in Ep. apply bool_decide_eq_true in Ep.
  rewrite List.Forall_forall in H. exfalso. exact (H p Hin Ep).
Qed.

(** Reading back the name written for a roster id gives that id, when no
    two roster names are equal up to case. *)
Lemma person_name_id people id :
  NoDup (map (fun p => toLowerCase (pname p)) people) -> In id (map pid people) ->
  getPersonIdFromName people (getPersonName people (AId id)) = AId id.
Proof.
  intros Hnd Hid. unfold getPersonName.
  destruct (find (fun p => (pid p =? id)%Z) people) as [q|] eqn:Eq.
  - apply find_some in Eq as [Hq Eid]. apply Z.eqb_eq in Eid.
    unfold getPersonIdFromName.
    destruct (find (fun p => jeqb (toLowerCase (pname p)) (toLowerCase (pname q))) people) as [p|] eqn:Ep.
    + apply find_some in Ep as [Hp Ex]. unfold jeqb in Ex. apply bool_decide_eq_true in Ex.
      rewrite (NoDup_map_inj _ _ _ _ Hnd Hp Hq Ex), Eid. reflexivity.
    + exfalso. apply (find_none _ _ Ep) in Hq. unfold jeqb in Hq.
      rewrite bool_decide_eq_true_2 in Hq by reflexivity. discriminate.
  - exfalso. apply in_map_iff in Hid as (q & Eid & Hq).
    apply (find_none _ _ Eq) in Hq. rewrite Eid, Z.eqb_refl in Hq. discriminate.
Qed.

Lemma status_name_id people s :
  In s [HOLIDAY_PERIOD; NO_ONE_AVAILABLE; UNASSIGNED] ->
  Forall (fun p => toLowerCase (pname p) <> toLowerCase s) people ->
  getPersonIdFromName people (getPersonName people (AStr s)) = AStr s.
Proof.
  intros Hs Hf. cbn [getPersonName]. unfold getPersonIdFromName.
  rewrite name_lookup_none by exact Hf.
  destruct Hs as [<-|[<-|[<-|[]]]]; reflexivity.
Qed.

Lemma other_name_null people a :
  Forall (fun p => toLowerCase (pname p) <> toLowerCase (getPersonName people a)) people ->
  ~ In (getPersonName people a) [HOLIDAY_PERIOD; NO_ONE_AVAILABLE; UNASSIGNED] ->
  getPersonIdFromName people (getPersonName people a) = ANull.
Proof.
  intros Hf Hs. unfold getPersonIdFromName at 1. rewrite name_lookup_none by exact Hf.
  unfold jeqb. rewrite !bool_decide_eq_false_2; [reflexivity| |  |];
    intros E; apply Hs; rewrite E; cbn [In]; tauto.
Qed.

Lemma decode_rows_map tz people hol cols (g : Week -> Week) sched :
  (forall w, In w sched -> decode_row tz people hol cols (csv_row tz people hol w) = Some (g w)) ->
  decode_rows tz people hol cols (map (csv_row tz people hol) sched) = map g sched.
Proof.
  induction sched as [|w sched IH]; intros H; [reflexivity|].
  cbn [map decode_rows]. rewrite (H w (or_introl eq_refl)).
  rewrite IH by (intros w' Hw'; apply H; right; exact Hw'). reflexivity.
Qed.

Lemma map_lookup {A B} (f : A -> B) l i : map f l !! i = option_map f (l !! i).
Proof. revert i. induction l as [|x l IH]; intros [|i]; cbn; auto. Qed.

Lemma filter_all {A} (f : A -> bool) l : (forall x, In x l -> f x = true) -> List.filter f l = l.
Proof.
  induction l as [|x l IH]; intros H; [reflexivity|]. cbn [List.filter].
  rewrite (H x (or_introl eq_refl)), IH by (intros y Hy; apply H; right; exact Hy). reflexivity.
Qed.


(** C5: exporting a non-empty schedule to CSV and importing that CSV with
    the same roster and holiday list succeeds and gives one week per
    exported week, in order, with the same start and end dates and the same
    notes. This holds when every date has a four-digit year, each week has
    at most one holiday, holiday dates and names hold no line break, and
    notes and written names hold no line break and no double quote and have
    no surrounding white space. A week in the year-end blackout window comes
    back as Holiday Period. Any other week comes back with its person when
    the id is in the roster and no two roster names are equal up to case,
    with its status when the status matches no roster name, and with no
    assignment (null) when the written name matches no roster name up to
    case and is not one of the three statuses. *)
Theorem exportScheduleCSV_importScheduleCSV_round_trip tz people hol schedule :
  schedule <> [] ->
  Forall (fun h => ~ In NL (hdate h) /\ ~ In NL (hname h)) hol ->
  Forall (fun w =>
     1000 <= YearFromDay (startDate w) <= 9999 /\
     1000 <= YearFromDay (endDate w) <= 9999 /\
     (length (getHolidaysInWeek tz hol (startDate w) (endDate w)) <= 1)%nat /\
     ~ In QUOTE (notes w) /\ ~ In NL (notes w) /\ trim (notes w) = notes w /\
     ~ In QUOTE (getPersonName people (assignedTo w)) /\
     ~ In NL (getPersonName people (assignedTo w)) /\
     trim (getPersonName people (assignedTo w)) = getPersonName people (assignedTo w)) schedule ->
  exists csv ws,
    exportScheduleCSV tz people hol schedule = Some csv /\
    importScheduleCSV tz people hol csv = ImportOk ws /\
    length ws = length schedule /\
    forall i w w', schedule !! i = Some w -> ws !! i = Some w' ->
      startDate w' = startDate w /\ endDate w' = endDate w /\ notes w' = notes w /\
      hasHoliday w' = weekContainsHoliday tz (startDate w) (endDate w) hol /\
      isHolidayPeriod w' = isWeekInHolidayPeriod (startDate w) (endDate w) (YearFromDay (startDate w)) /\
      (isHolidayPeriod w' = true -> assignedTo w' = AStr HOLIDAY_PERIOD) /\
      (isHolidayPeriod w' = false ->
        (NoDup (map (fun p => toLowerCase (pname p)) people) ->
           forall id, assignedTo w = AId id -> In id (map pid people) -> assignedTo w' = AId id) /\
        (forall s, assignedTo w = AStr s -> In s [HOLIDAY_PERIOD; NO_ONE_AVAILABLE; UNASSIGNED] ->
           Forall (fun p => toLowerCase (pname p) <> toLowerCase s) people -> assignedTo w' = AStr s) /\
        (Forall (fun p => toLowerCase (pname p) <> toLowerCase (getPersonName people (assignedTo w))) people ->
           ~ In (getPersonName people (assignedTo w)) [HOLIDAY_PERIOD; NO_ONE_AVAILABLE; UNASSIGNED] ->
           assignedTo w' = ANull)).
Proof.
  intros Hne Hhol Hw. rewrite List.Forall_forall in Hw.
  set (hdr := join [COMMA] CSV_HEADERS).
  set (rows := map (csv_row tz people hol) schedule).
  exists (join [NL] (hdr :: rows)), (map (round_trip_week tz people hol) schedule).
  assert (Hrows : forall r, In r rows ->
            ~ In NL r /\ strip_cr r = r /\ trim r <> []).
  { intros r Hr. apply in_map_iff in Hr as (w & <- & Hin).
    destruct (Hw w Hin) as (H1 & H2 & H3 & H4 & H5 & H6 & H7 & H8 & H9).
    apply csv_row_line; assumption. }
  assert (Hhdr : ~ In NL hdr /\ strip_cr hdr = hdr /\ trim hdr <> []).
  { split; [|split]; [apply includes_false; vm_compute; reflexivity
                    | vm_compute; reflexivity | vm_compute; discriminate]. }
  assert (Hlines : csv_lines (join [NL] (hdr :: rows)) = hdr :: rows).
  { unfold csv_lines. rewrite split_lines_join.
    - apply filter_all. intros l [<-|Hl].
      + destruct Hhdr as (_ & _ & Ht). unfold jeqb. rewrite bool_decide_eq_false_2 by exact Ht. reflexivity.
      + destruct (Hrows l Hl) as (_ & _ & Ht). unfold jeqb. rewrite bool_decide_eq_false_2 by exact Ht. reflexivity.
    - discriminate.
    - apply List.Forall_cons; [tauto|]. apply List.Forall_forall. intros l Hl. specialize (Hrows l Hl). tauto. }
  assert (Hdec : decode_rows tz people hol [0; 1; 2; 3; 4]%nat rows = map (round_trip_week tz people hol) schedule).
  { apply decode_rows_map. intros w Hin.
    destruct (Hw w Hin) as (H1 & H2 & H3 & H4 & H5 & H6 & H7 & H8 & H9).
    unfold round_trip_week. apply csv_row_read; assumption. }
  split; [|split; [|split]].
  - destruct schedule; [contradiction|reflexivity].
  - rewrite (importScheduleCSV_rows tz people hol _ hdr rows Hlines).
    + unfold import_rows. rewrite Hdec. destruct schedule; [contradiction|reflexivity].
    + unfold rows. destruct schedule; [contradiction|discriminate].
    + vm_compute. reflexivity.
  - apply length_map.
  - intros i w w' Hi Hi'. rewrite map_lookup, Hi in Hi'. cbn [option_map] in Hi'.
    injection Hi' as <-.
    assert (Hin : In w schedule) by (apply list_elem_of_In; eapply list_elem_of_lookup_2; exact Hi).
    unfold round_trip_week. cbn [startDate endDate notes hasHoliday isHolidayPeriod assignedTo].
    split; [reflexivity|]. split; [reflexivity|]. split; [reflexivity|].
    split; [reflexivity|]. split; [reflexivity|].
    split; [intros ->; reflexivity|].
    intros ->. split; [|split].
    + intros Hnd id Ha Hid. rewrite Ha. apply person_name_id; assumption.
    + intros s Ha Hs Hf. rewrite Ha. apply status_name_id; assumption.
    + apply other_name_null.
Qed.

(** The round trip on a two-week schedule with a comma in a note and a
    Holiday Period week. *)
Lemma exportScheduleCSV_importScheduleCSV_round_trip_witness :
  exists csv ws,
    exportScheduleCSV 0 [mkPerson 1 (s2l "Person 1") []] []
      [mkWeek 20095 20101 (AId 1) false false (s2l "swap, see email");
       mkWeek 20444 20450 (AStr HOLIDAY_PERIOD) false true []] = Some csv /\
    importScheduleCSV 0 [mkPerson 1 (s2l "Person 1") []] [] csv = ImportOk ws /\
    length ws = 2%nat.
Proof.
  destruct (exportScheduleCSV_importScheduleCSV_round_trip 0 [mkPerson 1 (s2l "Person 1") []] []
    [mkWeek 20095 20101 (AId 1) false false (s2l "swap, see email");
     mkWeek 20444 20450 (AStr HOLIDAY_PERIOD) false true []])
    as (csv & ws & E & I & L & _).
  - discriminate.
  - apply List.Forall_nil.
  - apply List.Forall_cons; [|apply List.Forall_cons; [|apply List.Forall_nil]];
      repeat split; try (vm_compute; reflexivity); try (vm_compute; discriminate);
      try (apply includes_false; vm_compute; reflexivity); try (apply Nat.leb_le; vm_compute; reflexivity).
  - exists csv, ws. split; [exact E|]. split; [exact I|]. exact L.
Defined.

(** The conditions of C5 on notes, holidays and years are needed. A note
    with a line break comes back cut at the line break, because the
    exported row is split there. A double quote in a note is dropped by the
    quote toggling of the row reader. A note with leading white space comes
    back trimmed. A week with two holidays is written with the holidays
    joined by a line break, so its row is split in two lines that are both
    skipped, and the import fails. A week in year 999 is written as a three-digit year that
    the date parser rejects, so the import fails. *)
Lemma exportScheduleCSV_importScheduleCSV_newline_note :
  let P1 := [mkPerson 1 (s2l "Person 1") []] in
  let H2 := [mkHoliday (s2l "2025-01-08") (s2l "A"); mkHoliday (s2l "2025-01-09") (s2l "B")] in
  let NoData := ImportError (s2l "No valid schedule data could be imported from the CSV.") in
  option_map (importScheduleCSV 0 P1 [])
    (exportScheduleCSV 0 P1 []
       [mkWeek 20095 20101 (AId 1) false false (s2l "line1" ++ NL :: s2l "line2")]) =
  Some (ImportOk [mkWeek 20095 20101 (AId 1) false false (s2l "line1")]) /\
  option_map (importScheduleCSV 0 P1 [])
    (exportScheduleCSV 0 P1 []
       [mkWeek 20095 20101 (AId 1) false false (s2l "say " ++ QUOTE :: s2l "hi" ++ QUOTE :: s2l " now")]) =
  Some (ImportOk [mkWeek 20095 20101 (AId 1) false false (s2l "say hi now")]) /\
  option_map (importScheduleCSV 0 P1 [])
    (exportScheduleCSV 0 P1 [] [mkWeek 20095 20101 (AId 1) false false (s2l " padded")]) =
  Some (ImportOk [mkWeek 20095 20101 (AId 1) false false (s2l "padded")]) /\
  option_map (importScheduleCSV 0 P1 H2)
    (exportScheduleCSV 0 P1 H2 [mkWeek 20095 20101 (AId 1) true false []]) = Some NoData /\
  option_map (importScheduleCSV 0 P1 [])
    (exportScheduleCSV 0 P1 [] [mkWeek (-354644) (-354640) (AId 1) false false []]) = Some NoData.
Proof. vm_compute. repeat split. Qed.

End RoundTrip.

(* ------------------------------------------------------------------ *)
(** ** Roster, leave, week and title handlers; generator and import *)

Section Handlers.
Local Open Scope Z_scope.

Lemma getMondayBefore_range d : WeekDay (getMondayBefore d) = 1 /\ d - 6 <= getMondayBefore d <= d.
Proof.
  unfold getMondayBefore. cbv zeta. rewrite addDays_spec. unfold WeekDay.
  destruct (Z.eqb_spec ((d + 4) mod 7) 0) as [E|E];
    pose proof (Z.mod_pos_bound (d + 4) 7 ltac:(lia));
    Z.div_mod_to_equations; lia.
Qed.

Lemma getFridayAfter_range d : WeekDay (getFridayAfter d) = 5 /\ d <= getFridayAfter d <= d + 6.
Proof.
  unfold getFridayAfter. cbv zeta. rewrite addDays_spec. unfold WeekDay.
  destruct (Z.eqb_spec ((d + 4) mod 7) 6) as [E|E];
    pose proof (Z.mod_pos_bound (d + 4) 7 ltac:(lia));
    Z.div_mod_to_equations; lia.
Qed.

Lemma LeapOfYear_range y : 0 <= LeapOfYear y <= 1.
Proof. unfold LeapOfYear. destruct (DaysInYear y =? 366); lia. Qed.

Lemma DateUTC_Dec25 y :
  DateUTC y 11 25 =
  DayFromYear (if (0 <=? y) && (y <=? 99) then 1900 + y else y) + 358
  + LeapOfYear (if (0 <=? y) && (y <=? 99) then 1900 + y else y).
Proof.
  unfold DateUTC, MakeDay. cbv zeta.
  set (yr := if (0 <=? y) && (y <=? 99) then 1900 + y else y).
  change (11 / 12) with 0. change (11 mod 12) with 11. replace (yr + 0) with yr by lia.
  replace (MonthStart 11 (LeapOfYear yr)) with (334 + LeapOfYear yr) by reflexivity. lia.
Qed.



(** Outside the years -271821 to 275759, Dec 25 of the year is outside
    the [Date] range, so [getHolidayPeriod] of the code returns [null]. *)
Lemma getHolidayPeriod_christmas_out_of_range y :
  y < -271821 \/ 275759 < y ->
  DateUTC y 11 25 < -100000000 \/ 100000000 < DateUTC y 11 25.
Proof.
  intros Hy. rewrite DateUTC_Dec25.
  pose proof (LeapOfYear_range (if (0 <=? y) && (y <=? 99) then 1900 + y else y)).
  destruct Hy as [Hy|Hy].
  - assert (E : (0 <=? y) && (y <=? 99) = false)
      by (apply andb_false_iff; left; apply Z.leb_gt; lia).
    rewrite E in *. cbv iota in *.
    pose proof (DayFromYear_mono y (-271822) ltac:(lia)).
    assert (DayFromYear (-271822) = -100000474) by (vm_compute; reflexivity). lia.
  - assert (E : (0 <=? y) && (y <=? 99) = false)
      by (apply andb_false_iff; right; apply Z.leb_gt; lia).
    rewrite E in *. cbv iota in *.
    pose proof (DayFromYear_mono 275760 y ltac:(lia)).
    assert (DayFromYear 275760 = 99999744) by (vm_compute; reflexivity). lia.
Qed.

Lemma undouble_double s : undouble_quotes (double_quotes s) = s.
Proof.
  induction s as [|c r IH]; [reflexivity|]. cbn [double_quotes].
  destruct (Ascii.eqb_spec c QUOTE) as [->|Hc].
  - cbn [undouble_quotes]. rewrite Ascii.eqb_refl. cbn [andb]. rewrite IH. reflexivity.
  - transitivity (c :: undouble_quotes (double_quotes r)); [|rewrite IH; reflexivity].
    destruct (double_quotes r) as [|c' r']; [reflexivity|].
    change (undouble_quotes (c :: c' :: r')) with
      (if Ascii.eqb c QUOTE && Ascii.eqb c' QUOTE then QUOTE :: undouble_quotes r'
       else c :: undouble_quotes (c' :: r')).
    destruct (Ascii.eqb_spec c QUOTE); [contradiction|reflexivity].
Qed.

Lemma removelast_tl_wrap (x : ascii) s : removelast (tl (x :: s ++ [x])) = s.
Proof. cbn [tl]. apply removelast_last. Qed.

(** [unescapeCSV] undoes [escapeCSV] on every string. *)
Theorem unescape_escape s : unescapeCSV (escapeCSV s) = s.
Proof.
  unfold escapeCSV.
  destruct (includes s COMMA || includes s NL || includes s QUOTE) eqn:E.
  - assert (R : rev (QUOTE :: double_quotes s ++ [QUOTE]) = QUOTE :: rev (QUOTE :: double_quotes s))
      by (rewrite app_comm_cons, rev_app_distr; reflexivity).
    unfold unescapeCSV. rewrite R. rewrite Ascii.eqb_refl. cbn [andb].
    rewrite removelast_tl_wrap. apply undouble_double.
  - apply orb_false_iff in E as [_ Hq]. unfold unescapeCSV.
    destruct s as [|c r]; [reflexivity|].
    destruct (rev (c :: r)) as [|c' r'] eqn:R; [reflexivity|].
    destruct (Ascii.eqb_spec c QUOTE) as [->|]; [|reflexivity].
    cbn [includes existsb] in Hq. rewrite Ascii.eqb_refl in Hq. discriminate.
Qed.

(** The holidays listed for a week (export) are non-empty exactly when the week is flagged as containing a holiday: both use the same date window. *)
Theorem getHolidaysInWeek_nonempty tz hol s e :
  getHolidaysInWeek tz hol s e <> [] <-> weekContainsHoliday tz s e hol = true.
Proof.
  unfold getHolidaysInWeek, weekContainsHoliday. induction hol as [|h hol IH]; cbn [List.filter existsb].
  - split; [congruence|discriminate].
  - destruct (match parseUTCMidnight (hdate h) with Some _ => _ | None => false end); cbn [orb].
    + split; [reflexivity|discriminate].
    + exact IH.
Qed.

Lemma filter_map_length {A B} (f : A -> B) (p : B -> bool) l :
  length (List.filter p (map f l)) = length (List.filter (fun x => p (f x)) l).
Proof. induction l as [|x l IH]; cbn [map List.filter]; [reflexivity|]. destruct (p (f x)); cbn [length]; auto. Qed.

Lemma filter_length_ext {A} (p q : A -> bool) l :
  (forall x, In x l -> p x = q x) -> length (List.filter p l) = length (List.filter q l).
Proof.
  induction l as [|x l IH]; intros H; cbn [List.filter]; [reflexivity|].
  rewrite (H x (or_introl eq_refl)). destruct (q x); cbn [length]; rewrite IH by (intros y Hy; apply H; right; exact Hy); reflexivity.
Qed.

Lemma removePerson_fst schedule people id : fst (removePerson schedule people id) = map (unassign_week id) schedule.
Proof. reflexivity. Qed.

Lemma unassign_week_duty id k w : k <> id ->
  is_duty k (unassign_week id w) = is_duty k w /\ hasHoliday (unassign_week id w) = hasHoliday w.
Proof.
  intros Hk. unfold unassign_week, is_duty. destruct (assignedTo w) as [n| |] eqn:E; [|rewrite ?E; split; reflexivity..].
  destruct (Z.eqb_spec n id) as [->|]; cbn [assignedTo hasHoliday]; [|rewrite E; split; reflexivity].
  split; [|reflexivity]. symmetry. apply Z.eqb_neq. intros ->. apply Hk. reflexivity.
Qed.

(** After [removePerson], no week is assigned to the removed id, the id is gone from the roster and from the recounted totals, and every other id keeps its totals. *)
Theorem removePerson_recount schedule people id :
  (forall w, In w (fst (removePerson schedule people id)) -> assignedTo w <> AId id) /\
  ~ In id (map pid (snd (removePerson schedule people id))) /\
  recalculateAssignments (snd (removePerson schedule people id)) (fst (removePerson schedule people id)) !! id = None /\
  (forall k, k <> id ->
     recalculateAssignments (snd (removePerson schedule people id)) (fst (removePerson schedule people id)) !! k
     = recalculateAssignments people schedule !! k).
Proof.
  assert (Hnot : ~ In id (map pid (snd (removePerson schedule people id)))).
  { cbn [snd removePerson]. intros Hin. apply in_map_iff in Hin as (p & Ep & Hp).
    apply filter_In in Hp as [_ Hp]. rewrite Ep, Z.eqb_refl in Hp. discriminate. }
  split; [|split; [exact Hnot|split]].
  - rewrite removePerson_fst. intros w Hw. apply in_map_iff in Hw as (w0 & <- & _).
    unfold unassign_week. destruct (assignedTo w0) as [n| |] eqn:E; [|rewrite E; discriminate..].
    destruct (Z.eqb_spec n id) as [->|Hn]; cbn [assignedTo]; [discriminate|].
    rewrite E. intros [= ->]. apply Hn. reflexivity.
  - rewrite recalculateAssignments_lookup. rewrite bool_decide_eq_false_2; [reflexivity|].
    rewrite list_elem_of_In. exact Hnot.
  - intros k Hk. rewrite !recalculateAssignments_lookup.
    assert (Hm : bool_decide (k ∈ map pid (snd (removePerson schedule people id))) = bool_decide (k ∈ map pid people)).
    { apply bool_decide_ext. rewrite !list_elem_of_In. cbn [snd removePerson]. split.
      - intros Hin. apply in_map_iff in Hin as (p & Ep & Hp). apply filter_In in Hp as [Hp _].
        apply in_map_iff. exists p. auto.
      - intros Hin. apply in_map_iff in Hin as (p & Ep & Hp). apply in_map_iff. exists p. split; [exact Ep|].
        apply filter_In. split; [exact Hp|]. rewrite Ep. apply negb_true_iff, Z.eqb_neq. exact Hk. }
    rewrite Hm. destruct (bool_decide (k ∈ map pid people)); [|reflexivity].
    rewrite removePerson_fst. unfold duty_count, holiday_duty_count. rewrite !filter_map_length.
    f_equal. f_equal.
    + apply filter_length_ext. intros w _. apply (unassign_week_duty id k w Hk).
    + apply filter_length_ext. intros w _. destruct (unassign_week_duty id k w Hk) as [-> ->]. reflexivity.
Qed.

Lemma list_max_ge i r x : In x (i :: r) -> x <= list_max i r.
Proof.
  unfold list_max. revert i x. induction r as [|y r IH]; intros i x Hx; cbn [fold_left].
  - destruct Hx as [->|[]]. lia.
  - destruct Hx as [->|[->|Hx]].
    + transitivity (Z.max x y); [lia|]. apply IH. left. reflexivity.
    + transitivity (Z.max i x); [lia|]. apply IH. left. reflexivity.
    + apply IH. right. exact Hx.
Qed.

Lemma addPerson_cases people name :
  (trim name = [] \/ (MAX_PEOPLE <= length people)%nat -> addPerson people name = (people, name)) /\
  (trim name <> [] -> (length people < MAX_PEOPLE)%nat ->
     exists newId, addPerson people name = (people ++ [mkPerson newId (trim name) []], []) /\
                   Forall (fun p => pid p < newId) people).
Proof.
  split.
  - intros H. unfold addPerson. cbv zeta.
    destruct H as [H|H].
    + rewrite H. reflexivity.
    + assert (E : (length people <? MAX_PEOPLE)%nat = false) by (apply Nat.ltb_ge; exact H).
      rewrite E, andb_false_r. reflexivity.
  - intros Hn Hl. unfold addPerson. cbv zeta. unfold jeqb. rewrite bool_decide_eq_false_2 by exact Hn.
    assert (E : (length people <? MAX_PEOPLE)%nat = true) by (apply Nat.ltb_lt; exact Hl).
    rewrite E. cbn [negb andb].
    destruct (map pid people) as [|i r] eqn:Em.
    + exists 1. split; [reflexivity|]. destruct people; [constructor|discriminate].
    + exists (list_max i r + 1). split; [reflexivity|].
      apply List.Forall_forall. intros p Hp.
      assert (Hin : In (pid p) (i :: r)) by (rewrite <- Em; apply in_map; exact Hp).
      pose proof (list_max_ge i r (pid p) Hin). lia.
Qed.

(** [addPerson] ignores a blank name and a full roster (20 people); otherwise it appends a person with the trimmed name, no leave, and an id larger than every id in the roster, and clears the input. *)
Theorem addPerson_spec people name :
  (trim name = [] \/ (MAX_PEOPLE <= length people)%nat -> addPerson people name = (people, name)) /\
  (trim name <> [] -> (length people < MAX_PEOPLE)%nat ->
     exists newId, addPerson people name = (people ++ [mkPerson newId (trim name) []], []) /\
                   Forall (fun p => pid p < newId) people).
Proof. apply addPerson_cases. Qed.

(** [addPerson] keeps the roster ids distinct and the roster at most 20 people long. *)
Theorem addPerson_invariants people name :
  NoDup (map pid people) -> (length people <= MAX_PEOPLE)%nat ->
  NoDup (map pid (fst (addPerson people name))) /\ (length (fst (addPerson people name)) <= MAX_PEOPLE)%nat.
Proof.
  intros Hnd Hl. destruct (addPerson_cases people name) as [H1 H2].
  destruct (bool_decide (trim name = [])) eqn:Et.
  - apply bool_decide_eq_true in Et. rewrite H1 by (left; exact Et). cbn [fst]. auto.
  - apply bool_decide_eq_false in Et.
    destruct (Nat.lt_ge_cases (length people) MAX_PEOPLE) as [Hlt|Hge].
    + destruct (H2 Et Hlt) as (newId & -> & Hf). cbn [fst]. split.
      * rewrite map_app. cbn [map pid]. apply NoDup_app. split; [exact Hnd|]. split.
        -- intros x Hx Hy. apply list_elem_of_singleton in Hy. subst x.
           apply list_elem_of_In, in_map_iff in Hx as (p & Ep & Hp).
           rewrite List.Forall_forall in Hf. specialize (Hf p Hp). lia.
        -- apply NoDup_singleton.
      * rewrite length_app. cbn [length]. lia.
    + rewrite H1 by (right; exact Hge). cbn [fst]. auto.
Qed.

Lemma recalculateAssignments_same_ids p1 p2 s :
  map pid p1 = map pid p2 -> recalculateAssignments p1 s = recalculateAssignments p2 s.
Proof.
  intros E. apply map_eq. intros k. rewrite !recalculateAssignments_lookup, E. reflexivity.
Qed.

Lemma updatePersonName_lookup people id newName i :
  updatePersonName people id newName !! i =
  (fun p => if (pid p =? id)%Z then mkPerson (pid p) (trim newName) (leave p) else p) <$> people !! i.
Proof.
  unfold updatePersonName. revert i.
  induction people as [|q r IH]; intros [|i]; cbn; [reflexivity..|apply IH].
Qed.

(** [updatePersonName] changes only the name of the matching person (to the trimmed new name): every person whose id is not the given one is kept unchanged at the same position; ids, leave and the recounted totals stay the same. *)
Theorem updatePersonName_keeps_counts people id newName schedule :
  map pid (updatePersonName people id newName) = map pid people /\
  map leave (updatePersonName people id newName) = map leave people /\
  (forall p, In p (updatePersonName people id newName) -> pid p = id -> pname p = trim newName) /\
  (forall i p, people !! i = Some p -> pid p <> id -> updatePersonName people id newName !! i = Some p) /\
  recalculateAssignments (updatePersonName people id newName) schedule = recalculateAssignments people schedule.
Proof.
  assert (Hids : map pid (updatePersonName people id newName) = map pid people).
  { unfold updatePersonName. rewrite map_map. apply map_ext. intros p.
    destruct (pid p =? id); reflexivity. }
  split; [exact Hids|]. split; [|split; [|split]].
  - unfold updatePersonName. rewrite map_map. apply map_ext. intros p. destruct (pid p =? id); reflexivity.
  - intros p Hp Hid. unfold updatePersonName in Hp. apply in_map_iff in Hp as (q & <- & _).
    destruct (Z.eqb_spec (pid q) id) as [E|E]; [reflexivity|]. contradiction.
  - intros i p Hp Hne. rewrite updatePersonName_lookup, Hp. cbn.
    destruct (Z.eqb_spec (pid p) id); [contradiction|reflexivity].
  - apply recalculateAssignments_same_ids. exact Hids.
Qed.

Lemma leave_present_In l ld le : leave_present l ld le = true <-> In (mkLeave ld le) l.
Proof.
  unfold leave_present. rewrite existsb_exists. split.
  - intros (x & Hx & E). apply andb_true_iff in E as [E1 E2]. unfold jeqb in E1, E2.
    apply bool_decide_eq_true in E1, E2. destruct x; cbn in *. subst. exact Hx.
  - intros H. exists (mkLeave ld le). split; [exact H|]. unfold jeqb. cbn [lstart lend].
    rewrite !bool_decide_eq_true_2 by reflexivity. reflexivity.
Qed.

Lemma addLeave_accepted people sel ld le :
  ld <> [] -> le <> [] -> ~ start_after_end ld le ->
  addLeave people (Some sel) ld le =
  map (fun person =>
         if (pid person =? sel)%Z then
           if leave_present (leave person) ld le then person
           else mkPerson (pid person) (pname person) (leave person ++ [mkLeave ld le])
         else person) people.
Proof.
  intros H1 H2 H3. unfold addLeave. unfold jeqb at 1 2.
  rewrite !bool_decide_eq_false_2 by assumption. cbn [orb].
  destruct (parseUTCMidnight ld) as [s|] eqn:Es; destruct (parseUTCMidnight le) as [e|] eqn:Ee;
    try reflexivity.
  destruct (Z.ltb_spec e s); [|reflexivity].
  exfalso. apply H3. exists s, e. auto.
Qed.

Lemma addLeave_cases people sel ld le :
  addLeave people (Some sel) ld le = people \/
  addLeave people (Some sel) ld le = map (add_leave_to sel ld le) people.
Proof.
  unfold addLeave. destruct (jeqb ld [] || jeqb le []); [left; reflexivity|].
  destruct (match parseUTCMidnight ld, parseUTCMidnight le with
            | Some s, Some e => (e <? s)%Z | _, _ => false end); [left; reflexivity|].
  right. reflexivity.
Qed.

Lemma add_leave_to_fields sel ld le p :
  pid (add_leave_to sel ld le p) = pid p /\ pname (add_leave_to sel ld le p) = pname p /\
  (NoDup (leave p) -> NoDup (leave (add_leave_to sel ld le p))).
Proof.
  unfold add_leave_to. destruct (pid p =? sel); [|auto].
  destruct (leave_present (leave p) ld le) eqn:E; [auto|]. cbn [pid pname leave].
  split; [reflexivity|]. split; [reflexivity|]. intros Hnd.
  apply NoDup_app. split; [exact Hnd|]. split; [|apply NoDup_singleton].
  intros x Hx Hy. apply list_elem_of_singleton in Hy. subst x.
  apply list_elem_of_In, leave_present_In in Hx. congruence.
Qed.

(** [addLeave] keeps the roster ids and names and the absence of duplicate leave entries; a start date after the end date changes nothing; otherwise only the selected person changes, and gets the period appended unless it is already listed. *)
Theorem addLeave_spec people sel ld le :
  map pid (addLeave people (Some sel) ld le) = map pid people /\
  map pname (addLeave people (Some sel) ld le) = map pname people /\
  (forall i p p', people !! i = Some p -> addLeave people (Some sel) ld le !! i = Some p' ->
     NoDup (leave p) -> NoDup (leave p')) /\
  (start_after_end ld le -> addLeave people (Some sel) ld le = people) /\
  (ld <> [] -> le <> [] -> ~ start_after_end ld le ->
   forall i p p', people !! i = Some p -> addLeave people (Some sel) ld le !! i = Some p' ->
     (pid p <> sel -> p' = p) /\
     (pid p = sel -> In (mkLeave ld le) (leave p) -> p' = p) /\
     (pid p = sel -> ~ In (mkLeave ld le) (leave p) -> leave p' = leave p ++ [mkLeave ld le])).
Proof.
  split; [|split; [|split; [|split]]].
  - destruct (addLeave_cases people sel ld le) as [->| ->]; [reflexivity|].
    rewrite map_map. apply map_ext. intros p. apply add_leave_to_fields.
  - destruct (addLeave_cases people sel ld le) as [->| ->]; [reflexivity|].
    rewrite map_map. apply map_ext. intros p. apply add_leave_to_fields.
  - intros i p p' Hp Hp'. destruct (addLeave_cases people sel ld le) as [E|E]; rewrite E in Hp'.
    + rewrite Hp in Hp'. injection Hp' as <-. auto.
    + rewrite map_lookup, Hp in Hp'. injection Hp' as <-. apply add_leave_to_fields.
  - intros (s & e & Es & Ee & Hlt). unfold addLeave.
    destruct (jeqb ld [] || jeqb le []); [reflexivity|]. rewrite Es, Ee.
    assert (E : (e <? s)%Z = true) by (apply Z.ltb_lt; exact Hlt). rewrite E. reflexivity.
  - intros H1 H2 H3 i p p' Hp Hp'. rewrite (addLeave_accepted people sel ld le H1 H2 H3) in Hp'.
    rewrite map_lookup, Hp in Hp'. cbn [option_map] in Hp'.
    injection Hp' as <-. split; [|split].
    + intros Hne. apply Z.eqb_neq in Hne. rewrite Hne. reflexivity.
    + intros Hid Hin. rewrite Hid, Z.eqb_refl. apply leave_present_In in Hin. rewrite Hin. reflexivity.
    + intros Hid Hin. rewrite Hid, Z.eqb_refl.
      destruct (leave_present (leave p) ld le) eqn:E; [apply leave_present_In in E; contradiction|].
      reflexivity.
Qed.

(** [removeLeave] keeps ids and names; out of range it changes nothing; in range it removes exactly the entry at the index from the selected person, shifting the later entries down. *)
Theorem removeLeave_spec people personId leaveIndex :
  map pid (removeLeave people personId leaveIndex) = map pid people /\
  map pname (removeLeave people personId leaveIndex) = map pname people /\
  forall i p p', people !! i = Some p -> removeLeave people personId leaveIndex !! i = Some p' ->
    (pid p <> personId -> p' = p) /\
    (pid p = personId -> ~ (0 <= leaveIndex < Z.of_nat (length (leave p))) -> p' = p) /\
    (pid p = personId -> 0 <= leaveIndex < Z.of_nat (length (leave p)) ->
       length (leave p') = pred (length (leave p)) /\
       forall j, leave p' !! j = leave p !! (if (j <? Z.to_nat leaveIndex)%nat then j else S j)).
Proof.
  split; [|split].
  - unfold removeLeave. rewrite map_map. apply map_ext. intros p. destruct (pid p =? personId); reflexivity.
  - unfold removeLeave. rewrite map_map. apply map_ext. intros p. destruct (pid p =? personId); reflexivity.
  - intros i p p' Hp Hp'. unfold removeLeave in Hp'. rewrite map_lookup, Hp in Hp'.
    cbn [option_map] in Hp'. injection Hp' as <-. split; [|split].
    + intros Hne. apply Z.eqb_neq in Hne. rewrite Hne. reflexivity.
    + intros Hid Hr. rewrite (proj2 (Z.eqb_eq _ _) Hid).
      destruct ((0 <=? leaveIndex) && (leaveIndex <? Z.of_nat (length (leave p)))) eqn:E.
      * exfalso. apply Hr. apply andb_true_iff in E as [E1 E2]. apply Z.leb_le in E1. apply Z.ltb_lt in E2. lia.
      * destruct p; reflexivity.
    + intros Hid Hr. rewrite (proj2 (Z.eqb_eq _ _) Hid).
      assert (E : ((0 <=? leaveIndex) && (leaveIndex <? Z.of_nat (length (leave p))))%Z = true)
        by (apply andb_true_iff; split; [apply Z.leb_le | apply Z.ltb_lt]; lia).
      rewrite E. cbn [leave]. set (k := Z.to_nat leaveIndex).
      assert (Hk : (k < length (leave p))%nat) by (unfold k; lia).
      split.
      * rewrite length_app, length_take, length_drop. lia.
      * intros j. destruct (Nat.ltb_spec j k).
        -- rewrite lookup_app_l by (rewrite length_take; lia). apply lookup_take_lt. exact H.
        -- rewrite lookup_app_r by (rewrite length_take; lia). rewrite lookup_drop, length_take.
           f_equal. lia.
Qed.

(** Adding a new, valid leave period to a person and then removing the last leave entry of that person restores the roster. *)
Theorem addLeave_removeLeave people sel ld le p :
  NoDup (map pid people) -> In p people -> pid p = sel ->
  ld <> [] -> le <> [] -> ~ start_after_end ld le -> ~ In (mkLeave ld le) (leave p) ->
  removeLeave (addLeave people (Some sel) ld le) sel (Z.of_nat (length (leave p))) = people.
Proof.
  intros Hnd Hp Hid H1 H2 H3 Hnin. rewrite (addLeave_accepted people sel ld le H1 H2 H3).
  unfold removeLeave. rewrite map_map. rewrite <- (map_id people) at 2. apply map_ext_in.
  intros q Hq. destruct (Z.eqb_spec (pid q) sel) as [Eq|Eq].
  - assert (q = p) as -> by (apply (NoDup_map_inj pid people); auto; congruence).
    assert (Es : (pid p =? sel) = true) by (apply Z.eqb_eq; exact Hid). cbv beta; try rewrite Es.
    destruct (leave_present (leave p) ld le) eqn:E; [apply leave_present_In in E; contradiction|].
    cbn [pid pname leave]. try rewrite Es; rewrite length_app. cbn [length].
    assert (E2 : ((0 <=? Z.of_nat (length (leave p))) && (Z.of_nat (length (leave p)) <? Z.of_nat (length (leave p) + 1)))%Z = true)
      by (apply andb_true_iff; split; [apply Z.leb_le | apply Z.ltb_lt]; lia).
    rewrite E2, Nat2Z.id, take_app_length, drop_app_ge by lia.
    rewrite Nat.sub_succ_l, Nat.sub_diag by lia. cbn [drop]. rewrite app_nil_r. destruct p; reflexivity.
  - apply Z.eqb_neq in Eq. rewrite Eq. reflexivity.
Qed.

Lemma digit_prefix_app a c :
  digit_prefix a = a -> (exists v, digit_val c = Some v) -> digit_prefix (a ++ [c]) = a ++ [c].
Proof.
  intros Ha [v Hc]. induction a as [|x a IH]; cbn [app digit_prefix] in *.
  - rewrite Hc. reflexivity.
  - destruct (digit_val x); [|discriminate]. injection Ha as Ha. rewrite IH by exact Ha. reflexivity.
Qed.

Lemma digits_aux_spec f n : 0 <= n < 10 ^ Z.of_nat (S f) ->
  digit_prefix (digits_aux (S f) n) = digits_aux (S f) n /\
  (exists c r, digits_aux (S f) n = c :: r /\ (48 <= nat_of_ascii c)%nat) /\
  forall acc, digits_val acc (digits_aux (S f) n) =
              Some (acc * 10 ^ Z.of_nat (length (digits_aux (S f) n)) + n).
Proof.
  revert n. induction f as [|f IH]; intros n Hn.
  - rewrite Nat2Z.inj_succ, Z.pow_succ_r, Z.pow_0_r in Hn by lia.
    rewrite digits_aux_small by lia. cbn [digit_prefix digits_val length].
    rewrite digit_chr by lia. split; [reflexivity|]. split.
    + exists (chr n), []. split; [reflexivity|]. rewrite chr_code by lia. lia.
    + intros acc. cbn [digits_val]. f_equal; lia.
  - destruct (Z.ltb_spec n 10) as [Hs|Hs].
    + rewrite digits_aux_small by lia. cbn [digit_prefix digits_val length].
      rewrite digit_chr by lia. split; [reflexivity|]. split.
      * exists (chr n), []. split; [reflexivity|]. rewrite chr_code by lia. lia.
      * intros acc. cbn [digits_val]. f_equal; lia.
    + rewrite digits_aux_step by lia.
      assert (Hq : 0 <= n / 10 < 10 ^ Z.of_nat (S f)).
      { rewrite Nat2Z.inj_succ, Z.pow_succ_r in Hn by lia. split; [apply Z.div_pos; lia|].
        apply Z.div_lt_upper_bound; lia. }
      destruct (IH (n / 10) Hq) as (H1 & (c & r & Hcr & Hc) & H3).
      split; [|split].
      * apply digit_prefix_app; [exact H1|]. exists (n mod 10). apply digit_chr.
        pose proof (Z.mod_pos_bound n 10). lia.
      * exists c, (r ++ [chr (n mod 10)]). rewrite Hcr. split; [reflexivity|exact Hc].
      * intros acc. rewrite digits_val_app, H3. cbn [digits_val].
        rewrite digit_chr by (pose proof (Z.mod_pos_bound n 10); lia).
        rewrite length_app. cbn [length]. f_equal.
        rewrite Nat2Z.inj_add, Z.pow_add_r by lia. cbn [Z.of_nat].
        pose proof (Z.div_mod n 10). lia.
Qed.

Lemma digit_not_sign c : (48 <= nat_of_ascii c)%nat -> c <> "-"%char /\ c <> "+"%char /\ is_ws c = false.
Proof.
  intros H. split; [|split].
  - intros ->. vm_compute in H. lia.
  - intros ->. vm_compute in H. lia.
  - unfold is_ws. cbv zeta. repeat match goal with |- context [Nat.eqb ?a ?b] => destruct (Nat.eqb_spec a b); [lia|] end.
    reflexivity.
Qed.

Lemma parseInt10_numToString_val n : Z.abs n < 10 ^ 40 -> parseInt10 (numToString n) = Some n.
Proof.
  intros Hn. unfold numToString.
  destruct (Z.ltb_spec n 0) as [Hneg|Hpos].
  - destruct (digits_aux_spec 39 (- n) ltac:(cbn [Z.of_nat]; lia)) as (H1 & (c & r & Hcr & Hc) & H3).
    unfold parseInt10. cbn [trim_start]. assert (Hw : is_ws "-"%char = false) by reflexivity. rewrite Hw.
    cbv iota beta. destruct (ascii_dec "-" "-") as [_|]; [|congruence].
    rewrite H1, Hcr. rewrite <- Hcr. cbn [option_map]. rewrite H3.
    cbn [option_map]. f_equal; lia.
  - destruct (digits_aux_spec 39 n ltac:(cbn [Z.of_nat]; lia)) as (H1 & (c & r & Hcr & Hc) & H3).
    destruct (digit_not_sign c Hc) as (Hm & Hp & Hw).
    unfold parseInt10. rewrite Hcr. cbn [trim_start]. rewrite Hw.
    destruct (ascii_dec c "-"); [contradiction|]. destruct (ascii_dec c "+"); [contradiction|].
    rewrite <- Hcr, H1, Hcr. rewrite <- Hcr, H3. cbn [option_map]. f_equal; lia.
Qed.

Lemma handleWeekAssignmentChange_at schedule i w str :
  schedule !! i = Some w ->
  handleWeekAssignmentChange schedule (Z.of_nat i) str =
  if isHolidayPeriod w then Some schedule
  else match (if jeqb str [] then Some ANull else option_map AId (parseInt10 str)) with
       | None => None
       | Some a => Some (<[i := mkWeek (startDate w) (endDate w) a (hasHoliday w) (isHolidayPeriod w) (notes w)]> schedule)
       end.
Proof.
  intros H. pose proof (lookup_lt_Some _ _ _ H) as Hl. unfold handleWeekAssignmentChange.
  assert (E : ((0 <=? Z.of_nat i) && (Z.of_nat i <? Z.of_nat (length schedule)))%Z = true)
    by (apply andb_true_iff; split; [apply Z.leb_le | apply Z.ltb_lt]; lia).
  rewrite E, Nat2Z.id, H. reflexivity.
Qed.

Lemma handleWeekAssignmentChange_numeric schedule i w id :
  schedule !! i = Some w -> isHolidayPeriod w = false -> Z.abs id <= 9007199254740991 ->
  handleWeekAssignmentChange schedule (Z.of_nat i) (numToString id) =
  Some (<[i := mkWeek (startDate w) (endDate w) (AId id) (hasHoliday w) false (notes w)]> schedule).
Proof.
  intros H Hp Hsafe. rewrite (handleWeekAssignmentChange_at _ _ _ _ H), Hp.
  assert (Hid : Z.abs id < 10 ^ 40) by (eapply Z.le_lt_trans; [exact Hsafe|reflexivity]).
  assert (Hne : jeqb (numToString id) [] = false).
  { unfold jeqb. apply bool_decide_eq_false_2. unfold numToString.
    destruct (Z.ltb_spec id 0); [discriminate|].
    destruct (digits_aux_spec 39 id) as (_ & (c & r & Hcr & _) & _); [cbn [Z.of_nat]; lia|].
    change (digits_aux 40 id <> []). rewrite Hcr. discriminate. }
  rewrite Hne, parseInt10_numToString_val by exact Hid. reflexivity.
Qed.

(** [handleWeekAssignmentChange] leaves the schedule unchanged for an index out of range and for a holiday-period week; on another week the empty choice unassigns it and the choice [String(id)] assigns [id], changing nothing else, for an id that is a safe integer (at most 2^53 - 1 in absolute value), where [String(id)] is its decimal digits. *)
Theorem handleWeekAssignmentChange_spec schedule index str :
  (~ (0 <= index < Z.of_nat (length schedule)) -> handleWeekAssignmentChange schedule index str = Some schedule) /\
  (forall i w, schedule !! i = Some w -> isHolidayPeriod w = true ->
     handleWeekAssignmentChange schedule (Z.of_nat i) str = Some schedule) /\
  (forall i w, schedule !! i = Some w -> isHolidayPeriod w = false ->
     handleWeekAssignmentChange schedule (Z.of_nat i) [] =
       Some (<[i := mkWeek (startDate w) (endDate w) ANull (hasHoliday w) false (notes w)]> schedule) /\
     forall id, Z.abs id <= 9007199254740991 ->
       handleWeekAssignmentChange schedule (Z.of_nat i) (numToString id) =
       Some (<[i := mkWeek (startDate w) (endDate w) (AId id) (hasHoliday w) false (notes w)]> schedule)).
Proof.
  split; [|split].
  - intros Hr. unfold handleWeekAssignmentChange.
    destruct ((0 <=? index) && (index <? Z.of_nat (length schedule)))%Z eqn:E; [|reflexivity].
    exfalso. apply Hr. apply andb_true_iff in E as [E1 E2]. apply Z.leb_le in E1. apply Z.ltb_lt in E2. lia.
  - intros i w H Hp. rewrite (handleWeekAssignmentChange_at _ _ _ _ H), Hp. reflexivity.
  - intros i w H Hp. split.
    + rewrite (handleWeekAssignmentChange_at _ _ _ _ H), Hp. reflexivity.
    + intros id Hid. apply handleWeekAssignmentChange_numeric; assumption.
Qed.

Lemma count_insert (p : Week -> bool) s i w w' :
  s !! i = Some w ->
  (length (List.filter p (<[i := w']> s)) + (if p w then 1 else 0) =
   length (List.filter p s) + (if p w' then 1 else 0))%nat.
Proof.
  revert i. induction s as [|x s IH]; intros i H; [discriminate|].
  destruct i as [|i]; cbn in H.
  - injection H as ->. cbn [insert list_insert List.filter]. destruct (p w), (p w'); cbn [length]; lia.
  - change (<[S i:=w']> (x :: s)) with (x :: <[i:=w']> s). cbn [List.filter]. specialize (IH i H). destruct (p x); cbn [length]; lia.
Qed.

(** Reassigning a non-holiday-period week to [id] (a safe integer, chosen as [String(id)]) moves one duty (and one holiday duty when the week has a holiday) from the previous assignee to [id] in the recounted totals; the schedule length is kept. *)
Theorem handleWeekAssignmentChange_recount people schedule i w id :
  schedule !! i = Some w -> isHolidayPeriod w = false -> Z.abs id <= 9007199254740991 ->
  exists s', handleWeekAssignmentChange schedule (Z.of_nat i) (numToString id) = Some s' /\
    length s' = length schedule /\
    forall k, In k (map pid people) ->
      exists t h t' h',
        recalculateAssignments people schedule !! k = Some (t, h) /\
        recalculateAssignments people s' !! k = Some (t', h') /\
        (t' + (if is_duty k w then 1 else 0) = t + (if (id =? k)%Z then 1 else 0))%nat /\
        (h' + (if is_duty k w && hasHoliday w then 1 else 0) =
         h + (if (id =? k)%Z && hasHoliday w then 1 else 0))%nat.
Proof.
  intros H Hp Hid.
  eexists. split; [exact (handleWeekAssignmentChange_numeric schedule i w id H Hp Hid)|]. split; [apply length_insert|].
  intros k Hk. rewrite !recalculateAssignments_lookup.
  rewrite bool_decide_eq_true_2 by (apply list_elem_of_In; exact Hk).
  do 4 eexists. split; [reflexivity|]. split; [reflexivity|]. split.
  - unfold duty_count. rewrite (count_insert (is_duty k) schedule i w _ H). reflexivity.
  - unfold holiday_duty_count.
    rewrite (count_insert (fun w0 => is_duty k w0 && hasHoliday w0) schedule i w _ H). reflexivity.
Qed.

Lemma recount_insert_same people s i w w' :
  s !! i = Some w -> assignedTo w' = assignedTo w -> hasHoliday w' = hasHoliday w ->
  recalculateAssignments people (<[i := w']> s) = recalculateAssignments people s.
Proof.
  intros H Ha Hh. apply map_eq. intros k. rewrite !recalculateAssignments_lookup.
  destruct (bool_decide _); [|reflexivity].
  assert (Hd : is_duty k w' = is_duty k w) by (unfold is_duty; rewrite Ha; reflexivity).
  unfold duty_count, holiday_duty_count.
  pose proof (count_insert (is_duty k) s i w w' H) as E1.
  pose proof (count_insert (fun w0 => is_duty k w0 && hasHoliday w0) s i w w' H) as E2.
  cbv beta in E2. rewrite Hd, Hh in E2. rewrite Hd in E1. do 2 f_equal; lia.
Qed.

(** [saveNotes] keeps the schedule length and the recounted totals, sets the trimmed notes of the selected week, and changes nothing else. *)
Theorem saveNotes_spec people schedule idx currentNotes :
  length (saveNotes schedule idx currentNotes) = length schedule /\
  (forall j w, schedule !! j = Some w ->
     saveNotes schedule idx currentNotes !! j =
     Some (mkWeek (startDate w) (endDate w) (assignedTo w) (hasHoliday w) (isHolidayPeriod w)
             (if bool_decide (idx = Some (Z.of_nat j)) then trim currentNotes else notes w))) /\
  recalculateAssignments people (saveNotes schedule idx currentNotes) = recalculateAssignments people schedule.
Proof.
  unfold saveNotes. destruct idx as [i|].
  2:{ split; [reflexivity|]. split; [|reflexivity]. intros j w H. rewrite H.
      rewrite bool_decide_eq_false_2 by discriminate. destruct w; reflexivity. }
  destruct ((0 <=? i) && (i <? Z.of_nat (length schedule)))%Z eqn:E.
  - apply andb_true_iff in E as [E1 E2]. apply Z.leb_le in E1. apply Z.ltb_lt in E2.
    destruct (schedule !! Z.to_nat i) as [w0|] eqn:H0.
    2:{ exfalso. apply lookup_ge_None in H0. lia. }
    split; [apply length_insert|]. split.
    + intros j w H. destruct (decide (j = Z.to_nat i)) as [->|Hne].
      * rewrite H0 in H. injection H as <-. rewrite list_lookup_insert_eq by lia.
        rewrite bool_decide_eq_true_2 by (f_equal; lia). reflexivity.
      * rewrite list_lookup_insert_ne by congruence. rewrite H.
        rewrite bool_decide_eq_false_2 by (intros [= Heq]; apply Hne; lia). destruct w; reflexivity.
    + apply (recount_insert_same people schedule _ w0); [exact H0|reflexivity|reflexivity].
  - split; [reflexivity|]. split; [|reflexivity]. intros j w H. rewrite H.
    rewrite bool_decide_eq_false_2; [destruct w; reflexivity|].
    intros [= ->]. pose proof (lookup_lt_Some _ _ _ H). apply andb_false_iff in E as [E|E].
    + apply Z.leb_gt in E. lia.
    + apply Z.ltb_ge in E. lia.
Qed.



(** A week overlapping Dec 25 .. Jan 1 is in the holiday period, and a week in the holiday period starts at most 6 days after Jan 1 and ends at least 6 days before Dec 25. *)
Theorem isWeekInHolidayPeriod_bounds s e y :
  let christmas := DateUTC y 11 25 in
  let newYear := DateUTC (y + 1) 0 1 in
  (s <= newYear -> christmas <= e -> isWeekInHolidayPeriod s e y = true) /\
  (isWeekInHolidayPeriod s e y = true -> s <= newYear + 6 /\ christmas - 6 <= e).
Proof.
  cbv zeta. unfold isWeekInHolidayPeriod, getHolidayPeriod.
  destruct (getMondayBefore_range (DateUTC y 11 25)) as [A B].
  destruct (getFridayAfter_range (DateUTC (y + 1) 0 1)) as [C D].
  split.
  - intros H1 H2. apply andb_true_iff; split; apply Z.leb_le; lia.
  - intros H. apply andb_true_iff in H as [H1 H2]. apply Z.leb_le in H1, H2. lia.
Qed.

Lemma availablePeople_sub tz people w p : p ∈ availablePeople tz people w -> p ∈ people.
Proof. unfold availablePeople. intros H. apply list_elem_of_filter in H. tauto. Qed.

Lemma assign_week_counts tz people hol (c : gmap Z Cnt) n w :
  (forall p, p ∈ people -> is_Some (c !! pid p)) ->
  (forall id, isHolidayPeriod w = true -> assignedTo w <> AId id) ->
  (forall p, p ∈ people -> is_Some (snd (assign_week tz people hol c n w) !! pid p)) /\
  cnt_proj <$> snd (assign_week tz people hol c n w) =
  recalc_week (cnt_proj <$> c) (fst (assign_week tz people hol c n w)).
Proof.
  intros Hk Hw. unfold assign_week. destruct (isHolidayPeriod w) eqn:Ehp.
  - cbn [fst snd]. split; [exact Hk|]. unfold recalc_week.
    destruct (assignedTo w) as [j| |] eqn:Ea; try reflexivity. exfalso. exact (Hw j eq_refl eq_refl).
  - destruct (sort_by _ (availablePeople tz people w)) as [|p r] eqn:Es; cbn [fst snd].
    + split; [exact Hk | reflexivity].
    + apply sort_by_head in Es as (pre & post & Hl & _ & _);
        [| intros; apply cmp_counts_on_gt_lt | intros a b c'; apply cmp_counts_on_le_trans].
      assert (Hp : p ∈ people) by (apply (availablePeople_sub tz people w); rewrite Hl; set_solver).
      split.
      * intros q Hq. destruct (decide (pid q = pid p)) as [->|Hne].
        -- rewrite lookup_insert_eq. eauto.
        -- rewrite lookup_insert_ne by congruence. auto.
      * unfold recalc_week; cbn [assignedTo hasHoliday].
        destruct (Hk p Hp) as [cp Ecp].
        rewrite lookup_fmap, Ecp. cbn [fmap option_fmap option_map].
        rewrite fmap_insert. unfold cnt_of. rewrite Ecp. cbn [default].
        f_equal. unfold cnt_proj.
        destruct (weekContainsHoliday _ _ _ _); reflexivity.
Qed.

Lemma assign_loop_counts tz people hol ws : forall (c : gmap Z Cnt) n,
  (forall p, p ∈ people -> is_Some (c !! pid p)) ->
  (forall w id, w ∈ ws -> isHolidayPeriod w = true -> assignedTo w <> AId id) ->
  cnt_proj <$> snd (assign_loop tz people hol c n ws) =
  foldl recalc_week (cnt_proj <$> c) (fst (assign_loop tz people hol c n ws)).
Proof.
  induction ws as [|w ws IH]; intros c n Hk Hw; [reflexivity|].
  cbn [assign_loop].
  destruct (assign_week_counts tz people hol c n w Hk) as [Hk' Eq];
    [intros id; apply Hw; set_solver|].
  destruct (assign_week tz people hol c n w) as [w' c'] eqn:Ew. cbn [fst snd] in *.
  specialize (IH c' (S n) Hk').
  destruct (assign_loop tz people hol c' (S n) ws) as [ws'' c''] eqn:El. cbn [fst snd foldl] in *.
  rewrite IH; [rewrite Eq; reflexivity|]. intros; apply Hw; set_solver.
Qed.

Lemma initCounts_proj_gen people : forall (m : gmap Z Cnt),
  cnt_proj <$> foldl (fun m p => <[pid p := cnt0]> m) m people =
  foldl (fun m p => <[pid p := (0, 0)%nat]> m) (cnt_proj <$> m) people.
Proof.
  induction people as [|p people IH]; intros m; [reflexivity|].
  cbn [foldl]. rewrite IH, fmap_insert. reflexivity.
Qed.

Lemma initCounts_lookup_gen people : forall (m : gmap Z Cnt) id,
  foldl (fun m p => <[pid p := cnt0]> m) m people !! id =
  if bool_decide (id ∈ map pid people) then Some cnt0 else m !! id.
Proof.
  induction people as [|p people IH]; intros m id; simpl.
  - first [reflexivity | case_bool_decide; [set_solver | reflexivity]].
  - rewrite IH. destruct (decide (id = pid p)) as [->|Hne].
    + rewrite (bool_decide_eq_true_2 (pid p ∈ pid p :: map pid people)) by set_solver.
      rewrite lookup_insert_eq. destruct (bool_decide _); reflexivity.
    + rewrite lookup_insert_ne by congruence.
      case_bool_decide as H1; case_bool_decide as H2; try reflexivity.
      * exfalso. apply H2. set_solver.
      * exfalso. apply H1. set_solver.
Qed.

Lemma initCounts_keys people p : p ∈ people -> is_Some (initCounts people !! pid p).
Proof.
  intros Hp. unfold initCounts. rewrite initCounts_lookup_gen.
  rewrite bool_decide_eq_true_2; [eauto|]. apply list_elem_of_fmap. eauto.
Qed.

Lemma sort_counts_nil (c : gmap Z Cnt) l :
  sort_by (fun a b => cmp_counts (cnt_of c (pid a)) (cnt_of c (pid b))) l = [] -> l = [].
Proof.
  apply sort_by_nil.
Qed.

Lemma assign_week_spec tz people hol c n g :
  let w := fst (assign_week tz people hol c n g) in
  startDate w = startDate g /\ endDate w = endDate g /\
  isHolidayPeriod w = isHolidayPeriod g /\ notes w = notes g /\
  (isHolidayPeriod g = true -> w = g) /\
  (isHolidayPeriod g = false ->
     hasHoliday w = (match assignedTo w with
                     | AId _ => weekContainsHoliday tz (startDate g) (endDate g) hol
                     | _ => hasHoliday g end) /\
     ((exists p, p ∈ people /\ assignedTo w = AId (pid p)
                 /\ isPersonOnLeave tz people (pid p) (startDate g) (endDate g) = false)
      \/ (assignedTo w = AStr NO_ONE_AVAILABLE
          /\ forall p, p ∈ people -> isPersonOnLeave tz people (pid p) (startDate g) (endDate g) = true))).
Proof.
  cbv zeta. destruct (assign_week_fields tz people hol c n g) as (H1 & H2 & H3 & H4 & H5).
  do 4 (split; [assumption|]). split; [intros Hp; rewrite (H5 Hp); reflexivity|].
  intros Hp. unfold assign_week. rewrite Hp.
  destruct (sort_by _ (availablePeople tz people g)) as [|p r] eqn:Es; cbn [fst snd assignedTo hasHoliday].
  - split; [reflexivity|]. right. split; [reflexivity|].
    apply sort_counts_nil in Es. intros q Hq.
    destruct (isPersonOnLeave tz people (pid q) (startDate g) (endDate g)) eqn:E; [reflexivity|].
    exfalso. assert (Hin : q ∈ availablePeople tz people g).
    { unfold availablePeople. apply list_elem_of_filter. rewrite E. split; [exact I|exact Hq]. }
    rewrite Es in Hin. set_solver.
  - split; [reflexivity|]. left.
    apply sort_by_head in Es as (pre & post & Hl & _ & _);
      [| intros; apply cmp_counts_on_gt_lt | intros a b c'; apply cmp_counts_on_le_trans].
    assert (Hin : p ∈ availablePeople tz people g) by (rewrite Hl; set_solver).
    unfold availablePeople in Hin. apply list_elem_of_filter in Hin as [Hn Hin].
    exists p. split; [exact Hin|]. split; [reflexivity|].
    destruct (isPersonOnLeave tz people (pid p) (startDate g) (endDate g)); [contradiction|reflexivity].
Qed.

(** [assignPeopleToWeeks] on any schedule: position by position. *)
(** [assignPeopleToWeeks] keeps every week's dates, flag and notes, returns holiday-period weeks unchanged, and gives every other week either a roster member not on leave that week, or the no-one-available status when every roster member is on leave. *)
Theorem assignPeopleToWeeks_week tz people ws hol k g :
  ws !! k = Some g ->
  exists w, fst (assignPeopleToWeeks tz people ws hol) !! k = Some w /\
  startDate w = startDate g /\ endDate w = endDate g /\
  isHolidayPeriod w = isHolidayPeriod g /\ notes w = notes g /\
  (isHolidayPeriod g = true -> w = g) /\
  (isHolidayPeriod g = false ->
     hasHoliday w = (match assignedTo w with
                     | AId _ => weekContainsHoliday tz (startDate g) (endDate g) hol
                     | _ => hasHoliday g end) /\
     ((exists p, p ∈ people /\ assignedTo w = AId (pid p)
                 /\ isPersonOnLeave tz people (pid p) (startDate g) (endDate g) = false)
      \/ (assignedTo w = AStr NO_ONE_AVAILABLE
          /\ forall p, p ∈ people -> isPersonOnLeave tz people (pid p) (startDate g) (endDate g) = true))).
Proof.
  intros Hg. rewrite assignPeopleToWeeks_fst, (assign_loop_lookup _ _ _ _ _ _ _ _ Hg).
  eexists. split; [reflexivity|]. apply assign_week_spec.
Qed.

Lemma assignPeopleToWeeks_recount tz people ws hol :
  (forall w id, w ∈ ws -> isHolidayPeriod w = true -> assignedTo w <> AId id) ->
  snd (assignPeopleToWeeks tz people ws hol) = recalculateAssignments people (fst (assignPeopleToWeeks tz people ws hol)).
Proof.
  intros Hw. unfold assignPeopleToWeeks.
  pose proof (assign_loop_counts tz people hol ws (initCounts people) 0 (initCounts_keys people) Hw) as E.
  destruct (assign_loop tz people hol (initCounts people) 0 ws) as [ws' c'] eqn:El. cbn [fst snd] in *.
  change ((fun c => (total c, holiday c)) <$> c') with (cnt_proj <$> c'). rewrite E.
  unfold recalculateAssignments, zeroCounts, initCounts. rewrite initCounts_proj_gen, fmap_empty. reflexivity.
Qed.

(** When no holiday-period week of the input is assigned to an id, the counts [assignPeopleToWeeks] stores are the recount of the schedule it stores. *)
Theorem assignPeopleToWeeks_counts tz people ws hol :
  (forall w id, w ∈ ws -> isHolidayPeriod w = true -> assignedTo w <> AId id) ->
  snd (assignPeopleToWeeks tz people ws hol) = recalculateAssignments people (fst (assignPeopleToWeeks tz people ws hol)).
Proof. apply assignPeopleToWeeks_recount. Qed.

(** The counts stored by [generateSchedule] are the recount of the generated schedule. *)
Theorem generateSchedule_counts tz people hol year startMonth startDayOfWeek :
  snd (generateSchedule tz people hol year startMonth startDayOfWeek) =
  recalculateAssignments people (fst (generateSchedule tz people hol year startMonth startDayOfWeek)).
Proof.
  apply assignPeopleToWeeks_recount. intros w id Hin Hp.
  apply list_elem_of_lookup in Hin as [i Hi]. rewrite generateWeeks_eq in Hi.
  apply week_loop_spec in Hi as (_ & _ & _ & _ & Ha). rewrite Ha, Hp. discriminate.
Qed.

Lemma strip_cr_snoc cur : strip_cr (cur ++ [CR]) = cur.
Proof.
  unfold strip_cr. rewrite rev_app_distr. cbn [rev app]. rewrite Ascii.eqb_refl, rev_involutive. reflexivity.
Qed.

Lemma strip_cr_noCR cur : ~ In CR cur -> strip_cr cur = cur.
Proof.
  intros H. apply strip_cr_id. intros c r E ->. apply H, in_rev. rewrite E. left. reflexivity.
Qed.

Lemma split_lines_aux_crlf s : forall cur,
  ~ In CR s -> ~ In CR cur -> split_lines_aux cur (crlf s) = split_lines_aux cur s.
Proof.
  induction s as [|c r IH]; intros cur Hs Hc; [reflexivity|].
  cbn [crlf]. destruct (Ascii.eqb_spec c NL) as [->|Hne].
  - cbn [split_lines_aux].
    assert (E1 : Ascii.eqb CR NL = false) by reflexivity. rewrite ?E1, ?Ascii.eqb_refl.
    cbn [split_lines_aux app]. rewrite ?Ascii.eqb_refl, strip_cr_snoc, strip_cr_noCR by exact Hc.
    f_equal. apply IH; [intros H; apply Hs; right; exact H | intros []].
  - cbn [split_lines_aux]. apply Ascii.eqb_neq in Hne. rewrite Hne.
    apply IH; [intros H; apply Hs; right; exact H|].
    intros H. apply in_app_or in H as [H|[H|[]]]; [exact (Hc H)|].
    apply Hs. left. exact H.
Qed.

Lemma importScheduleCSV_lines tz people hol c1 c2 :
  jeqb c1 [] = jeqb c2 [] -> csv_lines c1 = csv_lines c2 ->
  importScheduleCSV tz people hol c1 = importScheduleCSV tz people hol c2.
Proof. intros E1 E2. unfold importScheduleCSV. rewrite E1, E2. reflexivity. Qed.

(** Import reads a file with Windows line ends as the same file with Unix line ends. *)
Theorem importScheduleCSV_crlf tz people hol content :
  ~ In CR content ->
  importScheduleCSV tz people hol (crlf content) = importScheduleCSV tz people hol content.
Proof.
  intros H. apply importScheduleCSV_lines.
  - destruct content as [|c r]; [reflexivity|]. cbn [crlf].
    unfold jeqb. destruct (Ascii.eqb c NL); rewrite !bool_decide_eq_false_2 by discriminate; reflexivity.
  - unfold csv_lines, split_lines. rewrite split_lines_aux_crlf by (auto || intros []). reflexivity.
Qed.

Lemma split_lines_aux_nl x : forall cur y,
  exists pre last, split_lines_aux cur x = pre ++ [last] /\
    split_lines_aux cur (x ++ NL :: y) = pre ++ strip_cr last :: split_lines_aux [] y.
Proof.
  induction x as [|c x IH]; intros cur y.
  - exists [], cur. split; [reflexivity|]. cbn. rewrite ?Ascii.eqb_refl. reflexivity.
  - cbn [app split_lines_aux]. destruct (Ascii.eqb c NL).
    + destruct (IH [] y) as (pre & last & E1 & E2).
      exists (strip_cr cur :: pre), last. rewrite E1, E2. split; reflexivity.
    + apply IH.
Qed.

Lemma trim_start_all_ws s : Forall (fun c => is_ws c = true) s -> trim_start s = [].
Proof.
  induction 1 as [|c s Hc _ IH]; [reflexivity|]. cbn [trim_start]. rewrite Hc. exact IH.
Qed.

(** Import ignores a line made only of white space between two lines. *)
Theorem importScheduleCSV_blank_line tz people hol x z y :
  Forall (fun c => is_ws c = true) z -> ~ In NL z ->
  importScheduleCSV tz people hol (x ++ NL :: z ++ NL :: y) =
  importScheduleCSV tz people hol (x ++ NL :: y).
Proof.
  intros Hz Hn. apply importScheduleCSV_lines.
  - unfold jeqb. rewrite !bool_decide_eq_false_2; [reflexivity| |];
      intros E; apply (f_equal (@length ascii)) in E; rewrite length_app in E; cbn in E; lia.
  - unfold csv_lines, split_lines.
    destruct (split_lines_aux_nl x [] (z ++ NL :: y)) as (pre & last & E1 & E2).
    destruct (split_lines_aux_nl x [] y) as (pre' & last' & E1' & E2').
    rewrite E1 in E1'. apply app_inj_tail in E1' as [<- <-].
    rewrite E2, E2'. rewrite split_lines_aux_app by exact Hn. cbn [app split_lines_aux].
    rewrite Ascii.eqb_refl. rewrite !List.filter_app. f_equal. cbn [List.filter].
    assert (Hb : jeqb (trim (strip_cr z)) [] = true).
    { unfold jeqb. apply bool_decide_eq_true_2. unfold trim.
      assert (Hs : Forall (fun c => is_ws c = true) (strip_cr z)).
      { unfold strip_cr. destruct (rev z) as [|c r] eqn:E; [exact Hz|].
        destruct (Ascii.eqb c CR); [|exact Hz].
        apply Forall_rev. apply Forall_rev in Hz. rewrite E in Hz.
        inversion Hz; assumption. }
      rewrite (trim_start_all_ws _ Hs). reflexivity. }
    rewrite Hb. reflexivity.
Qed.

Lemma find_first_spec year m dow : 0 <= dow <= 6 ->
  let first := DateUTC year m 1 in
  forall fuel i, 0 <= i <= (dow - WeekDay first) mod 7 ->
  (dow - WeekDay first) mod 7 < Z.of_nat fuel + i ->
  WeekDay (find_first fuel year m dow (first + i)) = dow /\
  first <= find_first fuel year m dow (first + i) <= first + 6.
Proof.
  intros Hd first fuel. set (j0 := (dow - WeekDay first) mod 7).
  assert (Hj : 0 <= j0 <= 6 /\ WeekDay (first + j0) = dow).
  { clearbody first. unfold j0, WeekDay.
    pose proof (Z.div_mod (first + 4) 7 ltac:(lia)) as D1.
    pose proof (Z.mod_pos_bound (first + 4) 7 ltac:(lia)) as B1.
    set (a := (first + 4) mod 7) in *. set (q := (first + 4) / 7) in *.
    pose proof (Z.div_mod (dow - a) 7 ltac:(lia)) as D2.
    pose proof (Z.mod_pos_bound (dow - a) 7 ltac:(lia)) as B2.
    set (b := (dow - a) mod 7) in *. set (q2 := (dow - a) / 7) in *.
    split; [lia|].
    assert (E : first + b + 4 = dow + 7 * (q - q2)) by lia.
    rewrite E, (Z.mul_comm 7), Z_mod_plus_full. apply Z.mod_small. lia. }
  destruct Hj as [Hj Hw].
  induction fuel as [|f IH]; intros i Hi Hf; [lia|].
  cbn [find_first]. destruct (Z.eqb_spec (WeekDay (first + i)) dow) as [E|E]; [split; [exact E|lia]|].
  assert (Hlt : i < j0) by (destruct (Z.eq_dec i j0) as [->|]; [contradiction|lia]).
  rewrite addDays_spec. rewrite <- Z.add_assoc.
  destruct (_ || _).
  - fold first. rewrite addDays_spec.
    assert (Er : Z.rem (dow - WeekDay first + 7) 7 = j0).
    { assert (Wb : 0 <= WeekDay first < 7) by (apply Z.mod_pos_bound; lia).
      rewrite Z.rem_mod_nonneg by lia.
      replace (dow - WeekDay first + 7) with (dow - WeekDay first + 1 * 7) by lia.
      rewrite Z_mod_plus_full. reflexivity. }
    rewrite Er. split; [exact Hw | lia].
  - apply IH; lia.
Qed.

Lemma firstWeekStart_spec year m dow : 0 <= dow <= 6 ->
  WeekDay (firstWeekStart year m dow) = dow /\
  DateUTC year m 1 <= firstWeekStart year m dow <= DateUTC year m 1 + 6.
Proof.
  intros Hd. unfold firstWeekStart.
  pose proof (find_first_spec year m dow Hd 32 0) as H. cbv zeta in H.
  assert (E : DateUTC year m 1 + 0 = DateUTC year m 1) by lia. rewrite E in H.
  apply H; [|assert (0 <= (dow - WeekDay (DateUTC year m 1)) mod 7 < 7) by (apply Z.mod_pos_bound; lia); lia].
  split; [lia|]. apply Z.mod_pos_bound. lia.
Qed.

Lemma week_loop_length tz hol year fuel : forall date,
  (YearFromDay date = year -> forall k, YearFromDay (date + 7 * Z.of_nat k) = year -> (k < fuel)%nat) ->
  forall i, (i < length (week_loop fuel tz hol year date))%nat <->
            YearFromDay date = year /\ YearFromDay (date + 7 * Z.of_nat i) = year.
Proof.
  induction fuel as [|f IH]; intros date Hf i.
  - cbn. split; [lia|]. intros [H1 _]. specialize (Hf H1 0%nat). rewrite Z.add_0_r in Hf. lia.
  - cbn [week_loop]. destruct (Z.eqb_spec (YearFromDay date) year) as [Ey|Ey].
    + cbn [length]. rewrite addDays_spec. destruct i as [|i].
      * rewrite Z.add_0_r. split; [auto|lia].
      * assert (IH' := IH (date + 7)).
        assert (Hf' : YearFromDay (date + 7) = year -> forall k,
                  YearFromDay (date + 7 + 7 * Z.of_nat k) = year -> (k < f)%nat).
        { intros _ k Hk. specialize (Hf Ey (S k)).
          assert (E : date + 7 * Z.of_nat (S k) = date + 7 + 7 * Z.of_nat k) by lia.
          rewrite E in Hf. specialize (Hf Hk). lia. }
        specialize (IH' Hf' i).
        assert (E : date + 7 * Z.of_nat (S i) = date + 7 + 7 * Z.of_nat i) by lia.
        rewrite E. split.
        -- intros Hl. assert (Hl' : (i < length (week_loop f tz hol year (date + 7)))%nat) by lia.
           apply IH' in Hl' as [_ H2]. split; assumption.
        -- intros [_ H2]. cut (i < length (week_loop f tz hol year (date + 7)))%nat; [lia|].
           apply IH'. split; [|exact H2].
           pose proof (YearFromDay_mono date (date + 7)) as M1.
           pose proof (YearFromDay_mono (date + 7) (date + 7 + 7 * Z.of_nat i)) as M2. lia.
    + cbn [length]. split; [lia|]. intros [H _]. contradiction.
Qed.

Lemma year_span d1 d2 : YearFromDay d1 = YearFromDay d2 -> d1 <= d2 -> d2 - d1 < 366.
Proof.
  intros E H. pose proof (YearFromDay_spec d1) as S1. pose proof (YearFromDay_spec d2) as S2.
  rewrite E in S1. pose proof (DayFromYear_succ (YearFromDay d2)) as Ds.
  unfold LeapOfYear in Ds. destruct (_ =? 366); lia.
Qed.

(** The generated schedule has a week for each [i] such that the first week start and the day [7 * i] after it lie in the selected year, and no other weeks: the loop never stops early. *)
Theorem generateSchedule_length tz people hol year startMonth startDayOfWeek i :
  let s := firstWeekStart year startMonth startDayOfWeek in
  (i < length (fst (generateSchedule tz people hol year startMonth startDayOfWeek)))%nat <->
  YearFromDay s = year /\ YearFromDay (s + 7 * Z.of_nat i) = year.
Proof.
  cbv zeta. rewrite generateSchedule_fst, assign_loop_length, generateWeeks_eq.
  apply week_loop_length. intros H1 k H2.
  assert (Hs := year_span (firstWeekStart year startMonth startDayOfWeek)
                  (firstWeekStart year startMonth startDayOfWeek + 7 * Z.of_nat k)).
  rewrite H1, H2 in Hs. specialize (Hs eq_refl). lia.
Qed.

(** For a start weekday in 0..6, every generated week starts on that weekday, the [i]-th within [7 * i] .. [7 * i + 6] days after the first day of the start month. *)
Theorem generateSchedule_start_weekday tz people hol year startMonth startDayOfWeek i w :
  0 <= startDayOfWeek <= 6 ->
  fst (generateSchedule tz people hol year startMonth startDayOfWeek) !! i = Some w ->
  WeekDay (startDate w) = startDayOfWeek /\
  DateUTC year startMonth 1 + 7 * Z.of_nat i <= startDate w <= DateUTC year startMonth 1 + 7 * Z.of_nat i + 6.
Proof.
  intros Hd H.
  destruct (generateSchedule_lookup _ _ _ _ _ _ _ _ H) as (g & c & Hg & ->).
  destruct (assign_week_fields tz people hol c i g) as (Hs & _).
  rewrite generateWeeks_eq in Hg. apply week_loop_spec in Hg as (Hg1 & _).
  rewrite Hs, Hg1. destruct (firstWeekStart_spec year startMonth startDayOfWeek Hd) as [W B].
  split; [|lia]. unfold WeekDay in *.
  replace (firstWeekStart year startMonth startDayOfWeek + 7 * Z.of_nat i + 4)
    with (firstWeekStart year startMonth startDayOfWeek + 4 + Z.of_nat i * 7) by lia.
  rewrite Z_mod_plus_full. exact W.
Qed.

(** [parseInt(String(n), 10)] gives back [n] for every integer with fewer than 40 digits. *)
Theorem parseInt10_numToString n : Z.abs n < 10 ^ 40 -> parseInt10 (numToString n) = Some n.
Proof. apply parseInt10_numToString_val. Qed.

(** Parsing the [YYYY-MM-DD] text [formatDateYYYYMMDD] writes for a date with a four-digit year gives the date back. *)
Theorem formatDateYYYYMMDD_parse d : 1000 <= YearFromDay d <= 9999 ->
  parseUTCMidnight (formatDateYYYYMMDD d) = Some d.
Proof. apply format_parse. Qed.

(** When roster names are distinct up to case, reading back the name written for a roster id gives that id. *)
Theorem getPersonIdFromName_getPersonName people id :
  NoDup (map (fun p => toLowerCase (pname p)) people) -> In id (map pid people) ->
  getPersonIdFromName people (getPersonName people (AId id)) = AId id.
Proof. apply person_name_id. Qed.

Lemma addPerson_invariants_witness :
  NoDup (map pid (fst (addPerson [mkPerson 1 (s2l "Person 1") []; mkPerson 2 (s2l "Person 2") []] (s2l " Dana ")))) /\
  (length (fst (addPerson [mkPerson 1 (s2l "Person 1") []; mkPerson 2 (s2l "Person 2") []] (s2l " Dana "))) <= MAX_PEOPLE)%nat.
Proof.
  apply addPerson_invariants.
  - apply (bool_decide_unpack _). vm_compute. exact I.
  - vm_compute. lia.
Defined.

Lemma addLeave_removeLeave_witness :
  removeLeave (addLeave [mkPerson 1 (s2l "Person 1") []] (Some 1) (s2l "2025-03-03") (s2l "2025-03-07")) 1
    (Z.of_nat (length (leave (mkPerson 1 (s2l "Person 1") [])))) = [mkPerson 1 (s2l "Person 1") []].
Proof.
  apply addLeave_removeLeave.
  - apply (bool_decide_unpack _). vm_compute. exact I.
  - left. reflexivity.
  - reflexivity.
  - discriminate.
  - discriminate.
  - intros (s & e & Es & Ee & Hlt). vm_compute in Es, Ee. injection Es as <-. injection Ee as <-. lia.
  - intros [].
Defined.

Lemma parseInt10_numToString_witness : parseInt10 (numToString (-42)) = Some (-42).
Proof. apply parseInt10_numToString. vm_compute. reflexivity. Defined.

Lemma handleWeekAssignmentChange_recount_witness :
  exists s', handleWeekAssignmentChange [mkWeek 20095 20101 (AId 1) false false []] (Z.of_nat 0) (numToString 2) = Some s' /\
    length s' = length [mkWeek 20095 20101 (AId 1) false false []] /\
    forall k, In k (map pid [mkPerson 1 (s2l "Person 1") []; mkPerson 2 (s2l "Person 2") []]) ->
      exists t h t' h',
        recalculateAssignments [mkPerson 1 (s2l "Person 1") []; mkPerson 2 (s2l "Person 2") []] [mkWeek 20095 20101 (AId 1) false false []] !! k = Some (t, h) /\
        recalculateAssignments [mkPerson 1 (s2l "Person 1") []; mkPerson 2 (s2l "Person 2") []] s' !! k = Some (t', h') /\
        (t' + (if is_duty k (mkWeek 20095 20101 (AId 1) false false []) then 1 else 0) = t + (if (2 =? k)%Z then 1 else 0))%nat /\
        (h' + (if is_duty k (mkWeek 20095 20101 (AId 1) false false []) && hasHoliday (mkWeek 20095 20101 (AId 1) false false []) then 1 else 0) =
         h + (if (2 =? k)%Z && hasHoliday (mkWeek 20095 20101 (AId 1) false false []) then 1 else 0))%nat.
Proof.
  apply handleWeekAssignmentChange_recount.
  - reflexivity.
  - reflexivity.
  - lia.
Defined.

Lemma assignPeopleToWeeks_week_witness :
  exists w, fst (assignPeopleToWeeks 0 [mkPerson 1 (s2l "Person 1") []] [mkWeek 20095 20101 ANull false false []] []) !! 0%nat = Some w /\
  startDate w = startDate (mkWeek 20095 20101 ANull false false []) /\ endDate w = endDate (mkWeek 20095 20101 ANull false false []) /\
  isHolidayPeriod w = isHolidayPeriod (mkWeek 20095 20101 ANull false false []) /\ notes w = notes (mkWeek 20095 20101 ANull false false []) /\
  (isHolidayPeriod (mkWeek 20095 20101 ANull false false []) = true -> w = mkWeek 20095 20101 ANull false false []) /\
  (isHolidayPeriod (mkWeek 20095 20101 ANull false false []) = false ->
     hasHoliday w = (match assignedTo w with
                     | AId _ => weekContainsHoliday 0 (startDate (mkWeek 20095 20101 ANull false false [])) (endDate (mkWeek 20095 20101 ANull false false [])) []
                     | _ => hasHoliday (mkWeek 20095 20101 ANull false false []) end) /\
     ((exists p, p ∈ [mkPerson 1 (s2l "Person 1") []] /\ assignedTo w = AId (pid p)
                 /\ isPersonOnLeave 0 [mkPerson 1 (s2l "Person 1") []] (pid p) (startDate (mkWeek 20095 20101 ANull false false [])) (endDate (mkWeek 20095 20101 ANull false false [])) = false)
      \/ (assignedTo w = AStr NO_ONE_AVAILABLE
          /\ forall p, p ∈ [mkPerson 1 (s2l "Person 1") []] -> isPersonOnLeave 0 [mkPerson 1 (s2l "Person 1") []] (pid p) (startDate (mkWeek 20095 20101 ANull false false [])) (endDate (mkWeek 20095 20101 ANull false false [])) = true))).
Proof. apply assignPeopleToWeeks_week. reflexivity. Defined.

Lemma assignPeopleToWeeks_counts_witness :
  snd (assignPeopleToWeeks 0 [mkPerson 1 (s2l "Person 1") []] [mkWeek 20095 20101 ANull false false []] []) =
  recalculateAssignments [mkPerson 1 (s2l "Person 1") []] (fst (assignPeopleToWeeks 0 [mkPerson 1 (s2l "Person 1") []] [mkWeek 20095 20101 ANull false false []] [])).
Proof.
  apply assignPeopleToWeeks_counts. intros w id Hin. apply list_elem_of_singleton in Hin as ->. discriminate.
Defined.

Lemma importScheduleCSV_crlf_witness :
  importScheduleCSV 0 [] [] (crlf (s2l "Week Start Date,Week End Date,Assigned To,Holidays,Notes" ++ NL :: s2l "2025-01-07,2025-01-13,,,")) =
  importScheduleCSV 0 [] [] (s2l "Week Start Date,Week End Date,Assigned To,Holidays,Notes" ++ NL :: s2l "2025-01-07,2025-01-13,,,").
Proof. apply importScheduleCSV_crlf. apply includes_false. vm_compute. reflexivity. Defined.

Lemma importScheduleCSV_blank_line_witness :
  importScheduleCSV 0 [] [] (s2l "Week Start Date,Week End Date,Assigned To,Holidays,Notes" ++ NL :: s2l "  " ++ NL :: s2l "2025-01-07,2025-01-13,,,") =
  importScheduleCSV 0 [] [] (s2l "Week Start Date,Week End Date,Assigned To,Holidays,Notes" ++ NL :: s2l "2025-01-07,2025-01-13,,,").
Proof.
  apply importScheduleCSV_blank_line.
  - repeat constructor.
  - apply includes_false. vm_compute. reflexivity.
Defined.

Lemma generateSchedule_start_weekday_witness :
  WeekDay (startDate (mkWeek 20095 20101 (AId 1) false false [])) = 2 /\
  DateUTC 2025 0 1 + 7 * Z.of_nat 0 <= startDate (mkWeek 20095 20101 (AId 1) false false []) <= DateUTC 2025 0 1 + 7 * Z.of_nat 0 + 6.
Proof.
  apply (generateSchedule_start_weekday 0 [mkPerson 1 [] []] [] 2025 0 2 0).
  - lia.
  - vm_compute. reflexivity.
Defined.

Lemma formatDateYYYYMMDD_parse_witness : parseUTCMidnight (formatDateYYYYMMDD 20095) = Some 20095.
Proof.
  apply formatDateYYYYMMDD_parse.
  assert (E : YearFromDay 20095 = 2025) by (vm_compute; reflexivity). rewrite E. lia.
Defined.

Lemma getPersonIdFromName_getPersonName_witness :
  getPersonIdFromName [mkPerson 1 (s2l "Person 1") []; mkPerson 2 (s2l "Person 2") []]
    (getPersonName [mkPerson 1 (s2l "Person 1") []; mkPerson 2 (s2l "Person 2") []] (AId 2)) = AId 2.
Proof.
  apply getPersonIdFromName_getPersonName.
  - apply (bool_decide_unpack _). vm_compute. exact I.
  - right. left. reflexivity.
Defined.

End Handlers.
